(** * Lunar_X core: connection manager, event classification, plugin dispatch

    A shallow embedding of the Python sources [core/connection.py],
    [core/events.py], [core/message.py], [core/plugin_manager.py] and
    [core/bot.py], followed by the properties proved about them.

    Conventions of the embedding:
    - a Python [str] is its sequence of Unicode code points ([pystr]);
    - a decoded JSON value is a [json] tree, a JSON object an association
      list in key order (Python dicts keep insertion order);
    - a Python call that may raise returns a [result];
    - what the interpreter, the operating system, the network and the other
      asyncio tasks contribute is passed in explicitly (runtime records,
      oracles for connection attempts, the state found at a wake-up). *)

From Stdlib Require Import ZArith NArith QArith Ascii String DecimalString Lia.
From Stdlib Require Import Sorted Permutation.
From stdpp Require Import base option list gmap.

Set Warnings "-register-all".
Local Open Scope Z_scope.

(* ===================================================================== *)
(** ** Python strings *)
(* ===================================================================== *)
Module PyStr.

Abbreviation pystr := (list N).

(** An ASCII literal as a Python string. *)
Definition py (s : string) : pystr :=
  List.map N_of_ascii (list_ascii_of_string s).

(** [str.isspace] on one code point: the whitespace set [str.strip()] uses. *)
Definition isspace (c : N) : bool :=
  ((9 <=? c) && (c <=? 13) || (28 <=? c) && (c <=? 32)
   || (c =? 133) || (c =? 160) || (c =? 5760)
   || (8192 <=? c) && (c <=? 8202)
   || (c =? 8232) || (c =? 8233) || (c =? 8239) || (c =? 8287)
   || (c =? 12288))%N.

Fixpoint lstrip (s : pystr) : pystr :=
  match s with
  | c :: s' => if isspace c then lstrip s' else s
  | [] => []
  end.

Definition rstrip (s : pystr) : pystr := rev (lstrip (rev s)).

(** [s.strip()] *)
Definition strip (s : pystr) : pystr := rstrip (lstrip s).

(** [s.startswith(p)] *)
Fixpoint startswith (s p : pystr) {struct p} : bool :=
  match p, s with
  | [], _ => true
  | _ :: _, [] => false
  | c :: p', d :: s' => (c =? d)%N && startswith s' p'
  end.

(** [s.endswith(p)] *)
Definition endswith (s p : pystr) : bool := startswith (rev s) (rev p).

(** [s[n:]] for [0 <= n] *)
Definition slice_from (n : nat) (s : pystr) : pystr := drop n s.

(** [s[:-n]] for [0 < n] *)
Definition slice_to_neg (n : nat) (s : pystr) : pystr := take (length s - n) s.

(** [s.split(" ", 1)]: the part before the first U+0020 and, when there is
    one, the part after it. *)
Fixpoint split_space_1 (s : pystr) : pystr * option pystr :=
  match s with
  | [] => ([], None)
  | c :: s' =>
      if (c =? 32)%N then ([], Some s')
      else let '(a, b) := split_space_1 s' in (c :: a, b)
  end.

(** [sep.join(parts)] *)
Fixpoint join (sep : pystr) (parts : list pystr) : pystr :=
  match parts with
  | [] => []
  | [p] => p
  | p :: ps => p ++ sep ++ join sep ps
  end.

(** Truthiness of a string: non-empty. *)
Definition truthy (s : pystr) : bool :=
  match s with [] => false | _ => true end.

Definition eqb (a b : pystr) : bool := bool_decide (a = b).

End PyStr.

Export PyStr.

(* ===================================================================== *)
(** ** Exceptions and results *)
(* ===================================================================== *)

Inductive exn :=
| ValueError
| TypeError
| AttributeError
| ConnectionError
| TimeoutError
| CancelledError        (* asyncio.CancelledError *)
| KeyboardInterrupt
| ConnectionClosed      (* websockets.exceptions.ConnectionClosed *)
| ServerError (msg : pystr)  (* Exception("服务器错误: ...") *)
| OtherError.           (* any other subclass of Exception *)

(** [isinstance(e, Exception)]: [CancelledError] and [KeyboardInterrupt]
    derive from [BaseException] only. *)
Definition is_Exception (e : exn) : bool :=
  match e with
  | CancelledError | KeyboardInterrupt => false
  | _ => true
  end.

Inductive result (A : Type) :=
| Ok (a : A)
| Raise (e : exn).
Arguments Ok {A} a.
Arguments Raise {A} e.

Definition bind {A B} (r : result A) (k : A -> result B) : result B :=
  match r with
  | Ok a => k a
  | Raise e => Raise e
  end.

Notation "'try!' x ':=' r 'in' k" := (bind r (fun x => k))
  (at level 10, x name, r at level 100, k at level 200).

(* ===================================================================== *)
(** ** Decoded JSON *)
(* ===================================================================== *)
Module Json.

Inductive json :=
| JNull
| JBool (b : bool)
| JNum (n : Z)
| JStr (s : pystr)
| JArr (items : list json)
| JObj (fields : list (pystr * json)).

Abbreviation dict := (list (pystr * json)).

(** [key in d] *)
Fixpoint contains (d : dict) (key : pystr) : bool :=
  match d with
  | [] => false
  | (k, _) :: d' => PyStr.eqb k key || contains d' key
  end.

(** [d.get(key, default)] *)
Fixpoint get (d : dict) (key : pystr) (default : json) : json :=
  match d with
  | [] => default
  | (k, v) :: d' => if PyStr.eqb k key then v else get d' key default
  end.

(** [v == s] for a string literal [s]: only a string equals a string. *)
Definition is_str (v : json) (s : pystr) : bool :=
  match v with
  | JStr t => PyStr.eqb t s
  | _ => false
  end.

(** Iteration over a decoded value ([for x in v]): the elements of a list,
    the characters of a string, the keys of a dict; other values are not
    iterable. *)
Definition iter (v : json) : result (list json) :=
  match v with
  | JArr items => Ok items
  | JStr s => Ok (List.map (fun c => JStr [c]) s)
  | JObj fields => Ok (List.map (fun kv => JStr (fst kv)) fields)
  | _ => Raise TypeError
  end.

End Json.

Export Json.

(* ===================================================================== *)
(** ** core/message.py: message segments and their decoder *)
(* ===================================================================== *)
Module Message.

(** The segment classes, each with the payload its constructor stores.
    [AtSegment] and [ReplySegment] apply [str()] to their argument, the
    builders of [ImageSegment] and [RecordSegment] require a path string;
    [TextSegment] stores its argument unchecked. *)
Inductive segment :=
| TextSegment (text : json)
| ImageSegment (file : pystr) (cache proxy timeout : json)
| AtSegment (qq : pystr)
| FaceSegment (id : json)
| RecordSegment (file : pystr) (magic cache proxy timeout : json)
| ReplySegment (id : pystr)
| ForwardNodeSegment (data : dict)
| ForwardSegment (data : dict)
| BaseSegment (type : pystr) (data : dict).

(** The [type] property. *)
Definition seg_type (s : segment) : pystr :=
  match s with
  | TextSegment _ => py "text"
  | ImageSegment _ _ _ _ => py "image"
  | AtSegment _ => py "at"
  | FaceSegment _ => py "face"
  | RecordSegment _ _ _ _ _ => py "record"
  | ReplySegment _ => py "reply"
  | ForwardNodeSegment _ => py "node"
  | ForwardSegment _ => py "forward"
  | BaseSegment t _ => t
  end.

(** What the decoder takes from the interpreter and the operating system:
    the builtin [str()], [os.path.isabs] and [os.path.abspath]. *)
Record runtime := {
  py_str : json -> pystr;
  isabs : pystr -> bool;
  abspath : pystr -> pystr
}.

(** The path handling shared by [MessageBuilder.image] and
    [MessageBuilder.record]; [os.path.isabs] rejects what is not a path. *)
Definition resolve_file (rt : runtime) (file : json) : result pystr :=
  match file with
  | JStr f =>
      if negb (isabs rt f)
         && negb (startswith f (py "http://") || startswith f (py "https://")
                  || startswith f (py "base64://"))
      then Ok (abspath rt f) else Ok f
  | _ => Raise TypeError
  end.

(** [seg_data.get(...)] needs [seg_data] to be a dict. *)
Definition as_dict (v : json) : result dict :=
  match v with
  | JObj d => Ok d
  | _ => Raise AttributeError
  end.

Definition _parse_dict_to_segment (rt : runtime) (segment_dict : dict)
  : result (option segment) :=
  let seg_type := get segment_dict (py "type") JNull in
  let seg_data := get segment_dict (py "data") (JObj []) in
  if is_str seg_type (py "text") then
    try! d := as_dict seg_data in
    Ok (Some (TextSegment (get d (py "text") (JStr []))))
  else if is_str seg_type (py "image") then
    try! d := as_dict seg_data in
    try! f := resolve_file rt (get d (py "file") (JStr [])) in
    Ok (Some (ImageSegment f (get d (py "cache") (JBool true))
                (get d (py "proxy") (JBool true)) (get d (py "timeout") (JNum 30))))
  else if is_str seg_type (py "at") then
    try! d := as_dict seg_data in
    Ok (Some (AtSegment (py_str rt (get d (py "qq") JNull))))
  else if is_str seg_type (py "face") then
    try! d := as_dict seg_data in
    Ok (Some (FaceSegment (get d (py "id") JNull)))
  else if is_str seg_type (py "record") then
    try! d := as_dict seg_data in
    try! f := resolve_file rt (get d (py "file") (JStr [])) in
    Ok (Some (RecordSegment f (get d (py "magic") (JBool false))
                (get d (py "cache") (JBool true))
                (get d (py "proxy") (JBool true)) (get d (py "timeout") (JNum 30))))
  else if is_str seg_type (py "reply") then
    try! d := as_dict seg_data in
    Ok (Some (ReplySegment (py_str rt (get d (py "id") JNull))))
  else Ok None.

(** The loop of [gen_message] over [message_data]. *)
Fixpoint gen_segments (rt : runtime) (message_data : list json)
  : result (list segment) :=
  match message_data with
  | [] => Ok []
  | JObj d :: rest =>
      try! parsed := _parse_dict_to_segment rt d in
      try! tail := gen_segments rt rest in
      Ok (match parsed with Some s => s :: tail | None => tail end)
  | JStr s :: rest =>
      try! tail := gen_segments rt rest in
      Ok (TextSegment (JStr s) :: tail)
  | _ :: rest => gen_segments rt rest
  end.

(** [MessageBuilder.gen_message] *)
Definition gen_message (rt : runtime) (data : json) : result (list segment) :=
  match data with
  | JObj d =>
      if contains d (py "message")
      then try! message_data := iter (get d (py "message") JNull) in
           gen_segments rt message_data
      else gen_segments rt [data]
  | JArr l => gen_segments rt l
  | _ => Raise ValueError
  end.

End Message.

Export Message.

(* ===================================================================== *)
(** ** core/events.py: the event classes and their factory *)
(* ===================================================================== *)
Module Events.

Inductive event_class :=
| Event
| MessageEvent | PrivateMessageEvent | GroupMessageEvent
| NoticeEvent
| GroupUploadNoticeEvent | GroupAdminNoticeEvent | GroupIncreaseNoticeEvent
| GroupDecreaseNoticeEvent | GroupBanNoticeEvent | FriendAddNoticeEvent
| GroupRecallNoticeEvent | FriendRecallNoticeEvent | GroupPokeNoticeEvent
| GroupHonorNoticeEvent
| RequestEvent
| FriendRequestEvent | GroupAddRequestEvent | GroupInviteRequestEvent
| MetaEvent
| HeartbeatMetaEvent | LifecycleMetaEvent
| LunarStartListen | LunarStopListen.

#[global] Instance event_class_eq_dec : EqDecision event_class.
Proof. solve_decision. Defined.

(** The base class of each class ([Event] derives from [object]). *)
Definition base (c : event_class) : option event_class :=
  match c with
  | Event => None
  | MessageEvent | NoticeEvent | RequestEvent | MetaEvent
  | LunarStartListen | LunarStopListen => Some Event
  | PrivateMessageEvent | GroupMessageEvent => Some MessageEvent
  | GroupUploadNoticeEvent | GroupAdminNoticeEvent | GroupIncreaseNoticeEvent
  | GroupDecreaseNoticeEvent | GroupBanNoticeEvent | FriendAddNoticeEvent
  | GroupRecallNoticeEvent | FriendRecallNoticeEvent | GroupPokeNoticeEvent
  | GroupHonorNoticeEvent => Some NoticeEvent
  | FriendRequestEvent | GroupAddRequestEvent | GroupInviteRequestEvent =>
      Some RequestEvent
  | HeartbeatMetaEvent | LifecycleMetaEvent => Some MetaEvent
  end.

(** [issubclass(c, b)]; the hierarchy is three levels deep. *)
Definition issubclass (c b : event_class) : bool :=
  bool_decide (c = b)
  || match base c with
     | Some p => bool_decide (p = b)
                 || match base p with
                    | Some g => bool_decide (g = b)
                    | None => false
                    end
     | None => false
     end.

(** An event object: its class, the copy of the frame it was built from,
    the attributes the [__init__] chain of its class derives from the
    frame, the decoded segments ([message], Message events only) and the
    command fields every event starts with. *)
Record event := mkEvent {
  cls : event_class;
  raw_data : dict;
  attrs : dict;
  message : list segment;
  is_command : bool;
  command : option pystr;
  args : option pystr;
  processed_text : option pystr
}.

Definition isinstance (e : event) (b : event_class) : bool :=
  issubclass (cls e) b.

(** [(name, data.get(name))] *)
Definition field (data : dict) (name : string) : pystr * json :=
  (py name, get data (py name) JNull).

(** [(name, data.get(name, default))] *)
Definition field_or (data : dict) (name : string) (default : json) : pystr * json :=
  (py name, get data (py name) default).

(** The attributes set by the [__init__] chain of each class, base class
    first. *)
Fixpoint init_attrs_upto (depth : nat) (c : event_class) (data : dict) : dict :=
  let inherited :=
    match depth, base c with
    | S d, Some p => init_attrs_upto d p data
    | _, _ => []
    end in
  inherited ++
  match c with
  | Event => [field data "time"; field data "self_id"; field data "post_type"]
  | LunarStartListen | LunarStopListen => []
  | MessageEvent =>
      [field data "message_id"; field data "user_id";
       (py "_raw_message_segments", get data (py "message") (JArr []));
       field_or data "raw_message" (JStr []); field_or data "font" (JNum 0)]
  | PrivateMessageEvent =>
      [field_or data "sub_type" (JStr (py "friend"));
       field_or data "sender" (JObj [])]
  | GroupMessageEvent =>
      [field data "group_id"; field_or data "sub_type" (JStr (py "normal"));
       field_or data "sender" (JObj []); field data "anonymous"]
  | NoticeEvent => [field data "notice_type"]
  | GroupUploadNoticeEvent =>
      [field data "group_id"; field data "user_id"; field_or data "file" (JObj [])]
  | GroupAdminNoticeEvent =>
      [field data "group_id"; field data "user_id"; field data "sub_type"]
  | GroupIncreaseNoticeEvent | GroupDecreaseNoticeEvent =>
      [field data "group_id"; field data "user_id"; field data "operator_id";
       field data "sub_type"]
  | GroupBanNoticeEvent =>
      [field data "group_id"; field data "user_id"; field data "operator_id";
       field data "sub_type"; field_or data "duration" (JNum 0)]
  | FriendAddNoticeEvent => [field data "user_id"]
  | GroupRecallNoticeEvent =>
      [field data "group_id"; field data "user_id"; field data "operator_id";
       field data "message_id"]
  | FriendRecallNoticeEvent => [field data "user_id"; field data "message_id"]
  | GroupPokeNoticeEvent =>
      [field data "group_id"; field data "user_id"; field data "target_id"]
  | GroupHonorNoticeEvent =>
      [field data "group_id"; field data "user_id"; field data "honor_type"]
  | RequestEvent =>
      [field data "request_type";
       (py "comment",
        match get data (py "comment") JNull with
        | JNull => JStr []
        | _ => get data (py "comment") (JStr [])
        end);
       field_or data "flag" (JStr [])]
  | FriendRequestEvent => [field data "user_id"]
  | GroupAddRequestEvent | GroupInviteRequestEvent =>
      [field data "group_id"; field data "user_id"; field data "sub_type"]
  | MetaEvent => [field data "meta_event_type"]
  | HeartbeatMetaEvent =>
      [field_or data "status" (JObj []); field_or data "interval" (JNum 0)]
  | LifecycleMetaEvent => [field data "sub_type"]
  end.

Definition init_attrs : event_class -> dict -> dict := init_attrs_upto 2.

(** [C(data)]: a fresh event of class [C]. *)
Definition new (c : event_class) (data : dict) : event :=
  {| cls := c; raw_data := data; attrs := init_attrs c data; message := [];
     is_command := false; command := None; args := None;
     processed_text := None |}.

(** The frames the two framework events pass to [Event.__init__]. *)
Definition lunar_frame (sub_type : string) : dict :=
  [(py "post_type", JStr (py "meta_event"));
   (py "meta_event_type", JStr (py "lunar_framework"));
   (py "sub_type", JStr (py sub_type))].

Definition new_LunarStartListen : event :=
  new LunarStartListen (lunar_frame "start_listen").
Definition new_LunarStopListen : event :=
  new LunarStopListen (lunar_frame "stop_listen").

Definition set_message (e : event) (m : list segment) : event :=
  {| cls := cls e; raw_data := raw_data e; attrs := attrs e; message := m;
     is_command := is_command e; command := command e; args := args e;
     processed_text := processed_text e |}.

(** The part each segment contributes to [MessageEvent.get_text]. *)
Definition text_part (s : segment) : json :=
  match s with
  | TextSegment text => text
  | AtSegment qq => JStr (py "@" ++ qq)
  | ImageSegment _ _ _ _ => JStr [91; 22270; 29255; 93]%N
  | ReplySegment _ => JStr [91; 22238; 22797; 93]%N
  | other => JStr (py "[" ++ seg_type other ++ py "]")
  end.

(** [' '.join(text_parts)]: every part has to be a string. *)
Fixpoint str_parts (parts : list json) : result (list pystr) :=
  match parts with
  | [] => Ok []
  | JStr s :: rest => try! tail := str_parts rest in Ok (s :: tail)
  | _ :: _ => Raise TypeError
  end.

(** [MessageEvent.get_text] over the event's segment list. *)
Definition get_text_of (segments : list segment) : result pystr :=
  try! parts := str_parts (List.map text_part segments) in
  Ok (join (py " ") parts).

Definition get_text (e : event) : result pystr := get_text_of (message e).

(** [EventFactory.create_event]; [message_builder] is the optional decoder,
    a [MessageBuilder] over its runtime. *)
Definition create_event (data : dict) (message_builder : option runtime)
  : result event :=
  let post_type := get data (py "post_type") JNull in
  if is_str post_type (py "message") then
    let message_type := get data (py "message_type") JNull in
    let event :=
      if is_str message_type (py "private") then new PrivateMessageEvent data
      else if is_str message_type (py "group") then new GroupMessageEvent data
      else new MessageEvent data in
    match message_builder with
    | Some rt =>
        if isinstance event MessageEvent then
          try! m := gen_message rt (get data (py "message") (JArr [])) in
          Ok (set_message event m)
        else Ok event
    | None => Ok event
    end
  else if is_str post_type (py "notice") then
    let notice_type := get data (py "notice_type") JNull in
    let sub_type := get data (py "sub_type") JNull in
    Ok (if is_str notice_type (py "group_upload") then new GroupUploadNoticeEvent data
        else if is_str notice_type (py "group_admin") then new GroupAdminNoticeEvent data
        else if is_str notice_type (py "group_increase") then new GroupIncreaseNoticeEvent data
        else if is_str notice_type (py "group_decrease") then new GroupDecreaseNoticeEvent data
        else if is_str notice_type (py "group_ban") then new GroupBanNoticeEvent data
        else if is_str notice_type (py "friend_add") then new FriendAddNoticeEvent data
        else if is_str notice_type (py "group_recall") then new GroupRecallNoticeEvent data
        else if is_str notice_type (py "friend_recall") then new FriendRecallNoticeEvent data
        else if is_str notice_type (py "notify") && is_str sub_type (py "poke")
             then new GroupPokeNoticeEvent data
        else if is_str notice_type (py "notify") && is_str sub_type (py "honor")
             then new GroupHonorNoticeEvent data
        else new NoticeEvent data)
  else if is_str post_type (py "request") then
    let request_type := get data (py "request_type") JNull in
    Ok (if is_str request_type (py "friend") then new FriendRequestEvent data
        else if is_str request_type (py "group") then
          let sub_type := get data (py "sub_type") JNull in
          if is_str sub_type (py "add") then new GroupAddRequestEvent data
          else if is_str sub_type (py "invite") then new GroupInviteRequestEvent data
          else new RequestEvent data
        else new RequestEvent data)
  else if is_str post_type (py "meta_event") then
    let meta_event_type := get data (py "meta_event_type") JNull in
    Ok (if is_str meta_event_type (py "heartbeat") then new HeartbeatMetaEvent data
        else if is_str meta_event_type (py "lifecycle") then new LifecycleMetaEvent data
        else new MetaEvent data)
  else Ok (new Event data).

(** [EventFactory.create_event] on a decoded frame.  The listener queues
    whatever [json.loads] gave and [_handle_event] passes it on; the
    factory starts with [data.get('post_type')], and [get] is a method of
    dicts only. *)
Definition create_event_of_frame (frame : json)
  (message_builder : option runtime) : result event :=
  match frame with
  | JObj data => create_event data message_builder
  | _ => Raise AttributeError
  end.

End Events.

Export Events.

(* ===================================================================== *)
(** ** core/connection.py: the WebSocket session *)
(* ===================================================================== *)
Module Connection.

(** An [asyncio.Future]: pending, or completed in one of three ways. *)
Inductive future_state :=
| FPending
| FResult (data : json)
| FException (e : exn)
| FCancelled.

(** The futures of the event loop, addressed by reference.  A future is
    shared between the pending-request table and the [send] call that
    awaits it. *)
Abbreviation heap := (list future_state).

(** [future.done()] *)
Definition done (h : heap) (f : nat) : bool :=
  match h !! f with
  | Some FPending => false
  | _ => true
  end.

(** [loop.create_future()] *)
Definition create_future (h : heap) : nat * heap := (length h, h ++ [FPending]).

(** [future.cancel()]: completes a future that is not done. *)
Definition cancel (h : heap) (f : nat) : heap :=
  if done h f then h else <[f := FCancelled]> h.

(** [future.set_exception(e)] on a future that is not done. *)
Definition set_exception (h : heap) (f : nat) (e : exn) : heap :=
  <[f := FException e]> h.

(** The listener task: [None], or a task that is still running or done. *)
Inductive task := Running | Finished.

Record connection := mkConnection {
  ws_url : pystr;
  token : option pystr;
  max_retries : Z;
  websocket : bool;                       (* [self.websocket] is not None *)
  _pending_requests : gmap pystr nat;
  _request_timeout : Q;
  _listener_task : option task;
  _message_queue : list (option json);    (* [None] is the sentinel *)
  _is_closing : bool
}.

(** [WebSocketConnection.__init__], [None] taking the default of the
    keyword argument. *)
Definition init (ws_url : pystr) (token : option pystr)
  (max_retries : option Z) (request_timeout : option Q) : connection :=
  {| ws_url := ws_url; token := token;
     max_retries := default 5 max_retries;
     websocket := false;
     _pending_requests := ∅;
     _request_timeout := default (30 # 1) request_timeout;
     _listener_task := None;
     _message_queue := [];
     _is_closing := false |}.

Definition set_pending (c : connection) (p : gmap pystr nat) : connection :=
  {| ws_url := ws_url c; token := token c; max_retries := max_retries c;
     websocket := websocket c; _pending_requests := p;
     _request_timeout := _request_timeout c;
     _listener_task := _listener_task c;
     _message_queue := _message_queue c; _is_closing := _is_closing c |}.

Definition set_closing (c : connection) : connection :=
  {| ws_url := ws_url c; token := token c; max_retries := max_retries c;
     websocket := websocket c; _pending_requests := _pending_requests c;
     _request_timeout := _request_timeout c;
     _listener_task := _listener_task c;
     _message_queue := _message_queue c; _is_closing := true |}.

(** The state after a successful [websockets.connect]: the socket is set
    and a fresh listener task replaces the previous one. *)
Definition set_connected (c : connection) : connection :=
  {| ws_url := ws_url c; token := token c; max_retries := max_retries c;
     websocket := true; _pending_requests := _pending_requests c;
     _request_timeout := _request_timeout c;
     _listener_task := Some Running;
     _message_queue := _message_queue c; _is_closing := _is_closing c |}.

(** *** connect *)

(** How one call of [websockets.connect] ends: it returns a socket, it
    raises [ConnectionClosed] or another [Exception], or it is interrupted
    from the keyboard. *)
Inductive attempt := Accepted | Refused | Interrupted.

(** What [connect] meets: the outcome of its [k]-th call of
    [websockets.connect] (from 0), and whether another task ([close]) has
    set [_is_closing] by the time of the [k]-th pass of the loop. *)
Record network := {
  outcome : nat -> attempt;
  closing_set : nat -> bool
}.

Inductive action :=
| Attempt (k : nat)        (* the call of [websockets.connect] of pass [k] *)
| Sleep (seconds : Z).     (* [await asyncio.sleep(seconds)] *)

(** [min(2 ** retries, 60)] *)
Definition wait_time (retries : nat) : Z := Z.min (2 ^ Z.of_nat retries) 60.

(** The loop of [connect], from the pass that starts with [retries]
    failures behind it.  The result is [None] while the loop is still
    running when the fuel is used up (one unit per pass). *)
Fixpoint connect_loop (fuel : nat) (net : network) (is_reconnect : bool)
  (retries : nat) (c : connection) : option bool * list action * connection :=
  match fuel with
  | O => (None, [], c)
  | S fuel' =>
      (* while retries < max_attempts *)
      if negb (is_reconnect || (Z.of_nat retries <? max_retries c)) then
        (Some false, [], c)
      else if _is_closing c || closing_set net retries then
        (Some false, [], c)
      else
        match outcome net retries with
        | Accepted => (Some true, [Attempt retries], set_connected c)
        | Interrupted => (Some false, [Attempt retries], set_closing c)
        | Refused =>
            let retries' := S retries in
            if (Z.of_nat retries' <? max_retries c) || is_reconnect then
              let '(r, t, c') := connect_loop fuel' net is_reconnect retries' c in
              (r, Attempt retries :: Sleep (wait_time retries') :: t, c')
            else if negb is_reconnect then
              (Some false, [Attempt retries], c)
            else
              let '(r, t, c') := connect_loop fuel' net is_reconnect retries' c in
              (r, Attempt retries :: t, c')
        end
  end.

(** [WebSocketConnection.connect] *)
Definition connect (fuel : nat) (net : network) (c : connection)
  (is_reconnect : bool) : option bool * list action * connection :=
  connect_loop fuel net is_reconnect 0 c.

(** The calls of [websockets.connect] in a trace. *)
Definition attempts (t : list action) : nat :=
  length (List.filter (fun a => match a with Attempt _ => true | _ => false end) t).

(** The trace of [n] refused attempts, each followed by its wait. *)
Fixpoint schedule_from (k n : nat) : list action :=
  match n with
  | O => []
  | S n' => Attempt k :: Sleep (wait_time (S k)) :: schedule_from (S k) n'
  end.

(** *** send *)

(** [data['echo']] prepared and stamped with the request id. *)
Definition stamp (data : dict) (request_id : pystr) : dict :=
  let echo :=
    match get data (py "echo") (JObj []) with
    | JObj e => if contains data (py "echo") then e else []
    | _ => []
    end in
  let stamped := JObj (
    if contains echo (py "request_id")
    then List.map (fun kv => if PyStr.eqb (fst kv) (py "request_id")
                             then (fst kv, JStr request_id) else kv) echo
    else echo ++ [(py "request_id", JStr request_id)]) in
  if contains data (py "echo")
  then List.map (fun kv => if PyStr.eqb (fst kv) (py "echo")
                           then (fst kv, stamped) else kv) data
  else data ++ [(py "echo", stamped)].

(** [asyncio.wait_for(future, timeout)].  [completed] says when (seconds
    after the wait began, not positive when it was before) and how another
    task completed the future, if one did.  A completion before the
    deadline is delivered; otherwise the wait ends at the deadline, the
    future is cancelled and [asyncio.TimeoutError] is raised.  Returns the
    outcome, the heap and the time waited. *)
Definition wait_for (h : heap) (f : nat) (timeout : Q)
  (completed : option (Q * future_state)) : result json * heap * Q :=
  let timed_out := (Raise TimeoutError, cancel h f, timeout) in
  let delivered (s : future_state) (waited : Q) :=
    match s with
    | FResult d => (Ok d, <[f := s]> h, waited)
    | FException e => (Raise e, <[f := s]> h, waited)
    | FCancelled => (Raise CancelledError, <[f := s]> h, waited)
    | FPending => timed_out
    end in
  match completed with
  | Some (t, s) =>
      if Qle_bool t 0 then delivered s 0%Q
      else if Qle_bool timeout t then timed_out
      else delivered s t
  | None => timed_out
  end.

(** What happens while [send] is suspended: whether [json.dumps] or
    [websocket.send] raised, the completion of the awaited future, and what
    the other tasks made of the connection and of the other futures. *)
Record suspension := {
  xmit : option exn;
  completed : option (Q * future_state);
  others : connection * heap -> connection * heap
}.

(** The [except] clauses and the [finally] clause of [send], entered with
    the exception [e] (or none), for a call that registered
    [request_id] with future [f]. *)
Definition send_cleanup (c : connection) (h : heap) (request_id : pystr)
  (f : nat) (raised : option exn) : connection * heap :=
  let registered (c : connection) :=
    PyStr.truthy request_id && bool_decide (is_Some (_pending_requests c !! request_id)) in
  let '(c1, h1) :=
    match raised with
    | Some KeyboardInterrupt =>
        if registered c && negb (done h f) then (c, cancel h f) else (c, h)
    | Some e =>
        if is_Exception e && registered c && negb (done h f) then
          (* self._pending_requests.pop(request_id).set_exception(e) *)
          match _pending_requests c !! request_id with
          | Some g => (set_pending c (delete request_id (_pending_requests c)),
                       set_exception h g e)
          | None => (c, h)
          end
        else (c, h)
    | None => (c, h)
    end in
  (* finally *)
  if registered c1 && done h1 f
  then (set_pending c1 (delete request_id (_pending_requests c1)), h1)
  else (c1, h1).

(** The registration of a request awaiting its response: a fresh future
    entered in the table under [request_id]. *)
Definition register (c : connection) (h : heap) (request_id : pystr)
  : connection * heap :=
  let '(f, h0) := create_future h in
  (set_pending c (<[request_id := f]> (_pending_requests c)), h0).

(** [WebSocketConnection.send].  [request_id] is the value of
    [str(uuid.uuid4())].  Returns the value returned or the exception
    raised, the connection and the futures afterwards, the frame handed to
    the socket, and the time spent in [wait_for]. *)
Definition send (c : connection) (h : heap) (data : dict)
  (wait_for_response : bool) (request_id : pystr) (env : suspension)
  : result (option json) * connection * heap * option dict * Q :=
  if negb (websocket c) then
    (if wait_for_response then Raise ConnectionError else Ok None, c, h, None, 0%Q)
  else if wait_for_response then
    let f := length h in
    let frame := stamp data request_id in
    let '(c1, h1) := others env (register c h request_id) in
    match xmit env with
    | Some e =>
        let '(c2, h2) := send_cleanup c1 h1 request_id f (Some e) in
        (match e with KeyboardInterrupt => Ok None | _ => Raise e end,
         c2, h2, None, 0%Q)
    | None =>
        let '(r, h2, waited) := wait_for h1 f (_request_timeout c1) (completed env) in
        match r with
        | Ok d =>
            let '(c3, h3) := send_cleanup c1 h2 request_id f None in
            (Ok (Some d), c3, h3, Some frame, waited)
        | Raise e =>
            let '(c3, h3) := send_cleanup c1 h2 request_id f (Some e) in
            (match e with KeyboardInterrupt => Ok None | _ => Raise e end,
             c3, h3, Some frame, waited)
        end
    end
  else
    let '(c1, h1) := others env (c, h) in
    match xmit env with
    | Some KeyboardInterrupt => (Ok None, c1, h1, None, 0%Q)
    | Some e => (Raise e, c1, h1, None, 0%Q)
    | None => (Ok None, c1, h1, Some data, 0%Q)
    end.

(** What a call of [send] gave its caller, and the table it left. *)
Definition returned
  (o : result (option json) * connection * heap * option dict * Q)
  : result (option json) := o.1.1.1.1.
Definition pending_after
  (o : result (option json) * connection * heap * option dict * Q)
  : gmap pystr nat := _pending_requests o.1.1.1.2.

(** *** close *)

(** The loop of [close] over [list(self._pending_requests.items())]: each
    future that is not done is cancelled.  Returns the heap and the futures
    on which [cancel()] was called.  (The table is a finite map: the order
    in which its items are visited does not matter to the outcome.) *)
Fixpoint cancel_all (items : list (pystr * nat)) (h : heap) : heap * list nat :=
  match items with
  | [] => (h, [])
  | (_, f) :: rest =>
      if done h f then cancel_all rest h
      else let '(h', log) := cancel_all rest (<[f := FCancelled]> h) in
           (h', f :: log)
  end.

(** [WebSocketConnection.close].  Cancelling and awaiting a listener that
    still runs makes its [finally] clause empty the queue and post the
    sentinel, which [close] then does once more itself. *)
Definition close (c : connection) (h : heap) : connection * heap * list nat :=
  let '(h', cancelled) := cancel_all (map_to_list (_pending_requests c)) h in
  ({| ws_url := ws_url c; token := token c; max_retries := max_retries c;
      websocket := false;
      _pending_requests := ∅;
      _request_timeout := _request_timeout c;
      _listener_task := None;
      _message_queue := [None];
      _is_closing := true |}, h', cancelled).

(** The connection, the futures and the cancelled futures [close]
    leaves. *)
Definition closed (c : connection) (h : heap) : connection := (close c h).1.1.
Definition futures_after_close (c : connection) (h : heap) : heap := (close c h).1.2.
Definition cancelled_by_close (c : connection) (h : heap) : list nat := (close c h).2.

End Connection.

(* ===================================================================== *)
(** ** Insertion-ordered dictionaries keyed by strings *)
(* ===================================================================== *)
Module ODict.

Abbreviation t V := (list (pystr * V)).

Section Values.
Context {V : Type}.

(** [key in d] *)
Definition mem (d : t V) (key : pystr) : bool :=
  existsb (fun kv => PyStr.eqb (fst kv) key) d.

(** [d.get(key)] *)
Fixpoint find (d : t V) (key : pystr) : option V :=
  match d with
  | [] => None
  | (k, v) :: d' => if PyStr.eqb k key then Some v else find d' key
  end.

(** [d[key] = v]: an existing key keeps its position. *)
Fixpoint set (d : t V) (key : pystr) (v : V) : t V :=
  match d with
  | [] => [(key, v)]
  | (k, w) :: d' =>
      if PyStr.eqb k key then (k, v) :: d' else (k, w) :: set d' key v
  end.

(** [dict(items)] *)
Definition of_items (items : list (pystr * V)) : t V :=
  fold_left (fun d kv => set d (fst kv) (snd kv)) items [].

End Values.

End ODict.

(* ===================================================================== *)
(** ** core/plugin_manager.py: discovery, dispatch, enable and disable *)
(* ===================================================================== *)
Module PluginManager.

(** How the call of a plugin entry point ends: it returns a value, of
    which the dispatcher only tests the truth, or it raises.  What it
    raises need not be an [Exception]: a cancelled task raises
    [CancelledError], an interrupt [KeyboardInterrupt]. *)
Inductive handler_result := Returned (handled : bool) | Raised (e : exn).

(** An entry point receives the event object and may change it. *)
Definition handler := event -> handler_result * event.

(** The attributes of a plugin module the manager reads. *)
Record py_module := {
  TRIGGHT_KEYWORD : option pystr;
  PLT_ST : option Z;
  HELP_MESSAGE : option pystr;
  on_message : option handler;
  on_lunar_event : option handler
}.

(** What importing the source at a path gives: no module spec, an
    exception with its message, or the executed module. *)
Inductive import_result :=
| NoSpec
| ImportError (msg : pystr)
| Imported (m : py_module).

Inductive kind := File | Directory | Special.

(** One name of [os.listdir(self.plugins_dir)] with what lies behind it:
    its kind, its modification time (in integral units; [None] when
    [os.stat] fails), what importing the entry itself gives, and for a
    directory whether it holds a [setup.py] and what importing that
    gives. *)
Record entry := {
  name : pystr;
  kind_of : kind;
  st_mtime : option Z;
  source : import_result;
  setup_py : option import_result
}.

Abbreviation directory := (list entry).

Definition isfile (e : entry) : bool :=
  match kind_of e with File => true | _ => false end.
Definition isdir (e : entry) : bool :=
  match kind_of e with Directory => true | _ => false end.

(** [os.path.join(self.plugins_dir, item)] *)
Definition item_path (item : pystr) : pystr := py "plugins/" ++ item.

(** [item in os.listdir(self.plugins_dir)] *)
Definition in_listdir (fs : directory) (item : pystr) : bool :=
  existsb (fun e => PyStr.eqb (name e) item) fs.

(** The name holds no path separator. *)
Definition plain_name (item : pystr) : bool :=
  forallb (fun c => negb (c =? 47)%N) item.

(** [os.path.exists(os.path.join(self.plugins_dir, item))] for an [item]
    without a path separator.  Joined with the empty name or with [.]
    the path is the plugin directory itself, and with [..] the directory
    above it: those exist whatever the directory lists.  Any other name
    exists when the directory lists it, a listed name being taken to
    name something that exists. *)
Definition path_exists (fs : directory) (item : pystr) : bool :=
  PyStr.eqb item [] || PyStr.eqb item (py ".") || PyStr.eqb item (py "..")
  || in_listdir fs item.

Definition rename_entry (e : entry) (new_name : pystr) : entry :=
  {| name := new_name; kind_of := kind_of e; st_mtime := st_mtime e;
     source := source e; setup_py := setup_py e |}.

(** [os.rename] inside the plugin directory. *)
Definition rename (fs : directory) (old new : pystr) : directory :=
  List.map (fun e => if PyStr.eqb (name e) old then rename_entry e new else e) fs.

(** Names that start with an underscore. *)
Definition hidden (e : entry) : bool := startswith (name e) (py "_").

Inductive plugin_type := TFile | TDir.

Record plugin_info := {
  module : py_module;
  type : plugin_type;
  path : pystr;
  trigger : pystr;
  help : pystr;
  enabled : bool;
  priority : Z
}.

(** The diagnostics stored in [failed_plugins]. *)
Inductive failure :=
| NoModuleSpec
| MissingTrigger
| LoadError (msg : pystr).

Record manager := {
  plugins : ODict.t plugin_info;
  enabled_plugins : list pystr;
  failed_plugins : gmap pystr failure;
  file_timestamps : gmap pystr Z;
  monitoring_enabled : bool
}.

Definition with_registry (st : manager) (p : ODict.t plugin_info)
  (e : list pystr) (f : gmap pystr failure) : manager :=
  {| plugins := p; enabled_plugins := e; failed_plugins := f;
     file_timestamps := file_timestamps st;
     monitoring_enabled := monitoring_enabled st |}.

Definition with_timestamps (st : manager) (ts : gmap pystr Z) : manager :=
  {| plugins := plugins st; enabled_plugins := enabled_plugins st;
     failed_plugins := failed_plugins st; file_timestamps := ts;
     monitoring_enabled := monitoring_enabled st |}.

(** *** Discovery and load *)

(** An element of [plugin_candidates_to_load], with what its import will
    give. *)
Record candidate := {
  c_name : pystr;
  c_path : pystr;
  c_type : plugin_type;
  c_import : import_result
}.

(** The first loop of [load_plugins] on one directory entry. *)
Definition candidate_of (e : entry) : option candidate :=
  let item := name e in
  if endswith item (py ".py") && negb (startswith item (py "_")) then
    if startswith item (py "d_") then None
    else Some {| c_name := slice_to_neg 3 item; c_path := item_path item;
                 c_type := TFile; c_import := source e |}
  else if isdir e && negb (startswith item (py "_")) then
    if startswith item (py "d_") then None
    else match setup_py e with
         | Some s => Some {| c_name := item;
                             c_path := item_path item ++ py "/setup.py";
                             c_type := TDir; c_import := s |}
         | None => None
         end
  else None.

Definition candidates (fs : directory) : list candidate :=
  omap candidate_of fs.

(** The second loop of [load_plugins] on one candidate. *)
Definition load_one (st : manager) (c : candidate) : manager :=
  let fail why :=
    with_registry st (plugins st) (enabled_plugins st)
      (<[c_name c := why]> (failed_plugins st)) in
  match c_import c with
  | NoSpec => fail NoModuleSpec
  | ImportError msg => fail (LoadError msg)
  | Imported m =>
      match TRIGGHT_KEYWORD m with
      | None => fail MissingTrigger
      | Some trigger =>
          let plugin_info :=
            {| module := m; type := c_type c; path := c_path c;
               trigger := trigger; help := default [] (HELP_MESSAGE m);
               enabled := true; priority := default 999 (PLT_ST m) |} in
          with_registry st (ODict.set (plugins st) (c_name c) plugin_info)
            (enabled_plugins st ++ [c_name c]) (failed_plugins st)
      end
  end.

(** [sorted(items, key=priority)]: the stable sort by ascending key. *)
Fixpoint insert_by_priority (x : pystr * plugin_info)
  (l : list (pystr * plugin_info)) : list (pystr * plugin_info) :=
  match l with
  | [] => [x]
  | y :: l' =>
      if priority (snd x) <=? priority (snd y) then x :: l
      else y :: insert_by_priority x l'
  end.

Fixpoint sorted_by_priority (l : list (pystr * plugin_info))
  : list (pystr * plugin_info) :=
  match l with
  | [] => []
  | x :: l' => insert_by_priority x (sorted_by_priority l')
  end.

Definition _sort_plugins_by_priority (st : manager) : manager :=
  with_registry st (ODict.of_items (sorted_by_priority (plugins st)))
    (enabled_plugins st) (failed_plugins st).

(** [load_plugins] up to the sort: the registry in discovery order. *)
Definition discover (st : manager) (fs : directory) : manager :=
  fold_left load_one (candidates fs) (with_registry st [] [] ∅).

Definition load_plugins (st : manager) (fs : directory) : manager :=
  _sort_plugins_by_priority (discover st fs).

(** *** The file monitor *)

Definition watched (e : entry) : bool :=
  endswith (name e) (py ".py") && negb (startswith (name e) (py "_")) && isfile e.

Definition initialize_file_timestamps (st : manager) (fs : directory) : manager :=
  with_timestamps st
    (fold_left (fun ts e =>
                  if watched e then
                    match st_mtime e with
                    | Some t => <[item_path (name e) := t]> ts
                    | None => ts
                    end
                  else ts) fs ∅).

(** Whether an entry makes one pass of [monitor_plugin_files] ask for a
    reload. *)
Definition changed (st : manager) (e : entry) : bool :=
  watched e &&
  match st_mtime e, file_timestamps st !! item_path (name e) with
  | Some now, Some before => negb (now =? before)
  | _, _ => false
  end.

(** One pass of the loop of [monitor_plugin_files] after its sleep: the
    state afterwards and whether a reload was posted to the main loop. *)
Definition monitor_pass (st : manager) (fs : directory) (loop_running : bool)
  : manager * bool :=
  if existsb (changed st) fs
  then (initialize_file_timestamps st fs, loop_running)
  else (st, false).

(** *** Dispatch *)

Inductive entry_point := OnMessage | OnLunarEvent.

(** One call of a plugin entry point. *)
Record invocation := {
  i_plugin : pystr;
  i_entry : entry_point;
  i_result : handler_result
}.

Definition reports_handled (i : invocation) : bool :=
  match i_result i with Returned true => true | _ => false end.

(** What a call lets out of the loop body, whose only clause is
    [except Exception]. *)
Definition lets_out (i : invocation) : option exn :=
  match i_result i with
  | Raised e => if is_Exception e then None else Some e
  | Returned _ => None
  end.

Definition set_processed_text (e : event) (s : pystr) : event :=
  {| cls := cls e; raw_data := raw_data e; attrs := attrs e;
     message := message e; is_command := is_command e; command := command e;
     args := args e; processed_text := Some s |}.

(** The computation of [should_trigger] for one plugin; a match on the
    prefixed trigger rewrites [processed_text]. *)
Definition should_trigger (keyword : pystr) (trigger : pystr) (ev : event)
  : result (bool * event) :=
  if isinstance ev MessageEvent then
    if PyStr.eqb trigger (py "Any") then Ok (true, ev)
    else if is_command ev && bool_decide (command ev = Some trigger) then Ok (true, ev)
    else
      let full_trigger := keyword ++ trigger in
      try! text := get_text ev in
      if PyStr.truthy text && startswith text full_trigger
      then Ok (true, set_processed_text ev (strip (slice_from (length full_trigger) text)))
      else Ok (false, ev)
  else Ok (PyStr.eqb trigger (py "Any"), ev).

(** The entry point the loop body calls for one plugin on the event, if
    any, and the event as the matching left it. *)
Definition selected (keyword : pystr) (p : plugin_info) (ev : event)
  : option (entry_point * handler) * event :=
  if isinstance ev LunarStartListen || isinstance ev LunarStopListen then
    (option_map (fun h => (OnLunarEvent, h)) (on_lunar_event (module p)), ev)
  else
    match should_trigger keyword (trigger p) ev with
    | Raise _ => (None, ev)
    | Ok (false, ev') => (None, ev')
    | Ok (true, ev') =>
        (option_map (fun h => (OnMessage, h)) (on_message (module p)), ev')
    end.

(** The loop of [handle_event] over [self.plugins.items()]: whether a
    handler reported "handled", the calls made in order, and the event
    afterwards.  The body of the loop is a [try] whose only clause is
    [except Exception]: what a handler raises is logged and passed over
    when it is an [Exception], and leaves the loop and the method
    otherwise. *)
Fixpoint walk (keyword : pystr) (registry : ODict.t plugin_info) (ev : event)
  : result bool * list invocation * event :=
  match registry with
  | [] => (Ok false, [], ev)
  | (name, p) :: rest =>
      match selected keyword p ev with
      | (None, ev1) => walk keyword rest ev1
      | (Some (ep, h), ev1) =>
          let '(r, ev2) := h ev1 in
          let i := {| i_plugin := name; i_entry := ep; i_result := r |} in
          let next := let '(b, t, ev3) := walk keyword rest ev2 in (b, i :: t, ev3) in
          match r with
          | Returned true => (Ok true, [i], ev2)
          | Returned false => next
          | Raised e => if is_Exception e then next else (Raise e, [i], ev2)
          end
      end
  end.

(** [lunar.config.get('trigger_keyword', '/')] *)
Definition keyword_of (trigger_keyword : option pystr) : pystr :=
  default (py "/") trigger_keyword.

(** [PluginManager.handle_event].  The debug lines before the loop read
    [event.get_text()] of a Message event outside the [try]. *)
Definition handle_event (st : manager) (trigger_keyword : option pystr)
  (ev : event) : result bool * list invocation * event :=
  let go := walk (keyword_of trigger_keyword) (plugins st) ev in
  if isinstance ev MessageEvent then
    match get_text ev with
    | Raise e => (Raise e, [], ev)
    | Ok _ => go
    end
  else go.

(** *** Reload, enable, disable *)

(** What an operation did besides changing the manager: the renames on
    disk and the calls of [reload_plugins]. *)
Inductive effect :=
| Renamed (old new : pystr)
| Reloaded.

(** [reload_plugins]: returns [True]. *)
Definition reload_plugins (st : manager) (fs : directory) : manager :=
  initialize_file_timestamps (load_plugins (with_registry st [] [] ∅) fs) fs.

(** [PluginManager.enable_plugin]; [rename_ok] says whether [os.rename]
    succeeds when it is reached. *)
Definition enable_plugin (st : manager) (fs : directory) (plugin_name : pystr)
  (rename_ok : bool) : bool * manager * directory * list effect :=
  let enabled_py := plugin_name ++ py ".py" in
  let enabled_dir := plugin_name in
  if path_exists fs enabled_py || path_exists fs enabled_dir then
    if ODict.mem (plugins st) plugin_name then (true, st, fs, [])
    else
      (* the two remaining branches reload and report the same test *)
      let st' := reload_plugins st fs in
      (ODict.mem (plugins st') plugin_name, st', fs, [Reloaded])
  else
    let disabled_py := py "d_" ++ plugin_name ++ py ".py" in
    let disabled_dir := py "d_" ++ plugin_name in
    let found :=
      if path_exists fs disabled_py then Some (disabled_py, enabled_py)
      else if path_exists fs disabled_dir then Some (disabled_dir, enabled_dir)
      else None in
    match found with
    | None => (false, st, fs, [])
    | Some (found_path, new_path) =>
        if rename_ok then
          let fs' := rename fs found_path new_path in
          (true, reload_plugins st fs', fs', [Renamed found_path new_path; Reloaded])
        else (false, st, fs, [])
    end.

(** [PluginManager.disable_plugin] *)
Definition disable_plugin (st : manager) (fs : directory) (plugin_name : pystr)
  (rename_ok : bool) : bool * manager * directory * list effect :=
  let disabled_py := py "d_" ++ plugin_name ++ py ".py" in
  let disabled_dir := py "d_" ++ plugin_name in
  if path_exists fs disabled_py || path_exists fs disabled_dir then
    (true, reload_plugins st fs, fs, [Reloaded])
  else
    let enabled_py := plugin_name ++ py ".py" in
    let enabled_dir := plugin_name in
    let found :=
      if path_exists fs enabled_py then Some (enabled_py, disabled_py)
      else if path_exists fs enabled_dir then Some (enabled_dir, disabled_dir)
      else None in
    match found with
    | None => (false, st, fs, [])
    | Some (found_path, new_path) =>
        if rename_ok then
          let fs' := rename fs found_path new_path in
          (true, reload_plugins st fs', fs', [Renamed found_path new_path; Reloaded])
        else (false, st, fs, [])
    end.

(** *** The listing *)

(** The values of the two dicts [get_plugin_list] returns. *)
Inductive listing :=
| Loaded (type : plugin_type) (trigger help : pystr) (priority : Z)
| LoadFailed (error : failure)
| NotLoaded
| Disabled.

Record plugin_list := {
  enabled_on_disk : ODict.t listing;
  disabled_on_disk : ODict.t listing
}.

(** The name [get_plugin_list] derives from one directory entry and
    whether the entry is enabled on disk. *)
Definition listed_name (e : entry) : option (pystr * bool) :=
  let item := name e in
  let named (n : pystr) (on : bool) :=
    if PyStr.truthy n then Some (n, on) else None in
  if endswith item (py ".py") && negb (startswith item (py "_")) then
    if startswith item (py "d_")
    then named (slice_from 2 (slice_to_neg 3 item)) false
    else named (slice_to_neg 3 item) true
  else if isdir e && negb (startswith item (py "_")) then
    match setup_py e with
    | None => None
    | Some _ =>
        if startswith item (py "d_")
        then named (slice_from 2 item) false
        else named item true
    end
  else None.

Definition list_entry (st : manager) (acc : plugin_list) (e : entry) : plugin_list :=
  match listed_name e with
  | None => acc
  | Some (n, true) =>
      let info :=
        match ODict.find (plugins st) n with
        | Some p => Loaded (type p) (trigger p) (help p) (priority p)
        | None =>
            match failed_plugins st !! n with
            | Some why => LoadFailed why
            | None => NotLoaded
            end
        end in
      {| enabled_on_disk := ODict.set (enabled_on_disk acc) n info;
         disabled_on_disk := disabled_on_disk acc |}
  | Some (n, false) =>
      {| enabled_on_disk := enabled_on_disk acc;
         disabled_on_disk := ODict.set (disabled_on_disk acc) n Disabled |}
  end.

Definition get_plugin_list (st : manager) (fs : directory) : plugin_list :=
  fold_left (list_entry st) fs {| enabled_on_disk := []; disabled_on_disk := [] |}.

(** [PluginManager.__init__] over an existing plugin directory. *)
Definition init (fs : directory) : manager :=
  initialize_file_timestamps
    {| plugins := []; enabled_plugins := []; failed_plugins := ∅;
       file_timestamps := ∅; monitoring_enabled := false |} fs.

End PluginManager.

(* ===================================================================== *)
(** ** core/bot.py: command extraction for Message events *)
(* ===================================================================== *)
Module Bot.
Import PluginManager.

(** The command fields [_handle_message_event] writes into the event from
    its text and the configured trigger prefix. *)
Definition extract_command (trigger_keyword : pystr) (message_text : pystr)
  (ev : event) : event :=
  if PyStr.truthy message_text && startswith message_text trigger_keyword then
    let command_full := strip (slice_from (length trigger_keyword) message_text) in
    let parts := split_space_1 command_full in
    let cmd := fst parts in
    let args := match snd parts with Some rest => rest | None => [] end in
    {| cls := cls ev; raw_data := raw_data ev; attrs := attrs ev;
       message := message ev; is_command := true; command := Some cmd;
       args := Some args; processed_text := Some args |}
  else
    {| cls := cls ev; raw_data := raw_data ev; attrs := attrs ev;
       message := message ev; is_command := is_command ev;
       command := command ev; args := args ev;
       processed_text := Some message_text |}.

(** [try: ... except Exception as e: logger.error(...)] around a
    computation that ends as [r]: an [Exception] is logged, anything else
    raised passes through. *)
Definition except_Exception {A : Type} (r : result A) : result unit :=
  match r with
  | Ok _ => Ok tt
  | Raise e => if is_Exception e then Ok tt else Raise e
  end.

(** [LunarBot._handle_plugin_event]: the dispatch inside
    [try: ... except Exception].  What the method itself lets out, the
    calls made and the event afterwards. *)
Definition _handle_plugin_event (st : manager) (trigger_keyword : option pystr)
  (ev : event) : result unit * list invocation * event :=
  let '(r, calls, ev') := handle_event st trigger_keyword ev in
  (except_Exception r, calls, ev').

(** How [_handle_message_event] ends: a native command reported
    "handled", or the event went to the plugins, where the dispatch ended
    as [r] after the calls [calls]. *)
Inductive handled_by :=
| Native
| Plugins (r : result bool) (calls : list invocation).

(** [LunarBot._handle_message_event].  [native_commands] maps a command
    to the truth of what its native handler returns. *)
Definition _handle_message_event (st : manager) (trigger_keyword : option pystr)
  (native_commands : pystr -> option (pystr -> event -> bool)) (ev : event)
  : result (handled_by * event) :=
  let keyword := keyword_of trigger_keyword in
  try! message_text := get_text ev in
  let ev1 := extract_command keyword message_text ev in
  let to_plugins :=
    let '(r, calls, ev2) := handle_event st trigger_keyword ev1 in
    try! _ := except_Exception r in
    Ok (Plugins r calls, ev2) in
  if PyStr.truthy message_text && startswith message_text keyword then
    match native_commands (default [] (command ev1)) with
    | Some native =>
        if native (default [] (args ev1)) ev1 then Ok (Native, ev1) else to_plugins
    | None => to_plugins
    end
  else to_plugins.

End Bot.

(* ===================================================================== *)
(** * Properties *)
(* ===================================================================== *)

(** ** Strings *)
Section StringFacts.

Lemma eqb_eq (a b : pystr) : PyStr.eqb a b = true <-> a = b.
Proof. unfold PyStr.eqb. apply bool_decide_eq_true. Qed.

Lemma eqb_refl (a : pystr) : PyStr.eqb a a = true.
Proof. by apply eqb_eq. Qed.

Lemma startswith_app (p s : pystr) : startswith (p ++ s) p = true.
Proof. induction p as [|c p IH]; simpl; [done|]. by rewrite N.eqb_refl. Qed.

Lemma startswith_prefix (s p : pystr) :
  startswith s p = true <-> exists rest, s = p ++ rest.
Proof.
  split.
  - revert s. induction p as [|c p IH]; intros s H; simpl in *.
    + by exists s.
    + destruct s as [|d s]; [done|].
      apply andb_true_iff in H as [Hc Hs]. apply N.eqb_eq in Hc as ->.
      destruct (IH _ Hs) as [rest ->]. by exists rest.
  - intros [rest ->]. apply startswith_app.
Qed.

(** [str.split(" ", 1)] cuts at the first space and nowhere else. *)
Lemma split_space_1_spec (s : pystr) :
  match split_space_1 s with
  | (a, Some b) => s = a ++ 32%N :: b /\ 32%N ∉ a
  | (a, None) => s = a /\ 32%N ∉ s
  end.
Proof.
  induction s as [|c s IH]; simpl.
  - split; [done|]. apply not_elem_of_nil.
  - destruct (N.eqb_spec c 32) as [->|Hc].
    + split; [done|]. apply not_elem_of_nil.
    + destruct (split_space_1 s) as [a [b|]]; destruct IH as [-> Hn].
      * split; [done|]. by apply not_elem_of_cons.
      * split; [done|]. by apply not_elem_of_cons.
Qed.

End StringFacts.

(** ** Derived text of a Message event (C9) *)
Section DerivedText.

(** The derived text in the specification's words: the contents of the
    text segments concatenated, each other segment replaced by the
    placeholder of its kind. *)
Definition spec_concat_text (placeholder : pystr -> pystr)
  (segments : list segment) : pystr :=
  concat (List.map (fun s => match s with
                             | TextSegment (JStr t) => t
                             | other => placeholder (seg_type other)
                             end) segments).

(** What each segment contributes to the text the code derives. *)
Definition rendered (s : segment) : pystr :=
  match s with
  | TextSegment (JStr t) => t
  | TextSegment _ => []
  | AtSegment qq => py "@" ++ qq
  | ImageSegment _ _ _ _ => [91; 22270; 29255; 93]%N
  | ReplySegment _ => [91; 22238; 22797; 93]%N
  | FaceSegment _ => py "[face]"
  | RecordSegment _ _ _ _ _ => py "[record]"
  | ForwardNodeSegment _ => py "[node]"
  | ForwardSegment _ => py "[forward]"
  | BaseSegment t _ => py "[" ++ t ++ py "]"
  end.

(** A text segment whose content is a string, as its annotation says. *)
Definition text_is_str (s : segment) : Prop :=
  match s with
  | TextSegment (JStr _) => True
  | TextSegment _ => False
  | _ => True
  end.

Lemma text_part_rendered (s : segment) :
  text_is_str s -> text_part s = JStr (rendered s).
Proof. destruct s as [[]| | | | | | | |]; simpl; intros H; try done. Qed.

Lemma str_parts_rendered (segments : list segment) :
  Forall text_is_str segments ->
  str_parts (List.map text_part segments) = Ok (List.map rendered segments).
Proof.
  induction 1 as [|s l Hs Hl IH]; simpl; [done|].
  rewrite (text_part_rendered s Hs), IH. done.
Qed.

(** C9 (amended): the derived text is the single-space join of the parts
    the segments contribute: a text segment its content, an image segment
    the token [[图片]], a reply segment the token [[回复]], an at segment
    ["@"] followed by its target, any other segment its type name in
    square brackets. *)
Theorem get_text_joins_rendered_parts (ev : event) :
  Forall text_is_str (message ev) ->
  get_text ev = Ok (join (py " ") (List.map rendered (message ev))).
Proof.
  intros H. unfold get_text, get_text_of.
  rewrite (str_parts_rendered _ H). reflexivity.
Qed.

Definition two_words : list segment :=
  [TextSegment (JStr (py "a")); ImageSegment (py "/x.png") JNull JNull JNull;
   TextSegment (JStr (py "b"))].

Lemma get_text_joins_rendered_parts_witness :
  Forall text_is_str (message (set_message (new MessageEvent []) two_words)) /\
  get_text (set_message (new MessageEvent []) two_words)
  = Ok (py "a " ++ [91; 22270; 29255; 93]%N ++ py " b").
Proof.
  split.
  - repeat constructor.
  - apply (get_text_joins_rendered_parts (set_message (new MessageEvent []) two_words)).
    repeat constructor.
Defined.

(** C9 as stated fails: two text segments are not concatenated but joined
    by a space, an at segment renders its target rather than a fixed
    token, and a text segment the decoder filled with a number makes the
    join raise. *)
Lemma get_text_is_not_concatenation :
  get_text_of [TextSegment (JStr (py "a")); TextSegment (JStr (py "b"))]
  <> Ok (spec_concat_text (fun _ => []) [TextSegment (JStr (py "a")); TextSegment (JStr (py "b"))])
  /\ get_text_of [AtSegment (py "1")] <> get_text_of [AtSegment (py "2")]
  /\ get_text_of [TextSegment (JNum 5)] = Raise TypeError.
Proof. repeat split; vm_compute; (discriminate || reflexivity). Qed.

End DerivedText.

(** ** A runtime for the examples *)

(** POSIX paths under the working directory [/bot]; [str()] of a scalar.
    Of a list or a dict, whose [repr] is not modelled, it gives a fixed
    token. *)
Definition sample_runtime : runtime :=
  {| py_str := fun v =>
       match v with
       | JStr s => s
       | JNull => py "None"
       | JBool true => py "True"
       | JBool false => py "False"
       | JNum n => py (NilZero.string_of_int (Z.to_int n))
       | JArr _ => py "[...]"
       | JObj _ => py "{...}"
       end;
     isabs := fun f => startswith f (py "/");
     abspath := fun f => py "/bot/" ++ f |}.

(** ** Fresh events *)
Section FreshEvents.

(** Every event the factory returns is a freshly built object of some
    class, with at most its segments decoded. *)
Lemma create_event_shape (data : dict) (mb : option runtime) (ev : event) :
  create_event data mb = Ok ev ->
  exists c m, ev = set_message (new c data) m.
Proof.
  unfold create_event. intros H.
  repeat match type of H with
         | context [if ?b then _ else _] => destruct b
         | context [match ?o with Some _ => _ | None => _ end] => destruct o
         | context [bind ?r _] => destruct r; simpl in H
         end;
    try discriminate; injection H as <-;
    first [ by eexists _, _ | by eexists _, [] ].
Qed.

Lemma create_event_no_command (data : dict) (mb : option runtime) (ev : event) :
  create_event data mb = Ok ev ->
  is_command ev = false /\ command ev = None /\ args ev = None.
Proof. intros H. apply create_event_shape in H as (c & m & ->). done. Qed.

End FreshEvents.

(** ** Command extraction (C8) *)
Section CommandExtraction.
Import PluginManager Bot.

(** The split in the specification's words: at the first whitespace
    character. *)
Fixpoint spec_split_whitespace (s : pystr) : pystr * pystr :=
  match s with
  | [] => ([], [])
  | c :: s' =>
      if isspace c then ([], s')
      else let '(a, b) := spec_split_whitespace s' in (c :: a, b)
  end.

(** Command extraction in the specification's words: the remainder after
    the prefix, split at the first whitespace. *)
Definition spec_extract (keyword text : pystr) : option (pystr * pystr) :=
  if startswith text keyword
  then Some (spec_split_whitespace (slice_from (length keyword) text))
  else None.

(** The command and the argument remainder the code left in an event. *)
Definition extracted (ev : event) : option (pystr * pystr) :=
  if is_command ev then Some (default [] (command ev), default [] (args ev))
  else None.

(** C8 (amended): when the derived text is non-empty and starts with the
    trigger prefix, the remainder after the prefix is stripped of
    surrounding whitespace and cut at its first space character (U+0020)
    into command and argument remainder, the latter empty when there is
    no space; otherwise no command is extracted and the whole text is the
    processed remainder. *)
Theorem command_extraction (data : dict) (mb : option runtime)
  (keyword text : pystr) (ev : event) :
  create_event data mb = Ok ev ->
  get_text ev = Ok text ->
  let ev' := extract_command keyword text ev in
  if PyStr.truthy text && startswith text keyword then
    let rest := strip (slice_from (length keyword) text) in
    exists cmd remainder,
      is_command ev' = true /\ command ev' = Some cmd /\
      args ev' = Some remainder /\ processed_text ev' = Some remainder /\
      (32%N ∉ cmd) /\
      (rest = cmd ++ 32%N :: remainder \/ (rest = cmd /\ remainder = []))
  else
    is_command ev' = false /\ command ev' = None /\
    processed_text ev' = Some text.
Proof.
  intros Hnew _ ev'. subst ev'. unfold extract_command.
  destruct (PyStr.truthy text && startswith text keyword); simpl.
  - pose proof (split_space_1_spec (strip (slice_from (length keyword) text))) as Hs.
    destruct (split_space_1 _) as [cmd [b|]]; simpl.
    + destruct Hs as [Hs Hn]. exists cmd, b. repeat split; auto.
    + destruct Hs as [Hs Hn]. exists cmd, []. repeat split; auto.
      by rewrite <- Hs.
  - destruct (create_event_no_command _ _ _ Hnew) as (-> & -> & _). done.
Qed.

Definition ping_frame : dict :=
  [(py "post_type", JStr (py "message"));
   (py "message_type", JStr (py "group"));
   (py "message", JArr [JObj [(py "type", JStr (py "text"));
                              (py "data", JObj [(py "text", JStr (py "/ping  now"))])]])].

Definition ping_event : event :=
  set_message (new GroupMessageEvent ping_frame)
    [TextSegment (JStr (py "/ping  now"))].

Lemma command_extraction_witness :
  create_event ping_frame (Some sample_runtime) = Ok ping_event /\
  get_text ping_event = Ok (py "/ping  now") /\
  exists cmd remainder,
    is_command (extract_command (py "/") (py "/ping  now") ping_event) = true /\
    command (extract_command (py "/") (py "/ping  now") ping_event) = Some cmd /\
    args (extract_command (py "/") (py "/ping  now") ping_event) = Some remainder /\
    processed_text (extract_command (py "/") (py "/ping  now") ping_event)
    = Some remainder /\
    (32%N ∉ cmd) /\
    (py "ping  now" = cmd ++ 32%N :: remainder \/
     (py "ping  now" = cmd /\ remainder = [])).
Proof.
  split; [reflexivity|]. split; [reflexivity|].
  exact (command_extraction ping_frame (Some sample_runtime) (py "/")
           (py "/ping  now") ping_event eq_refl eq_refl).
Defined.

(** C8 as stated fails: a tab is whitespace but does not end the command,
    whitespace right after the prefix is dropped rather than yielding an
    empty command, and an empty text under an empty prefix yields no
    command. *)
Lemma extraction_is_not_whitespace_split :
  extracted (extract_command (py "/") (py "/a" ++ [9%N] ++ py "b") (new MessageEvent []))
  <> spec_extract (py "/") (py "/a" ++ [9%N] ++ py "b")
  /\ extracted (extract_command (py "/") (py "/ a b") (new MessageEvent []))
     <> spec_extract (py "/") (py "/ a b")
  /\ extracted (extract_command [] [] (new MessageEvent [])) <> spec_extract [] [].
Proof. repeat split; vm_compute; discriminate. Qed.

(** The native-command branch of [_handle_message_event] sees the event
    exactly as the extraction left it. *)
Lemma handle_message_event_extracts st kw native ev text handler :
  get_text ev = Ok text ->
  PyStr.truthy text && startswith text (keyword_of kw) = true ->
  native (default [] (command (extract_command (keyword_of kw) text ev))) = Some handler ->
  handler (default [] (args (extract_command (keyword_of kw) text ev)))
          (extract_command (keyword_of kw) text ev) = true ->
  _handle_message_event st kw native ev
  = Ok (Native, extract_command (keyword_of kw) text ev).
Proof.
  intros Ht Hp Hn Hh. unfold _handle_message_event.
  rewrite Ht; simpl. by rewrite Hp, Hn, Hh.
Qed.

End CommandExtraction.

(** ** Event classification (C7) *)
Section Classification.

(** The string a tag field holds, if it holds one. *)
Definition as_tag (v : json) : option pystr :=
  match v with JStr s => Some s | _ => None end.

Definition tag (data : dict) (key : string) : option pystr :=
  as_tag (get data (py key) JNull).

(** A tag looked up in a table of recognised tags. *)
Fixpoint lookup_tag {A} (table : list (string * A)) (t : pystr) : option A :=
  match table with
  | [] => None
  | (k, a) :: rest => if PyStr.eqb t (py k) then Some a else lookup_tag rest t
  end.

(** First level: the recognised categories, each with its generic class. *)
Definition category (data : dict) : option event_class :=
  tag data "post_type" ≫=
    lookup_tag [("message", MessageEvent); ("notice", NoticeEvent);
                ("request", RequestEvent); ("meta_event", MetaEvent)]%string.

(** Second level: the recognised subtypes of a category. *)
Definition subtype (generic : event_class) (data : dict) : option event_class :=
  match generic with
  | MessageEvent =>
      tag data "message_type" ≫=
        lookup_tag [("private", PrivateMessageEvent);
                    ("group", GroupMessageEvent)]%string
  | NoticeEvent =>
      tag data "notice_type" ≫= fun t =>
        match lookup_tag [("group_upload", GroupUploadNoticeEvent);
                          ("group_admin", GroupAdminNoticeEvent);
                          ("group_increase", GroupIncreaseNoticeEvent);
                          ("group_decrease", GroupDecreaseNoticeEvent);
                          ("group_ban", GroupBanNoticeEvent);
                          ("friend_add", FriendAddNoticeEvent);
                          ("group_recall", GroupRecallNoticeEvent);
                          ("friend_recall", FriendRecallNoticeEvent)]%string t with
        | Some c => Some c
        | None =>
            if PyStr.eqb t (py "notify") then
              tag data "sub_type" ≫=
                lookup_tag [("poke", GroupPokeNoticeEvent);
                            ("honor", GroupHonorNoticeEvent)]%string
            else None
        end
  | RequestEvent =>
      tag data "request_type" ≫= fun t =>
        if PyStr.eqb t (py "friend") then Some FriendRequestEvent
        else if PyStr.eqb t (py "group") then
          tag data "sub_type" ≫=
            lookup_tag [("add", GroupAddRequestEvent);
                        ("invite", GroupInviteRequestEvent)]%string
        else None
  | MetaEvent =>
      tag data "meta_event_type" ≫=
        lookup_tag [("heartbeat", HeartbeatMetaEvent);
                    ("lifecycle", LifecycleMetaEvent)]%string
  | _ => None
  end.

(** The class the two-level lookup assigns to a frame. *)
Definition spec_class (data : dict) : event_class :=
  match category data with
  | None => Event
  | Some generic => default generic (subtype generic data)
  end.

Lemma is_str_as_tag (v : json) (k : pystr) :
  is_str v k = match as_tag v with Some s => PyStr.eqb s k | None => false end.
Proof. by destruct v. Qed.

Ltac split_tags :=
  repeat match goal with
         | |- context [as_tag ?v] => destruct (as_tag v); simpl
         | |- context [PyStr.eqb ?s ?k] => destruct (PyStr.eqb s k); simpl
         end.

(** Without a decoder the factory returns an event of the class the
    lookup assigns. *)
Lemma create_event_class_no_builder (data : dict) :
  create_event data None = Ok (new (spec_class data) data).
Proof.
  unfold create_event, spec_class, category, subtype, tag.
  rewrite !is_str_as_tag. simpl. split_tags; reflexivity.
Qed.

(** Outside the message category the decoder plays no part. *)
Lemma create_event_ignores_builder (data : dict) (rt : runtime) :
  category data <> Some MessageEvent ->
  create_event data (Some rt) = create_event data None.
Proof.
  unfold create_event, category, tag. rewrite !is_str_as_tag. simpl.
  destruct (as_tag _) as [s|]; simpl; [|done].
  destruct (PyStr.eqb s (py "message")); [|done]. by intros [].
Qed.

(** For a message frame the decoder runs on the frame's [message] field. *)
Lemma create_event_message (data : dict) (rt : runtime) :
  category data = Some MessageEvent ->
  create_event data (Some rt)
  = bind (gen_message rt (get data (py "message") (JArr [])))
         (fun m => Ok (set_message (new (spec_class data) data) m)).
Proof.
  unfold create_event, spec_class, category, subtype, tag.
  rewrite !is_str_as_tag. simpl.
  destruct (as_tag (get data (py "post_type") JNull)) as [s|]; simpl; [|done].
  destruct (PyStr.eqb s (py "message")); simpl.
  - intros _. destruct (as_tag (get data (py "message_type") JNull)) as [t|]; simpl;
      [destruct (PyStr.eqb t (py "private")); simpl;
       [|destruct (PyStr.eqb t (py "group")); simpl]|];
      by destruct (gen_message rt _).
  - repeat (destruct (PyStr.eqb s _); simpl; try done).
Qed.

(** C7 (amended): for a frame that is a JSON object the class of the
    event is chosen by a two-level tag lookup, an unrecognised subtype
    under a recognised category giving the category's generic class and an
    unrecognised category the base class.  On such a frame the factory
    never fails when the category is notice, request or meta or is not
    recognised, nor without a decoder; on a message frame it fails exactly
    when the segment decoder rejects the frame's [message] field.  On a
    decoded frame that is not a JSON object the factory raises
    [AttributeError]. *)
Theorem classification_two_level (frame : json) (mb : option runtime) :
  match frame with
  | JObj data =>
      match create_event_of_frame frame mb with
      | Ok ev =>
          cls ev = spec_class data /\ raw_data ev = data /\
          (category data = None -> cls ev = Event) /\
          (forall generic, category data = Some generic ->
                           subtype generic data = None -> cls ev = generic)
      | Raise e =>
          category data = Some MessageEvent /\
          exists rt, mb = Some rt /\
                     gen_message rt (get data (py "message") (JArr [])) = Raise e
      end /\
      (forall rt e,
          category data = Some MessageEvent ->
          gen_message rt (get data (py "message") (JArr [])) = Raise e ->
          create_event_of_frame frame (Some rt) = Raise e)
  | _ => create_event_of_frame frame mb = Raise AttributeError
  end.
Proof.
  destruct frame as [| | | | |data]; try reflexivity.
  cbn [create_event_of_frame].
  split; [|by intros rt e Hm He; rewrite (create_event_message _ _ Hm), He].
  assert (Hcls : forall m, let ev := set_message (new (spec_class data) data) m in
            cls ev = spec_class data /\ raw_data ev = data /\
            (category data = None -> cls ev = Event) /\
            (forall generic, category data = Some generic ->
                             subtype generic data = None -> cls ev = generic)).
  { intros m; simpl. unfold spec_class. repeat split.
    - by intros ->.
    - by intros g -> ->. }
  destruct mb as [rt|].
  - destruct (decide (category data = Some MessageEvent)) as [Hm|Hm].
    + rewrite (create_event_message _ _ Hm).
      destruct (gen_message rt _) as [m|e] eqn:Hg; simpl; [apply (Hcls m)|].
      split; [done|]. by exists rt.
    + rewrite (create_event_ignores_builder _ _ Hm), create_event_class_no_builder.
      apply (Hcls []).
  - rewrite create_event_class_no_builder. apply (Hcls []).
Qed.

(** A notice of a kind the factory does not know, and an unknown
    category. *)
Definition unknown_notice : dict :=
  [(py "post_type", JStr (py "notice")); (py "notice_type", JStr (py "group_card"))].

Lemma classification_two_level_witness :
  (exists ev,
      create_event_of_frame (JObj unknown_notice) (Some sample_runtime) = Ok ev /\
      cls ev = NoticeEvent) /\
  create_event_of_frame (JArr [JObj unknown_notice]) (Some sample_runtime)
  = Raise AttributeError.
Proof.
  split.
  - pose proof (proj1 (classification_two_level (JObj unknown_notice)
                         (Some sample_runtime))) as H.
    change (create_event_of_frame (JObj unknown_notice) (Some sample_runtime))
      with (Ok (new NoticeEvent unknown_notice)) in H.
    destruct H as (_ & _ & _ & H).
    exists (new NoticeEvent unknown_notice). split; [reflexivity|].
    exact (H NoticeEvent eq_refl eq_refl).
  - exact (classification_two_level (JArr [JObj unknown_notice])
             (Some sample_runtime)).
Defined.

Example unknown_category_gives_base_event :
  create_event [(py "post_type", JStr (py "guild")); (py "x", JNum 1)] (Some sample_runtime)
  = Ok (new Event [(py "post_type", JStr (py "guild")); (py "x", JNum 1)]).
Proof. reflexivity. Qed.

Example group_message_is_decoded :
  create_event ping_frame (Some sample_runtime) = Ok ping_event.
Proof. reflexivity. Qed.

(** C7 as stated fails: a message frame whose [message] field is a string
    makes the factory raise instead of returning the generic Message
    event. *)
Lemma classification_can_fail :
  category [(py "post_type", JStr (py "message")); (py "message", JStr (py "hi"))]
  = Some MessageEvent
  /\ create_event [(py "post_type", JStr (py "message")); (py "message", JStr (py "hi"))]
       (Some sample_runtime) = Raise ValueError.
Proof. split; reflexivity. Qed.

(** Nor is a decoded frame always an object: the factory raises on a
    frame that is a list. *)
Example list_frame_is_not_classified :
  create_event_of_frame (JArr [JNum 1]) (Some sample_runtime)
  = Raise AttributeError.
Proof. reflexivity. Qed.

End Classification.

(** ** Connection establishment (C4) *)
Section Connect.
Import Connection.

Lemma retries_left (r : nat) (M : Z) :
  (Z.of_nat r <? M) = true <-> (r < Z.to_nat M)%nat.
Proof. rewrite Z.ltb_lt. lia. Qed.

Lemma retries_exhausted (r : nat) (M : Z) :
  (Z.of_nat r <? M) = false <-> (Z.to_nat M <= r)%nat.
Proof. rewrite Z.ltb_ge. lia. Qed.

(** The wait is the power of two, capped. *)
Lemma wait_time_capped (k : nat) :
  1 <= wait_time k <= 60 /\
  (2 ^ Z.of_nat k <= 60 -> wait_time k = 2 ^ Z.of_nat k) /\
  (60 <= 2 ^ Z.of_nat k -> wait_time k = 60).
Proof.
  unfold wait_time.
  assert (0 < 2 ^ Z.of_nat k) by (apply Z.pow_pos_nonneg; lia).
  lia.
Qed.

(** An initial connect never starts more attempts than are left. *)
Lemma initial_attempts_bounded (fuel : nat) (net : network) (c : connection) :
  forall retries,
    (attempts (connect_loop fuel net false retries c).1.2 + retries
     <= Nat.max retries (Z.to_nat (max_retries c)))%nat.
Proof.
  induction fuel as [|fuel IH]; intros retries; simpl; [lia|].
  destruct (Z.of_nat retries <? max_retries c) eqn:Hlt; simpl; [|lia].
  apply retries_left in Hlt.
  destruct (_is_closing c || closing_set net retries); simpl; [lia|].
  destruct (outcome net retries); simpl; try (unfold attempts; simpl; lia).
  destruct (Z.of_nat (S retries) <? max_retries c) eqn:Hlt'; simpl.
  - specialize (IH (S retries)).
    destruct (connect_loop fuel net false (S retries) c) as [[r t] c']; simpl in *.
    fold (attempts t). lia.
  - unfold attempts; simpl; lia.
Qed.

(** An initial connect returns within [max_retries] passes. *)
Lemma initial_connect_returns (fuel : nat) (net : network) (c : connection) :
  forall retries,
    (Z.to_nat (max_retries c) - retries < fuel)%nat ->
    (connect_loop fuel net false retries c).1.1 <> None.
Proof.
  induction fuel as [|fuel IH]; intros retries Hf; simpl; [lia|].
  destruct (Z.of_nat retries <? max_retries c) eqn:Hlt; simpl; [|done].
  apply retries_left in Hlt.
  destruct (_is_closing c || closing_set net retries); simpl; [done|].
  destruct (outcome net retries); simpl; try done.
  destruct (Z.of_nat (S retries) <? max_retries c) eqn:Hlt'; simpl; [|done].
  specialize (IH (S retries) ltac:(lia)).
  by destruct (connect_loop fuel net false (S retries) c) as [[r t] c'].
Qed.

(** In both modes the trace alternates attempts and waits: attempt [k] is
    followed by a wait of [wait_time (k + 1)] before attempt [k + 1]. *)
Lemma connect_trace_schedule (fuel : nat) (net : network) (mode : bool)
  (c : connection) :
  forall retries, exists n,
    (connect_loop fuel net mode retries c).1.2 = schedule_from retries n \/
    (connect_loop fuel net mode retries c).1.2
    = schedule_from retries n ++ [Attempt (retries + n)].
Proof.
  induction fuel as [|fuel IH]; intros retries; simpl; [by exists O; left|].
  destruct (negb _); simpl; [by exists O; left|].
  destruct (_is_closing c || closing_set net retries); simpl; [by exists O; left|].
  destruct (outcome net retries); simpl;
    try (exists O; right; simpl; by rewrite Nat.add_0_r).
  destruct (IH (S retries)) as [n Hn].
  destruct ((Z.of_nat (S retries) <? max_retries c) || mode) eqn:Hc; simpl.
  - destruct (connect_loop fuel net mode (S retries) c) as [[r t] c']; simpl in *.
    exists (S n); simpl. rewrite Nat.add_succ_r.
    destruct Hn as [-> | ->]; [by left | by right].
  - destruct mode; simpl.
    + by rewrite orb_true_r in Hc.
    + exists O; right; simpl. by rewrite Nat.add_0_r.
Qed.

(** The trace of an initial connect whose attempts are all refused. *)
Definition exhausted (from left : nat) : list action :=
  match left with
  | O => []
  | S n => schedule_from from n ++ [Attempt (from + n)]
  end.

Lemma initial_connect_exhausts (fuel : nat) (net : network) (c : connection) :
  _is_closing c = false ->
  (forall k, outcome net k = Refused /\ closing_set net k = false) ->
  forall retries,
    (Z.to_nat (max_retries c) - retries < fuel)%nat ->
    connect_loop fuel net false retries c
    = (Some false, exhausted retries (Z.to_nat (max_retries c) - retries), c).
Proof.
  intros Hc Hnet. induction fuel as [|fuel IH]; intros retries Hf; simpl; [lia|].
  destruct (Z.of_nat retries <? max_retries c) eqn:Hlt; simpl.
  - apply retries_left in Hlt.
    destruct (Hnet retries) as [-> ->]. rewrite Hc; simpl.
    destruct (Z.of_nat (S retries) <? max_retries c) eqn:Hlt'; simpl.
    + apply retries_left in Hlt'. rewrite (IH (S retries)) by lia.
      replace (Z.to_nat (max_retries c) - retries)%nat
        with (S (Z.to_nat (max_retries c) - S retries)) by lia.
      unfold exhausted.
      destruct (Z.to_nat (max_retries c) - S retries)%nat as [|n] eqn:Hn; [lia|].
      simpl. by rewrite Nat.add_succ_r.
    + apply retries_exhausted in Hlt'.
      replace (Z.to_nat (max_retries c) - retries)%nat with 1%nat by lia.
      simpl. by rewrite Nat.add_0_r.
  - apply retries_exhausted in Hlt.
    by replace (Z.to_nat (max_retries c) - retries)%nat with O by lia.
Qed.

(** A reconnect whose attempts are all refused is still retrying after
    any number of passes. *)
Lemma reconnect_keeps_retrying (fuel : nat) (net : network) (c : connection) :
  _is_closing c = false ->
  forall retries,
    (forall k, (retries <= k < retries + fuel)%nat ->
               outcome net k = Refused /\ closing_set net k = false) ->
    connect_loop fuel net true retries c = (None, schedule_from retries fuel, c).
Proof.
  intros Hc. induction fuel as [|fuel IH]; intros retries Hnet; simpl; [done|].
  destruct (Hnet retries ltac:(lia)) as [-> ->]. rewrite Hc; simpl.
  rewrite orb_true_r. rewrite (IH (S retries)); [done|].
  intros k Hk. apply Hnet. lia.
Qed.

(** A pass that finds the session closing returns failure at once. *)
Lemma connect_stops_when_closing (fuel : nat) (net : network) (mode : bool)
  (c : connection) (retries : nat) :
  _is_closing c || closing_set net retries = true ->
  connect_loop (S fuel) net mode retries c = (Some false, [], c).
Proof.
  intros H; simpl. destruct (negb _); [done|]. by rewrite H.
Qed.

(** A reconnect returns failure at the first pass that finds the session
    closing. *)
Lemma reconnect_stops_when_closing (net : network) (c : connection) (k : nat) :
  _is_closing c = false ->
  forall fuel retries,
    (forall j, (retries <= j < retries + k)%nat ->
               outcome net j = Refused /\ closing_set net j = false) ->
    closing_set net (retries + k) = true ->
    (k < fuel)%nat ->
    connect_loop fuel net true retries c = (Some false, schedule_from retries k, c).
Proof.
  intros Hc. induction k as [|k IH]; intros fuel retries Hnet Hclose Hf.
  - destruct fuel as [|fuel]; [lia|].
    apply connect_stops_when_closing.
    rewrite Nat.add_0_r in Hclose. by rewrite Hclose, orb_true_r.
  - destruct fuel as [|fuel]; [lia|]. simpl.
    destruct (Hnet retries ltac:(lia)) as [-> ->]. rewrite Hc; simpl.
    rewrite orb_true_r. rewrite (IH fuel (S retries)); [done| | |lia].
    + intros j Hj. apply Hnet. lia.
    + by replace (S retries + k)%nat with (retries + S k)%nat by lia.
Qed.

(** C4: an initial connect makes at most [max_retries] attempts (5 by
    default) and returns once they are used up, with failure when all were
    refused; in both modes attempt [k + 1] follows attempt [k] after a wait
    of [min(2 ** (k + 1), 60)] seconds; a reconnect whose attempts are
    refused goes on retrying for any number of passes unless the session
    is closing, in which case it returns failure at that pass. *)
Theorem connect_retry_policy (fuel : nat) (net : network) (c : connection) :
  max_retries (init (ws_url c) (token c) None None) = 5 /\
  (attempts (connect fuel net c false).1.2 <= Z.to_nat (max_retries c))%nat /\
  ((Z.to_nat (max_retries c) < fuel)%nat -> (connect fuel net c false).1.1 <> None) /\
  (forall mode, exists n,
      (connect fuel net c mode).1.2 = schedule_from 0 n \/
      (connect fuel net c mode).1.2 = schedule_from 0 n ++ [Attempt n]) /\
  (forall k, 1 <= wait_time k <= 60 /\
             (2 ^ Z.of_nat k <= 60 -> wait_time k = 2 ^ Z.of_nat k) /\
             (60 <= 2 ^ Z.of_nat k -> wait_time k = 60)) /\
  (_is_closing c = false ->
   (forall k, outcome net k = Refused /\ closing_set net k = false) ->
   ((Z.to_nat (max_retries c) < fuel)%nat ->
    connect fuel net c false
    = (Some false, exhausted 0 (Z.to_nat (max_retries c)), c)) /\
   connect fuel net c true = (None, schedule_from 0 fuel, c)) /\
  (forall mode, _is_closing c = true ->
                connect (S fuel) net c mode = (Some false, [], c)) /\
  (forall k, _is_closing c = false ->
             (forall j, (j < k)%nat ->
                        outcome net j = Refused /\ closing_set net j = false) ->
             closing_set net k = true -> (k < fuel)%nat ->
             connect fuel net c true = (Some false, schedule_from 0 k, c)).
Proof.
  unfold connect. repeat split.
  - pose proof (initial_attempts_bounded fuel net c 0). lia.
  - intros Hf. apply initial_connect_returns. lia.
  - intros mode. apply (connect_trace_schedule fuel net mode c 0).
  - apply wait_time_capped.
  - apply wait_time_capped.
  - apply wait_time_capped.
  - apply wait_time_capped.
  - intros Hf. rewrite (initial_connect_exhausts fuel net c) by (auto; lia).
    by rewrite Nat.sub_0_r.
  - apply reconnect_keeps_retrying; auto.
  - intros mode Hc. apply connect_stops_when_closing. by rewrite Hc.
  - intros k Hc Hnet Hk Hf. apply reconnect_stops_when_closing; try done.
    intros j Hj. apply Hnet. lia.
Qed.

(** A server that refuses every attempt, and a session with the default
    limits. *)
Definition unreachable : network :=
  {| outcome := fun _ => Refused; closing_set := fun _ => false |}.

Definition fresh_session : connection :=
  init (py "ws://127.0.0.1:3001") None None None.

Lemma connect_retry_policy_witness :
  connect 6 unreachable fresh_session false
  = (Some false,
     [Attempt 0; Sleep 2; Attempt 1; Sleep 4; Attempt 2; Sleep 8; Attempt 3;
      Sleep 16; Attempt 4], fresh_session)
  /\ connect 8 unreachable fresh_session true
     = (None,
        [Attempt 0; Sleep 2; Attempt 1; Sleep 4; Attempt 2; Sleep 8; Attempt 3;
         Sleep 16; Attempt 4; Sleep 32; Attempt 5; Sleep 60; Attempt 6; Sleep 60;
         Attempt 7; Sleep 60], fresh_session).
Proof.
  pose proof (connect_retry_policy 6 unreachable fresh_session)
    as (_ & _ & _ & _ & _ & H6 & _).
  pose proof (connect_retry_policy 8 unreachable fresh_session)
    as (_ & _ & _ & _ & _ & H8 & _).
  split.
  - apply (H6 eq_refl (fun _ => conj eq_refl eq_refl)). simpl. lia.
  - apply (H8 eq_refl (fun _ => conj eq_refl eq_refl)).
Defined.

End Connect.

(** ** Pending requests: close and timeout (C1, C3) *)
Section Requests.
Import Connection.

Lemma done_false (h : heap) (f : nat) :
  done h f = false <-> h !! f = Some FPending.
Proof.
  unfold done. destruct (h !! f) as [[]|]; split; intros H; try done.
Qed.

Lemma done_cancel (h : heap) (f : nat) : done (cancel h f) f = true.
Proof.
  unfold cancel. destruct (done h f) eqn:Hd; cbv iota; [done|].
  apply done_false in Hd. unfold done.
  rewrite list_lookup_insert_eq; [done|]. by eapply lookup_lt_Some.
Qed.

(** The loop of [close]: it calls [cancel()] once on each future of the
    table that is not done, and changes nothing else. *)
Lemma cancel_all_spec (items : list (pystr * nat)) :
  forall h : heap,
    NoDup (cancel_all items h).2 /\
    (forall f, f ∈ (cancel_all items h).2 <->
               f ∈ items.*2 /\ h !! f = Some FPending) /\
    (forall f, (cancel_all items h).1 !! f
               = if decide (f ∈ (cancel_all items h).2)
                 then Some FCancelled else h !! f).
Proof.
  induction items as [|[rid g] rest IH]; intros h; simpl.
  - split; [constructor|]. split.
    + intros f. split; [by intros ?%elem_of_nil | by intros [?%elem_of_nil _]].
    + done.
  - destruct (done h g) eqn:Hd.
    + destruct (IH h) as (Hnd & Hin & Hlook). split; [done|]. split; [|done].
      intros f. rewrite Hin, elem_of_cons. split.
      * intros [? ?]. auto.
      * intros [[->|?] Hp]; [|done].
        apply done_false in Hp. congruence.
    + apply done_false in Hd.
      assert (Hlt : (g < length h)%nat) by by eapply lookup_lt_Some.
      destruct (IH (<[g := FCancelled]> h)) as (Hnd & Hin & Hlook).
      destruct (cancel_all rest (<[g := FCancelled]> h)) as [h' log]; simpl in *.
      assert (Hg : g ∉ log).
      { rewrite Hin. intros [_ Hp]. by rewrite list_lookup_insert_eq in Hp. }
      split; [by constructor|]. split.
      * intros f. rewrite !elem_of_cons, Hin.
        destruct (decide (f = g)) as [->|Hne]; [by split; auto|].
        rewrite list_lookup_insert_ne by done.
        split; [intros [?|[? ?]]; [done|auto] | intros [[?|?] ?]; [done|auto]].
      * intros f. rewrite Hlook.
        destruct (decide (f = g)) as [->|Hne].
        -- rewrite decide_False by done.
           rewrite decide_True by (apply elem_of_cons; auto).
           by rewrite list_lookup_insert_eq.
        -- rewrite list_lookup_insert_ne by done.
           destruct (decide (f ∈ log)).
           ++ by rewrite decide_True by (apply elem_of_cons; auto).
           ++ rewrite decide_False; [done|]. by intros [?|?]%elem_of_cons.
Qed.

(** What [close] leaves of the connection. *)
Lemma close_connection (c : connection) (h : heap) :
  _pending_requests (closed c h) = ∅ /\
  _request_timeout (closed c h) = _request_timeout c /\
  websocket (closed c h) = false /\
  _is_closing (closed c h) = true /\
  _message_queue (closed c h) = [None].
Proof. unfold closed, close. by destruct (cancel_all _ h). Qed.

(** The interleaving in which [close] runs while a [send] awaits its
    response, cancelling the awaited future [t] seconds into the wait. *)
Definition closed_meanwhile (t : Q) : suspension :=
  {| xmit := None;
     completed := Some (t, FCancelled);
     others := fun w => (closed w.1 w.2, futures_after_close w.1 w.2) |}.

(** C1 (amended): [close] calls [cancel()] exactly once on the future of
    each pending request that is not yet done and leaves the futures that
    are done as they were; afterwards the pending-request table is empty.
    The [send] awaiting a cancelled future ends with [CancelledError]. *)
Theorem close_cancels_pending_requests (c : connection) (h : heap) :
  _pending_requests (closed c h) = ∅ /\
  NoDup (cancelled_by_close c h) /\
  (forall request_id f,
      _pending_requests c !! request_id = Some f ->
      match h !! f with
      | Some FPending =>
          (f ∈ cancelled_by_close c h) /\
          futures_after_close c h !! f = Some FCancelled
      | before =>
          (f ∉ cancelled_by_close c h) /\ futures_after_close c h !! f = before
      end) /\
  (forall data request_id t,
      websocket c = true ->
      Qle_bool t 0 = false -> Qle_bool (_request_timeout c) t = false ->
      returned (send c h data true request_id (closed_meanwhile t))
      = Raise CancelledError).
Proof.
  split; [apply close_connection|].
  unfold cancelled_by_close, futures_after_close, close.
  pose proof (cancel_all_spec (map_to_list (_pending_requests c)) h)
    as (Hnd & Hin & Hlook).
  destruct (cancel_all (map_to_list (_pending_requests c)) h) as [h' log] eqn:Hc.
  simpl in *. repeat split; try done.
  - intros rid f Hf.
    assert (Hmem : f ∈ (map_to_list (_pending_requests c)).*2).
    { apply list_elem_of_fmap. exists (rid, f). split; [done|].
      by apply elem_of_map_to_list. }
    rewrite Hlook. destruct (h !! f) as [s|] eqn:Hs.
    + destruct s;
        try (assert (f ∉ log) by (rewrite Hin; intros [_ ?]; congruence);
             by rewrite decide_False).
      assert (f ∈ log) by (apply Hin; done). by rewrite decide_True.
    + assert (f ∉ log) by (rewrite Hin; intros [_ ?]; congruence).
      by rewrite decide_False.
  - intros data rid t Hws Ht0 Ht. unfold returned, send. rewrite Hws; simpl.
    destruct (close_connection (register c h rid).1 (register c h rid).2)
      as (Hp & Hto & _).
    unfold register in Hp, Hto; simpl in Hp, Hto.
    unfold wait_for; simpl. rewrite Ht0, Hto, Ht; simpl.
    unfold send_cleanup; simpl.
    rewrite Hp, lookup_empty. simpl. by rewrite andb_false_r.
Qed.

(** A connected session with one request pending on future 0. *)
Definition one_pending : connection :=
  set_pending (set_connected (init (py "ws://127.0.0.1:3001") None None None))
    {[ py "r1" := 0%nat ]}.

Lemma close_cancels_pending_requests_witness :
  returned (send one_pending [FPending] [] true (py "r2") (closed_meanwhile (1 # 1)))
  = Raise CancelledError.
Proof.
  pose proof (close_cancels_pending_requests one_pending [FPending])
    as (_ & _ & _ & H).
  exact (H [] (py "r2") (1 # 1) eq_refl eq_refl eq_refl).
Defined.

(** C1 as stated fails: the pending future ends cancelled, not failed with
    a ConnectionClosed error, and the waiting [send] raises
    [CancelledError]. *)
Lemma close_does_not_raise_connection_closed :
  futures_after_close one_pending [FPending] !! 0%nat
  <> Some (FException ConnectionClosed)
  /\ futures_after_close one_pending [FPending] !! 0%nat = Some FCancelled
  /\ returned (send one_pending [FPending] [] true (py "r2") (closed_meanwhile (1 # 1)))
     <> Raise ConnectionClosed.
Proof. repeat split; vm_compute; (discriminate || reflexivity). Qed.

(** No completion of the future within the window. *)
Definition no_response_within (timeout : Q)
  (completed : option (Q * future_state)) : Prop :=
  match completed with
  | None => True
  | Some (t, _) => Qle_bool t 0 = false /\ Qle_bool timeout t = true
  end.

(** C3: a [send] that awaits a response and gets none within the window
    ([_request_timeout], 30 seconds by default) raises [TimeoutError] when
    the window has passed, and its request id is then no longer in the
    pending-request table. *)
Theorem send_times_out (c : connection) (h : heap) (data : dict)
  (request_id : pystr) (env : suspension) :
  websocket c = true ->
  PyStr.truthy request_id = true ->
  xmit env = None ->
  no_response_within (_request_timeout (others env (register c h request_id)).1)
    (completed env) ->
  _request_timeout (init (ws_url c) (token c) None None) = (30 # 1)%Q /\
  exists c' h',
    send c h data true request_id env
    = (Raise TimeoutError, c', h', Some (stamp data request_id),
       _request_timeout (others env (register c h request_id)).1) /\
    _pending_requests c' !! request_id = None /\
    done h' (length h) = true.
Proof.
  intros Hws Hid Hx Hno. split; [done|].
  unfold send. rewrite Hws; simpl.
  destruct (others env (register c h request_id)) as [c1 h1]; simpl in *.
  rewrite Hx.
  assert (Hw : wait_for h1 (length h) (_request_timeout c1) (completed env)
               = (Raise TimeoutError, cancel h1 (length h), _request_timeout c1)).
  { unfold wait_for. destruct (completed env) as [[t s]|]; [|done].
    destruct Hno as [-> ->]. done. }
  rewrite Hw. unfold send_cleanup; simpl.
  rewrite Hid, done_cancel; simpl. rewrite andb_false_r.
  destruct (bool_decide (is_Some (_pending_requests c1 !! request_id))) eqn:Hreg;
    simpl; rewrite ?done_cancel; eexists _, _; (split; [reflexivity|]); split.
  - simpl. apply lookup_delete_eq.
  - apply done_cancel.
  - apply bool_decide_eq_false in Hreg. by apply eq_None_not_Some.
  - apply done_cancel.
Qed.

(** Example 3 of the specification: the response to request [abc123]
    arrives two seconds into the wait; [send] returns it and the id leaves
    the table. *)
Definition answered : suspension :=
  {| xmit := None;
     completed := Some (2 # 1, FResult (JObj [(py "status", JStr (py "ok"));
                                              (py "data", JObj [(py "x", JNum 1)])]));
     others := fun w => w |}.

Example send_returns_response :
  returned (send one_pending [FPending] [] true (py "abc123") answered)
  = Ok (Some (JObj [(py "status", JStr (py "ok"));
                    (py "data", JObj [(py "x", JNum 1)])]))
  /\ pending_after (send one_pending [FPending] [] true (py "abc123") answered)
     !! py "abc123" = None.
Proof. split; vm_compute; reflexivity. Qed.

(** A send that nobody answers, on a session with the default window. *)
Definition unanswered : suspension :=
  {| xmit := None; completed := None; others := fun w => w |}.

Lemma send_times_out_witness :
  exists c' h',
    send one_pending [FPending] [(py "action", JStr (py "get_status"))] true
      (py "abc123") unanswered
    = (Raise TimeoutError, c', h',
       Some [(py "action", JStr (py "get_status"));
             (py "echo", JObj [(py "request_id", JStr (py "abc123"))])],
       (30 # 1)%Q) /\
    _pending_requests c' !! py "abc123" = None /\
    done h' 1 = true.
Proof.
  exact (proj2 (send_times_out one_pending [FPending]
                  [(py "action", JStr (py "get_status"))] (py "abc123") unanswered
                  eq_refl eq_refl eq_refl I)).
Defined.

End Requests.

(** ** The wait never outlasts the window *)
Section Deadline.
Import Connection.

(** Whatever the other tasks do, [wait_for] returns within the window. *)
Lemma wait_for_bounded (h : heap) (f : nat) (timeout : Q)
  (completed : option (Q * future_state)) :
  (0 <= timeout)%Q ->
  ((wait_for h f timeout completed).2 <= timeout)%Q.
Proof.
  intros Hpos. unfold wait_for.
  destruct completed as [[t s]|]; simpl; [|apply Qle_refl].
  destruct (Qle_bool t 0) eqn:H0.
  - destruct s; simpl; auto using Qle_refl.
  - destruct (Qle_bool timeout t) eqn:Ht; simpl; [apply Qle_refl|].
    assert (t <= timeout)%Q.
    { apply Qlt_le_weak, Qnot_le_lt. intros Hle.
      apply Qle_bool_iff in Hle. congruence. }
    destruct s; simpl; auto using Qle_refl.
Qed.

End Deadline.

(** ** Ordered dictionaries *)
Section ODictFacts.
Context {V : Type}.
Implicit Types (d : ODict.t V) (k : pystr) (v : V).

Lemma odict_mem_keys d k : ODict.mem d k = true <-> k ∈ d.*1.
Proof.
  unfold ODict.mem. induction d as [|[k' v'] d IH]; simpl.
  - split; [done | by intros ?%elem_of_nil].
  - rewrite orb_true_iff, IH, elem_of_cons, eqb_eq. split; intros [?|?]; auto.
Qed.

Lemma odict_set_fresh d k v : k ∉ d.*1 -> ODict.set d k v = d ++ [(k, v)].
Proof.
  induction d as [|[k' v'] d IH]; simpl; [done|].
  intros [Hne Hd]%not_elem_of_cons.
  destruct (PyStr.eqb k' k) eqn:He; [by apply eqb_eq in He|].
  by rewrite IH.
Qed.

(** Assigning to a key adds it at the end or keeps the keys as they are. *)
Lemma odict_set_keys d k v :
  (ODict.set d k v).*1 = if ODict.mem d k then d.*1 else d.*1 ++ [k].
Proof.
  unfold ODict.mem. induction d as [|[k' v'] d IH]; csimpl; [done|].
  destruct (PyStr.eqb k' k) eqn:He; csimpl; [done|].
  rewrite IH. by destruct (existsb _ d).
Qed.

Lemma odict_set_NoDup d k v : NoDup d.*1 -> NoDup (ODict.set d k v).*1.
Proof.
  intros Hd. rewrite odict_set_keys.
  destruct (ODict.mem d k) eqn:Hm; [done|].
  apply NoDup_app. split; [done|]. split; [|apply NoDup_singleton].
  intros x Hx ->%list_elem_of_singleton.
  apply odict_mem_keys in Hx. congruence.
Qed.

Lemma odict_fold_set_fresh (items acc : ODict.t V) :
  NoDup (acc ++ items).*1 ->
  fold_left (fun d kv => ODict.set d kv.1 kv.2) items acc = acc ++ items.
Proof.
  revert acc. induction items as [|[k v] items IH]; intros acc Hnd; simpl.
  - by rewrite app_nil_r.
  - rewrite odict_set_fresh.
    + rewrite IH; rewrite <- app_assoc; done.
    + rewrite fmap_app in Hnd. apply NoDup_app in Hnd as (_ & Hd & _).
      intros Hk. apply (Hd k Hk). simpl. apply elem_of_cons; auto.
Qed.

(** [dict(items)] of items with distinct keys keeps them as they are. *)
Lemma odict_of_items_NoDup (items : ODict.t V) :
  NoDup items.*1 -> ODict.of_items items = items.
Proof. intros H. unfold ODict.of_items. by rewrite odict_fold_set_fresh. Qed.

End ODictFacts.

(** ** The stable sort by priority *)
Section SortFacts.
Import PluginManager.



Lemma insert_by_priority_perm x l : Permutation (x :: l) (insert_by_priority x l).
Proof.
  induction l as [|y l IH]; simpl; [done|].
  destruct (priority x.2 <=? priority y.2); [done|].
  etransitivity; [apply perm_swap|]. by apply perm_skip.
Qed.

Lemma sorted_by_priority_perm l : Permutation l (sorted_by_priority l).
Proof.
  induction l as [|x l IH]; simpl; [done|].
  etransitivity; [apply perm_skip, IH|]. apply insert_by_priority_perm.
Qed.





(** The registry [load_one] builds never holds a name twice. *)
Lemma discover_NoDup (st : manager) (fs : directory) :
  NoDup (plugins (discover st fs)).*1.
Proof.
  unfold discover.
  assert (H : forall cs s, NoDup (plugins s).*1 ->
                           NoDup (plugins (fold_left load_one cs s)).*1).
  { induction cs as [|c cs IH]; intros s Hs; simpl; [done|].
    apply IH. unfold load_one.
    destruct (c_import c) as [| |m]; simpl; try done.
    destruct (TRIGGHT_KEYWORD m); simpl; [|done].
    by apply odict_set_NoDup. }
  apply H. simpl. constructor.
Qed.

(** The snapshot [load_plugins] leaves is the stable sort of the
    discovered registry. *)
Lemma load_plugins_sorted (st : manager) (fs : directory) :
  plugins (load_plugins st fs) = sorted_by_priority (plugins (discover st fs)).
Proof.
  unfold load_plugins, _sort_plugins_by_priority; simpl.
  apply odict_of_items_NoDup.
  rewrite <- (sorted_by_priority_perm (plugins (discover st fs))).
  apply discover_NoDup.
Qed.

End SortFacts.

(** ** Dispatch (C2) *)
Section Dispatch.
Import PluginManager.




(** One turn of the loop on a plugin whose entry point is selected. *)
Lemma walk_selected (keyword : pystr) (name : pystr) (p : plugin_info)
  (rest : ODict.t plugin_info) (ev ev1 ev2 : event) (ep : entry_point)
  (h : handler) (r : handler_result) :
  selected keyword p ev = (Some (ep, h), ev1) -> h ev1 = (r, ev2) ->
  let i := {| i_plugin := name; i_entry := ep; i_result := r |} in
  walk keyword ((name, p) :: rest) ev
  = if reports_handled i then (Ok true, [i], ev2)
    else match lets_out i with
         | Some e => (Raise e, [i], ev2)
         | None => ((walk keyword rest ev2).1.1, i :: (walk keyword rest ev2).1.2,
                    (walk keyword rest ev2).2)
         end.
Proof.
  intros Hsel Hh. simpl. rewrite Hsel, Hh.
  unfold reports_handled, lets_out; simpl.
  destruct (walk keyword rest ev2) as [[b t] ev3].
  destruct r as [[|]|e]; simpl; try done. by destruct (is_Exception e).
Qed.

(** The calls of a walk are made on plugins of the registry, in its
    order. *)
Lemma walk_called (keyword : pystr) (registry : ODict.t plugin_info) :
  forall ev, exists called,
    called `sublist_of` registry /\
    called.*1 = i_plugin <$> (walk keyword registry ev).1.2.
Proof.
  induction registry as [|[name p] rest IH]; intros ev.
  - by exists [].
  - destruct (selected keyword p ev) as [[[ep h]|] ev1] eqn:Hsel.
    + destruct (h ev1) as [r ev2] eqn:Hh.
      rewrite (walk_selected _ name _ rest _ _ _ _ _ _ Hsel Hh).
      destruct (IH ev2) as (called & Hsub & Hnames).
      destruct (reports_handled _); [|destruct (lets_out _)]; simpl.
      * exists [(name, p)]. split; [|done].
        apply sublist_skip, sublist_nil_l.
      * exists [(name, p)]. split; [|done].
        apply sublist_skip, sublist_nil_l.
      * exists ((name, p) :: called). split; [by apply sublist_skip|].
        csimpl. by rewrite Hnames.
    + simpl. rewrite Hsel. destruct (IH ev1) as (called & Hsub & Hnames).
      exists called. split; [by apply sublist_cons | done].
Qed.







(** *** The examples of the specification *)

(** Plugin A: trigger [ping], priority 1, reports "handled". *)
Definition plugin_a : py_module :=
  {| TRIGGHT_KEYWORD := Some (py "ping"); PLT_ST := Some 1;
     HELP_MESSAGE := None;
     on_message := Some (fun ev => (Returned true, ev));
     on_lunar_event := None |}.

(** Plugin B: the wildcard trigger, priority 2, reports "handled". *)
Definition plugin_b : py_module :=
  {| TRIGGHT_KEYWORD := Some (py "Any"); PLT_ST := Some 2;
     HELP_MESSAGE := None;
     on_message := Some (fun ev => (Returned true, ev));
     on_lunar_event := None |}.

Definition file_entry (name : string) (m : py_module) : entry :=
  {| name := py name; kind_of := File; st_mtime := Some 0;
     source := Imported m; setup_py := None |}.

(** A directory that lists B before A. *)
Definition two_plugins : directory :=
  [file_entry "b.py" plugin_b; file_entry "a.py" plugin_a].

Definition message_with_text (text : string) : event :=
  Bot.extract_command (py "/") (py text)
    (set_message (new GroupMessageEvent []) [TextSegment (JStr (py text))]).

Definition call (name : string) (ep : entry_point) (r : handler_result)
  : invocation :=
  {| i_plugin := py name; i_entry := ep; i_result := r |}.

Example discovery_order_b_a :
  (plugins (discover (init two_plugins) two_plugins)).*1 = [py "b"; py "a"].
Proof. reflexivity. Qed.

Example snapshot_order_a_b :
  (plugins (load_plugins (init two_plugins) two_plugins)).*1 = [py "a"; py "b"].
Proof. reflexivity. Qed.

(** Example 1: text [/ping]; A is called first and handles, B is not
    called. *)
Example ping_goes_to_a :
  (handle_event (load_plugins (init two_plugins) two_plugins) None
     (message_with_text "/ping")).1
  = (Ok true, [call "a" OnMessage (Returned true)]).
Proof. reflexivity. Qed.

(** Example 2: text [hello]; A does not match, the wildcard B is called. *)
Example hello_goes_to_b :
  (handle_event (load_plugins (init two_plugins) two_plugins) None
     (message_with_text "hello")).1
  = (Ok true, [call "b" OnMessage (Returned true)]).
Proof. reflexivity. Qed.

(** Plugin N: the wildcard trigger, priority 0, reports nothing. *)
Definition plugin_n : py_module :=
  {| TRIGGHT_KEYWORD := Some (py "Any"); PLT_ST := Some 0;
     HELP_MESSAGE := None;
     on_message := Some (fun ev => (Returned false, ev));
     on_lunar_event := None |}.

Definition with_observer : directory :=
  file_entry "n.py" plugin_n :: two_plugins.

(** Example 3: text [hello] with N in front; N is called and declines, A
    does not match, B is called next. *)
Example hello_passes_n :
  (handle_event (load_plugins (init with_observer) with_observer) None
     (message_with_text "hello")).1
  = (Ok true, [call "n" OnMessage (Returned false);
               call "b" OnMessage (Returned true)]).
Proof. reflexivity. Qed.


(** *** Handlers that raise *)








(** Plugin C: the wildcard trigger, priority 0, always raises. *)
Definition plugin_c : py_module :=
  {| TRIGGHT_KEYWORD := Some (py "Any"); PLT_ST := Some 0;
     HELP_MESSAGE := None;
     on_message := Some (fun ev => (Raised ValueError, ev));
     on_lunar_event := Some (fun ev => (Raised ValueError, ev)) |}.

Definition three_plugins : directory :=
  file_entry "c.py" plugin_c :: two_plugins.

Example raising_handler_is_passed_over :
  (handle_event (load_plugins (init three_plugins) three_plugins) None
     (message_with_text "hello")).1
  = (Ok true, [call "c" OnMessage (Raised ValueError);
               call "b" OnMessage (Returned true)]).
Proof. reflexivity. Qed.



End Dispatch.

(** ** Enable and disable in the target state (C6) *)
Section EnableDisable.
Import PluginManager.

(** What a load reads of the manager it starts from. *)
Lemma load_one_fields (st : manager) (c : candidate) :
  file_timestamps (load_one st c) = file_timestamps st /\
  monitoring_enabled (load_one st c) = monitoring_enabled st.
Proof.
  unfold load_one. destruct (c_import c) as [| |m]; try done.
  by destruct (TRIGGHT_KEYWORD m).
Qed.

Lemma load_one_registry (s1 s2 : manager) (c : candidate) :
  plugins s1 = plugins s2 -> enabled_plugins s1 = enabled_plugins s2 ->
  failed_plugins s1 = failed_plugins s2 ->
  plugins (load_one s1 c) = plugins (load_one s2 c) /\
  enabled_plugins (load_one s1 c) = enabled_plugins (load_one s2 c) /\
  failed_plugins (load_one s1 c) = failed_plugins (load_one s2 c).
Proof.
  intros Hp He Hf. unfold load_one.
  destruct (c_import c) as [| |m]; simpl; rewrite ?Hp, ?He, ?Hf; try done.
  destruct (TRIGGHT_KEYWORD m); simpl; by rewrite ?Hp, ?He, ?Hf.
Qed.

Lemma load_fold_registry (cs : list candidate) :
  forall s1 s2,
    plugins s1 = plugins s2 -> enabled_plugins s1 = enabled_plugins s2 ->
    failed_plugins s1 = failed_plugins s2 ->
    plugins (fold_left load_one cs s1) = plugins (fold_left load_one cs s2) /\
    enabled_plugins (fold_left load_one cs s1)
    = enabled_plugins (fold_left load_one cs s2) /\
    failed_plugins (fold_left load_one cs s1)
    = failed_plugins (fold_left load_one cs s2).
Proof.
  induction cs as [|c cs IH]; intros s1 s2 Hp He Hf; simpl; [done|].
  destruct (load_one_registry s1 s2 c Hp He Hf) as (? & ? & ?). by apply IH.
Qed.

Lemma load_fold_fields (cs : list candidate) :
  forall s,
    file_timestamps (fold_left load_one cs s) = file_timestamps s /\
    monitoring_enabled (fold_left load_one cs s) = monitoring_enabled s.
Proof.
  induction cs as [|c cs IH]; intros s; simpl; [done|].
  destruct (IH (load_one s c)) as [-> ->]. apply load_one_fields.
Qed.

Lemma manager_eq (s1 s2 : manager) :
  plugins s1 = plugins s2 -> enabled_plugins s1 = enabled_plugins s2 ->
  failed_plugins s1 = failed_plugins s2 ->
  file_timestamps s1 = file_timestamps s2 ->
  monitoring_enabled s1 = monitoring_enabled s2 -> s1 = s2.
Proof. destruct s1, s2; simpl; by intros -> -> -> -> ->. Qed.

(** A reload takes nothing from the registry and the time stamps it
    replaces. *)
Lemma reload_plugins_ext (s1 s2 : manager) (fs : directory) :
  monitoring_enabled s1 = monitoring_enabled s2 ->
  reload_plugins s1 fs = reload_plugins s2 fs.
Proof.
  intros Hm. unfold reload_plugins, initialize_file_timestamps, load_plugins,
    _sort_plugins_by_priority, discover.
  destruct (load_fold_registry (candidates fs)
              (with_registry (with_registry s1 [] [] ∅) [] [] ∅)
              (with_registry (with_registry s2 [] [] ∅) [] [] ∅))
    as (Hp & He & Hf); try done.
  apply manager_eq; simpl; rewrite ?Hp, ?He, ?Hf; try done.
  by rewrite !(proj2 (load_fold_fields _ _)).
Qed.

Lemma reload_plugins_idempotent (st : manager) (fs : directory) :
  reload_plugins (reload_plugins st fs) fs = reload_plugins st fs.
Proof.
  apply reload_plugins_ext. unfold reload_plugins, initialize_file_timestamps,
    load_plugins, _sort_plugins_by_priority, discover; simpl.
  by rewrite (proj2 (load_fold_fields _ _)).
Qed.

(** C6 (amended): [disable] of a unit already disabled on disk renames
    nothing, performs a full reload and succeeds, and repeating it changes
    nothing more.  [enable] of a unit already enabled on disk renames
    nothing; when the unit is in the loaded registry it succeeds without a
    reload, otherwise it performs a full reload and succeeds exactly when
    the unit is loaded afterwards. *)
Theorem target_state_operations (st : manager) (fs : directory)
  (plugin_name : pystr) (rename_ok : bool) :
  (path_exists fs (py "d_" ++ plugin_name ++ py ".py")
   || path_exists fs (py "d_" ++ plugin_name) = true ->
   disable_plugin st fs plugin_name rename_ok
   = (true, reload_plugins st fs, fs, [Reloaded]) /\
   disable_plugin (reload_plugins st fs) fs plugin_name rename_ok
   = (true, reload_plugins st fs, fs, [Reloaded])) /\
  (path_exists fs (plugin_name ++ py ".py") || path_exists fs plugin_name = true ->
   enable_plugin st fs plugin_name rename_ok
   = if ODict.mem (plugins st) plugin_name then (true, st, fs, [])
     else (ODict.mem (plugins (reload_plugins st fs)) plugin_name,
           reload_plugins st fs, fs, [Reloaded])).
Proof.
  split.
  - intros H. unfold disable_plugin. rewrite H.
    by rewrite reload_plugins_idempotent.
  - intros H. unfold enable_plugin. rewrite H.
    by destruct (ODict.mem (plugins st) plugin_name).
Qed.

Definition failing_entry (name : string) : entry :=
  {| name := py name; kind_of := File; st_mtime := Some 0;
     source := ImportError (py "SyntaxError"); setup_py := None |}.

(** Plugin [a] was loaded when the directory held only [a.py]; since then
    [b.py] and the broken [bad.py] have appeared. *)
Definition loaded_a_only : manager :=
  load_plugins (init [file_entry "a.py" plugin_a]) [file_entry "a.py" plugin_a].

Definition grown_directory : directory :=
  [file_entry "a.py" plugin_a; file_entry "b.py" plugin_b; failing_entry "bad.py"].

Lemma target_state_operations_witness :
  enable_plugin loaded_a_only grown_directory (py "a") true
  = (true, loaded_a_only, grown_directory, []) /\
  enable_plugin loaded_a_only grown_directory (py "b") true
  = (true, reload_plugins loaded_a_only grown_directory, grown_directory, [Reloaded]).
Proof.
  split.
  - exact (proj2 (target_state_operations loaded_a_only grown_directory (py "a") true)
             eq_refl).
  - exact (proj2 (target_state_operations loaded_a_only grown_directory (py "b") true)
             eq_refl).
Defined.

(** C6 as stated fails: enabling the loaded plugin [a] performs no reload,
    so the registry keeps missing [b], which a reload would load; and
    enabling [bad], enabled on disk but failing to load, reloads and
    reports failure. *)
Lemma enable_loaded_does_not_reload :
  (enable_plugin loaded_a_only grown_directory (py "a") true).2 <> [Reloaded]
  /\ (plugins (enable_plugin loaded_a_only grown_directory (py "a") true).1.1.2).*1
     <> (plugins (reload_plugins loaded_a_only grown_directory)).*1
  /\ (enable_plugin loaded_a_only grown_directory (py "bad") true).1.1.1 <> true.
Proof. repeat split; vm_compute; discriminate. Qed.

End EnableDisable.

(** ** Entries whose name starts with an underscore (C10) *)
Section Hidden.
Import PluginManager.

Definition visible (fs : directory) : directory :=
  List.filter (fun e => negb (hidden e)) fs.

(** None of the scans takes anything from a hidden entry. *)
Lemma hidden_entry_ignored (st : manager) (e : entry) :
  hidden e = true ->
  candidate_of e = None /\ listed_name e = None /\
  watched e = false /\ changed st e = false.
Proof.
  unfold hidden, candidate_of, listed_name, changed, watched.
  intros H. cbv zeta. rewrite !H. cbn [negb].
  rewrite !andb_false_r. cbn [andb]. done.
Qed.

Lemma fold_left_visible {A} (f : A -> entry -> A) (fs : directory) :
  (forall a e, hidden e = true -> f a e = a) ->
  forall a, fold_left f fs a = fold_left f (visible fs) a.
Proof.
  intros Hf. induction fs as [|e fs IH]; intros a; simpl; [done|].
  destruct (hidden e) eqn:He; simpl; [by rewrite (Hf a e He)|apply IH].
Qed.

Lemma candidates_visible (fs : directory) : candidates fs = candidates (visible fs).
Proof.
  unfold candidates. induction fs as [|e fs IH]; csimpl; [done|].
  destruct (hidden e) eqn:He; csimpl.
  - by rewrite (proj1 (hidden_entry_ignored (init []) e He)).
  - by rewrite IH.
Qed.

Lemma existsb_changed_visible (st : manager) (fs : directory) :
  existsb (changed st) fs = existsb (changed st) (visible fs).
Proof.
  induction fs as [|e fs IH]; simpl; [done|].
  destruct (hidden e) eqn:He; simpl.
  - by destruct (hidden_entry_ignored st e He) as (_ & _ & _ & ->).
  - by rewrite IH.
Qed.

Lemma initialize_file_timestamps_visible (st : manager) (fs : directory) :
  initialize_file_timestamps st fs = initialize_file_timestamps st (visible fs).
Proof.
  unfold initialize_file_timestamps. f_equal. apply fold_left_visible.
  intros ts e He. by destruct (hidden_entry_ignored st e He) as (_ & _ & -> & _).
Qed.

(** C10: an entry of the plugin directory whose name starts with an
    underscore yields no load candidate, no name in the listing and no
    watched file; loading, listing, time stamps and the monitor's scan are
    what they are on the directory without such entries. *)
Theorem underscore_entries_are_ignored (st : manager) (fs : directory)
  (loop_running : bool) :
  (forall e, hidden e = true ->
             candidate_of e = None /\ listed_name e = None /\
             watched e = false /\ changed st e = false) /\
  candidates fs = candidates (visible fs) /\
  load_plugins st fs = load_plugins st (visible fs) /\
  reload_plugins st fs = reload_plugins st (visible fs) /\
  get_plugin_list st fs = get_plugin_list st (visible fs) /\
  initialize_file_timestamps st fs = initialize_file_timestamps st (visible fs) /\
  monitor_pass st fs loop_running = monitor_pass st (visible fs) loop_running.
Proof.
  split; [apply hidden_entry_ignored|].
  split; [apply candidates_visible|].
  split; [|split; [|split; [|split]]].
  - unfold load_plugins, discover. by rewrite <- candidates_visible.
  - unfold reload_plugins, load_plugins, discover.
    by rewrite <- candidates_visible, <- initialize_file_timestamps_visible.
  - unfold get_plugin_list. apply fold_left_visible.
    intros acc e He. unfold list_entry.
    by destruct (hidden_entry_ignored st e He) as (_ & -> & _).
  - apply initialize_file_timestamps_visible.
  - unfold monitor_pass.
    by rewrite <- existsb_changed_visible, <- initialize_file_timestamps_visible.
Qed.

Definition with_hidden : directory :=
  [file_entry "_draft.py" plugin_c; file_entry "a.py" plugin_a;
   {| name := py "_cache"; kind_of := Directory; st_mtime := Some 0;
      source := NoSpec; setup_py := Some (Imported plugin_b) |}].

Lemma underscore_entries_are_ignored_witness :
  candidate_of (file_entry "_draft.py" plugin_c) = None /\
  listed_name (file_entry "_draft.py" plugin_c) = None /\
  watched (file_entry "_draft.py" plugin_c) = false /\
  changed (init with_hidden) (file_entry "_draft.py" plugin_c) = false.
Proof.
  exact (proj1 (underscore_entries_are_ignored (init with_hidden) with_hidden true)
           (file_entry "_draft.py" plugin_c) eq_refl).
Defined.

Example hidden_entries_not_loaded :
  (plugins (load_plugins (init with_hidden) with_hidden)).*1 = [py "a"]
  /\ file_timestamps (init with_hidden) !! py "plugins/a.py" = Some 0
  /\ file_timestamps (init with_hidden) !! py "plugins/_draft.py" = None
  /\ enabled_on_disk (get_plugin_list (load_plugins (init with_hidden) with_hidden)
                        with_hidden)
     = [(py "a", Loaded TFile (py "ping") [] 1)].
Proof. repeat split; vm_compute; reflexivity. Qed.

End Hidden.

(* ===================================================================== *)
(** * The rest of the session: reader loop, consumer, reconnection *)
(* ===================================================================== *)
Module Reader.
Import Connection.

(** The truth value of a decoded value ([if request_id:]). *)
Definition truth (v : json) : bool :=
  match v with
  | JNull => false
  | JBool b => b
  | JNum n => negb (n =? 0)
  | JStr s => PyStr.truthy s
  | JArr [] => false
  | JArr (_ :: _) => true
  | JObj [] => false
  | JObj (_ :: _) => true
  end.

(** [sub in s] for two strings. *)
Fixpoint contains_str (s sub : pystr) : bool :=
  startswith s sub
  || match s with
     | [] => false
     | _ :: s' => contains_str s' sub
     end.

(** ['echo' in data]: a key of a dict, an element of a list, a substring
    of a string; other values do not support [in]. *)
Definition has_echo (data : json) : result bool :=
  match data with
  | JObj d => Ok (contains d (py "echo"))
  | JArr l => Ok (existsb (fun v => is_str v (py "echo")) l)
  | JStr s => Ok (contains_str s (py "echo"))
  | _ => Raise TypeError
  end.

(** The request id [_listen_loop] reads off a decoded frame: [None] unless
    [data['echo']] is a dict with the key [request_id].  Indexing a list
    or a string with ['echo'] raises. *)
Definition request_id_of (data : json) : result (option json) :=
  try! present := has_echo data in
  if present then
    match data with
    | JObj d =>
        match get d (py "echo") JNull with
        | JObj e =>
            if contains e (py "request_id")
            then Ok (Some (get e (py "request_id") JNull))
            else Ok None
        | _ => Ok None
        end
    | _ => Raise TypeError
    end
  else Ok None.

(** [self._pending_requests.get(request_id)]: a list or a dict is not
    hashable, and only a string equals a key of the table. *)
Definition pending_get (c : connection) (request_id : json) : result (option nat) :=
  match request_id with
  | JStr s => Ok (_pending_requests c !! s)
  | JArr _ | JObj _ => Raise TypeError
  | _ => Ok None
  end.

Definition set_queue (c : connection) (q : list (option json)) : connection :=
  {| ws_url := ws_url c; token := token c; max_retries := max_retries c;
     websocket := websocket c; _pending_requests := _pending_requests c;
     _request_timeout := _request_timeout c;
     _listener_task := _listener_task c;
     _message_queue := q; _is_closing := _is_closing c |}.

(** [await self._message_queue.put(item)] *)
Definition put (c : connection) (item : option json) : connection :=
  set_queue c (_message_queue c ++ [item]).

(** The exception a response with status [error] sets:
    [Exception(f"服务器错误: {data.get('message', '未知错误')}")]. *)
Definition server_error (rt : runtime) (data : json) : exn :=
  let message :=
    match data with
    | JObj d => get d (py "message") (JStr [26410; 30693; 38169; 35823]%N)
    | _ => JNull
    end in
  ServerError ([26381; 21153; 22120; 38169; 35823; 58; 32]%N ++ py_str rt message).

(** ['status' in data and data['status'] == 'error'] *)
Definition is_error (data : json) : bool :=
  match data with
  | JObj d => is_str (get d (py "status") JNull) (py "error")
  | _ => false
  end.

(** The body of the loop of [_listen_loop] on one decoded frame, up to
    its [except] clauses. *)
Definition on_frame (rt : runtime) (c : connection) (h : heap) (data : json)
  : result (connection * heap) :=
  try! rid := request_id_of data in
  match rid with
  | Some request_id =>
      if truth request_id then
        try! future := pending_get c request_id in
        match future with
        | Some f =>
            if negb (done h f) then
              if is_error data
              then Ok (c, set_exception h f (server_error rt data))
              else Ok (c, <[f := FResult data]> h)
            else Ok (put c (Some data), h)
        | None => Ok (put c (Some data), h)
        end
      else Ok (put c (Some data), h)
  | None => Ok (put c (Some data), h)
  end.

(** One pass of the loop of [_listen_loop]: [message] is the decoded
    frame, [None] when [json.loads] fails.  What the body raises is logged
    and the frame is given up. *)
Definition _listen_loop_step (rt : runtime) (s : connection * heap)
  (message : option json) : connection * heap :=
  match message with
  | None => s
  | Some data =>
      match on_frame rt s.1 s.2 data with
      | Ok s' => s'
      | Raise _ => s
      end
  end.

(** The loop of [_listen_loop] over the frames a socket delivers. *)
Definition _listen_loop (rt : runtime) (c : connection) (h : heap)
  (messages : list (option json)) : connection * heap :=
  fold_left (_listen_loop_step rt) messages (c, h).

(** What [listen] yields from a queue: the frames before the first
    sentinel. *)
Fixpoint listen (queue : list (option json)) : list json :=
  match queue with
  | Some message :: rest => message :: listen rest
  | _ => []
  end.

Definition set_disconnected (c : connection) : connection :=
  {| ws_url := ws_url c; token := token c; max_retries := max_retries c;
     websocket := false; _pending_requests := _pending_requests c;
     _request_timeout := _request_timeout c;
     _listener_task := _listener_task c;
     _message_queue := _message_queue c; _is_closing := _is_closing c |}.

(** [_reconnect_loop]: the connection afterwards ([None] while [connect]
    is still retrying when the fuel is used up) and the trace of
    [connect]. *)
Definition _reconnect_loop (fuel : nat) (net : network) (c : connection)
  : option connection * list action :=
  if _is_closing c then (Some c, [])
  else
    match connect fuel net (set_disconnected c) true with
    | (Some true, t, c') => (Some c', t)
    | (Some false, t, c') => (Some (put c' None), t)
    | (None, t, _) => (None, t)
    end.

End Reader.

(** ** Assignment to a key of a decoded dict *)
Section DictFacts.

(** [d[k] = v] as [stamp] writes it out. *)
Definition set_key (d : dict) (k : pystr) (v : json) : dict :=
  if contains d k
  then List.map (fun kv => if PyStr.eqb (fst kv) k then (fst kv, v) else kv) d
  else d ++ [(k, v)].

Lemma contains_app (d1 d2 : dict) (k : pystr) :
  contains (d1 ++ d2) k = contains d1 k || contains d2 k.
Proof.
  induction d1 as [|[k' v'] d1 IH]; simpl; [done|].
  by rewrite IH, orb_assoc.
Qed.

Lemma get_app (d1 d2 : dict) (k : pystr) (dflt : json) :
  get (d1 ++ d2) k dflt = if contains d1 k then get d1 k dflt else get d2 k dflt.
Proof.
  induction d1 as [|[k' v'] d1 IH]; simpl; [done|].
  destruct (PyStr.eqb k' k); simpl; [done|apply IH].
Qed.

Lemma get_missing (d : dict) (k : pystr) (dflt : json) :
  contains d k = false -> get d k dflt = dflt.
Proof.
  induction d as [|[k' v'] d IH]; simpl; [done|].
  destruct (PyStr.eqb k' k); simpl; [done|apply IH].
Qed.

Lemma get_set_key_eq (d : dict) (k : pystr) (v dflt : json) :
  get (set_key d k v) k dflt = v.
Proof.
  unfold set_key. destruct (contains d k) eqn:Hc.
  - induction d as [|[k' v'] d IH]; simpl in *; [done|].
    destruct (PyStr.eqb k' k) eqn:He; simpl; rewrite He; [done|].
    by apply IH.
  - rewrite get_app, Hc. simpl. by rewrite eqb_refl.
Qed.

Lemma contains_set_key_eq (d : dict) (k : pystr) (v : json) :
  contains (set_key d k v) k = true.
Proof.
  unfold set_key. destruct (contains d k) eqn:Hc.
  - induction d as [|[k' v'] d IH]; simpl in *; [done|].
    destruct (PyStr.eqb k' k) eqn:He; simpl; rewrite He; [done|].
    by apply IH.
  - rewrite contains_app. simpl. by rewrite eqb_refl, orb_true_r.
Qed.

Lemma get_set_key_ne (d : dict) (k k' : pystr) (v dflt : json) :
  k' <> k -> get (set_key d k v) k' dflt = get d k' dflt.
Proof.
  intros Hne. unfold set_key. destruct (contains d k).
  - induction d as [|[k0 v0] d IH]; simpl; [done|].
    destruct (PyStr.eqb k0 k) eqn:He; simpl.
    + apply eqb_eq in He as ->.
      assert (PyStr.eqb k k' = false) as -> by (apply bool_decide_eq_false; congruence).
      apply IH.
    + destruct (PyStr.eqb k0 k'); [done|apply IH].
  - rewrite get_app. destruct (contains d k') eqn:Hc'; [done|]. simpl.
    assert (PyStr.eqb k k' = false) as -> by (apply bool_decide_eq_false; congruence).
    by rewrite get_missing.
Qed.

End DictFacts.

(** ** Requests and responses through the reader loop *)
Section ReaderFacts.
Import Connection Reader.

Lemma get_default_irrelevant (d : dict) (k : pystr) (a b : json) :
  contains d k = true -> get d k a = get d k b.
Proof.
  induction d as [|[k' v'] d IH]; simpl; [done|].
  destruct (PyStr.eqb k' k); simpl; [done|apply IH].
Qed.

(** The [echo] dict [stamp] starts from. *)
Definition echo_of (data : dict) : dict :=
  match get data (py "echo") (JObj []) with
  | JObj e => if contains data (py "echo") then e else []
  | _ => []
  end.

Lemma stamp_set_key (data : dict) (request_id : pystr) :
  stamp data request_id
  = set_key data (py "echo")
      (JObj (set_key (echo_of data) (py "request_id") (JStr request_id))).
Proof. reflexivity. Qed.

(** X1: the request id [send] stamps into a frame is the one the reader
    reads off a frame carrying the same [echo]; stamping changes no other
    field of the frame and no other field of an [echo] dict that was
    already there. *)
Theorem stamped_request_id_is_read_back (data : dict) (request_id : pystr) :
  request_id_of (JObj (stamp data request_id)) = Ok (Some (JStr request_id)) /\
  (forall k dflt, k <> py "echo" ->
                  get (stamp data request_id) k dflt = get data k dflt) /\
  (forall e k dflt,
      contains data (py "echo") = true ->
      get data (py "echo") JNull = JObj e ->
      k <> py "request_id" ->
      exists e', get (stamp data request_id) (py "echo") JNull = JObj e' /\
                 get e' k dflt = get e k dflt).
Proof.
  rewrite stamp_set_key. split; [|split].
  - unfold request_id_of, has_echo. cbn [bind].
    rewrite contains_set_key_eq, get_set_key_eq, contains_set_key_eq.
    by rewrite get_set_key_eq.
  - intros k dflt Hk. by apply get_set_key_ne.
  - intros e k dflt Hc He Hk. eexists. split; [apply get_set_key_eq|].
    rewrite get_set_key_ne by done. unfold echo_of.
    by rewrite (get_default_irrelevant _ _ _ JNull Hc), He, Hc.
Qed.

Lemma register_fields (c : connection) (h : heap) (request_id : pystr) :
  register c h request_id
  = (set_pending c (<[request_id := length h]> (_pending_requests c)),
     h ++ [FPending]).
Proof. reflexivity. Qed.

Lemma fresh_future_pending (h : heap) : (h ++ [FPending]) !! length h = Some FPending.
Proof. by rewrite lookup_app_r, Nat.sub_diag by lia. Qed.

Lemma done_insert (h : heap) (f : nat) (s : future_state) :
  s <> FPending -> done (<[f := s]> h) f = true.
Proof.
  intros Hs. unfold done.
  destruct (decide (f < length h)%nat) as [Hlt|Hge].
  - rewrite list_lookup_insert_eq by done. by destruct s.
  - rewrite list_insert_ge by lia.
    by rewrite (proj2 (lookup_ge_None h f)) by lia.
Qed.

(** After [wait_for] the awaited future is done, however the wait ended. *)
Lemma wait_for_done (h : heap) (f : nat) (timeout : Q)
  (completed : option (Q * future_state)) :
  done (wait_for h f timeout completed).1.2 f = true.
Proof.
  unfold wait_for. destruct completed as [[t s]|]; simpl; [|apply done_cancel].
  destruct (Qle_bool t 0); [|destruct (Qle_bool timeout t)];
    try apply done_cancel; destruct s; simpl;
    try apply done_cancel; by apply done_insert.
Qed.

(** The clauses of [send] leave the id out of the table whenever the
    future is done or the exception is one they handle. *)
Lemma finally_releases (c : connection) (h : heap) (request_id : pystr) (f : nat) :
  done h f = true \/ _pending_requests c !! request_id = None ->
  _pending_requests
    (if bool_decide (is_Some (_pending_requests c !! request_id)) && done h f
     then (set_pending c (delete request_id (_pending_requests c)), h)
     else (c, h)).1 !! request_id = None.
Proof.
  intros H. case_bool_decide as Hreg; cbn [andb].
  - destruct (done h f) eqn:Hd; simpl; [apply lookup_delete_eq|].
    destruct H as [?|H]; [done|]. rewrite H in Hreg. by destruct Hreg.
  - by apply eq_None_not_Some.
Qed.

(** The clauses of [send] leave the id out of the table whenever the
    future is done or the exception is one they handle. *)
Lemma send_cleanup_releases (c : connection) (h : heap) (request_id : pystr)
  (f : nat) (raised : option exn) :
  PyStr.truthy request_id = true ->
  (done h f = true \/
   exists e, raised = Some e /\ (is_Exception e = true \/ e = KeyboardInterrupt)) ->
  _pending_requests (send_cleanup c h request_id f raised).1 !! request_id = None.
Proof.
  intros Hid Hcase. unfold send_cleanup. rewrite Hid. cbn [andb].
  destruct (done h f) eqn:Hd.
  - destruct raised as [[]|]; rewrite ?andb_false_r;
      apply finally_releases; by left.
  - destruct Hcase as [?|(e & -> & He)]; [done|]. rewrite !andb_true_r.
    destruct (_pending_requests c !! request_id) as [g|] eqn:Hg.
    + rewrite bool_decide_eq_true_2 by done. rewrite ?andb_true_r.
      destruct e; simpl in He; try (by destruct He); cbn [is_Exception];
        apply finally_releases;
        try (right; simpl; apply lookup_delete_eq).
      left. apply done_cancel.
    + rewrite bool_decide_eq_false_2 by (by intros [? ?]). rewrite ?andb_false_r.
      destruct e; apply finally_releases; by right.
Qed.

(** The connection and the futures a call of [send] leaves. *)
Definition connection_after
  (o : result (option json) * connection * heap * option dict * Q)
  : connection := o.1.1.1.2.
Definition futures_after
  (o : result (option json) * connection * heap * option dict * Q)
  : heap := o.1.1.2.

Lemma send_table_released (c : connection) (h : heap) (data : dict)
  (request_id : pystr) (env : suspension) :
  websocket c = true ->
  PyStr.truthy request_id = true ->
  xmit env <> Some CancelledError ->
  pending_after (send c h data true request_id env) !! request_id = None.
Proof.
  intros Hws Hid Hx. unfold pending_after, send. rewrite Hws. cbn [negb].
  destruct (others env (register c h request_id)) as [c1 h1].
  destruct (xmit env) as [e|] eqn:He.
  - pose proof (send_cleanup_releases c1 h1 request_id (length h) (Some e) Hid) as H.
    destruct (send_cleanup c1 h1 request_id (length h) (Some e)) as [c2 h2].
    simpl in *. apply H. right. exists e. split; [done|].
    destruct e; simpl; auto.
  - pose proof (wait_for_done h1 (length h) (_request_timeout c1) (completed env)) as Hd.
    destruct (wait_for h1 (length h) (_request_timeout c1) (completed env))
      as [[r h2] waited]. simpl in Hd.
    destruct r as [d|e].
    + pose proof (send_cleanup_releases c1 h2 request_id (length h) None Hid) as H.
      destruct (send_cleanup c1 h2 request_id (length h) None) as [c3 h3].
      simpl in *. apply H. by left.
    + pose proof (send_cleanup_releases c1 h2 request_id (length h) (Some e) Hid) as H.
      destruct (send_cleanup c1 h2 request_id (length h) (Some e)) as [c3 h3].
      simpl in *. apply H. by left.
Qed.

(** X2: whatever happens to a [send] that awaits a response (a response,
    a timeout, a failure or an interrupt while transmitting, a close
    meanwhile), its request id is out of the pending-request table when it
    ends.  The one exception is a [send] cancelled while it transmits: its
    request stays in the table, with a future nobody completes. *)
Theorem send_releases_request_id (c : connection) (h : heap) (data : dict)
  (request_id : pystr) (env : suspension) :
  websocket c = true ->
  PyStr.truthy request_id = true ->
  (xmit env <> Some CancelledError ->
   pending_after (send c h data true request_id env) !! request_id = None) /\
  (xmit env = Some CancelledError ->
   others env (register c h request_id) = register c h request_id ->
   pending_after (send c h data true request_id env) !! request_id
   = Some (length h) /\
   futures_after (send c h data true request_id env) !! length h = Some FPending).
Proof.
  intros Hws Hid. split; [by apply send_table_released|].
  intros Hx Ho. unfold pending_after, futures_after, send.
  rewrite Hws, Ho, Hx, register_fields. cbn [negb].
  unfold send_cleanup. rewrite Hid. cbn [andb is_Exception].
  assert (Hd : done (h ++ [FPending]) (length h) = false)
    by (unfold done; by rewrite fresh_future_pending).
  rewrite Hd, andb_false_r. simpl.
  split; [apply lookup_insert_eq|apply fresh_future_pending].
Qed.

(** A send that is cancelled while the frame is being written. *)
Definition cancelled_in_transit : suspension :=
  {| xmit := Some CancelledError; completed := None; others := fun w => w |}.

Lemma send_releases_request_id_witness :
  pending_after (send one_pending [FPending] [] true (py "abc123") unanswered)
    !! py "abc123" = None /\
  pending_after (send one_pending [FPending] [] true (py "abc123") cancelled_in_transit)
    !! py "abc123" = Some 1%nat.
Proof.
  pose proof (send_releases_request_id one_pending [FPending] [] (py "abc123")
                unanswered eq_refl eq_refl) as [H1 _].
  pose proof (send_releases_request_id one_pending [FPending] [] (py "abc123")
                cancelled_in_transit eq_refl eq_refl) as [_ H2].
  split; [apply H1; discriminate|exact (proj1 (H2 eq_refl eq_refl))].
Defined.


(** How the reader completes the future of a request from its
    response. *)
Definition completion (rt : runtime) (reply : json) : future_state :=
  if is_error reply then FException (server_error rt reply) else FResult reply.

Lemma done_pending (h : heap) (f : nat) : done h f = false <-> h !! f = Some FPending.
Proof. unfold done. destruct (h !! f) as [[]|]; split; congruence. Qed.

(** A response whose request is waiting completes its future and nothing
    else. *)
Lemma reply_completes_pending (rt : runtime) (c : connection) (h : heap)
  (request_id : pystr) (f : nat) (reply : json) :
  request_id_of reply = Ok (Some (JStr request_id)) ->
  PyStr.truthy request_id = true ->
  _pending_requests c !! request_id = Some f ->
  h !! f = Some FPending ->
  _listen_loop_step rt (c, h) (Some reply) = (c, <[f := completion rt reply]> h).
Proof.
  intros Hrid Hid Hf Hp. unfold _listen_loop_step, on_frame. cbn [fst snd].
  rewrite Hrid. cbn [bind truth pending_get]. rewrite Hid, Hf.
  apply done_pending in Hp. rewrite Hp. cbn [negb].
  unfold completion, set_exception. by destruct (is_error reply).
Qed.

(** A frame that names a request nobody waits for goes to the queue. *)
Lemma reply_without_request_is_queued (rt : runtime) (c : connection) (h : heap)
  (request_id : pystr) (reply : json) :
  request_id_of reply = Ok (Some (JStr request_id)) ->
  (_pending_requests c !! request_id = None \/
   exists f, _pending_requests c !! request_id = Some f /\ done h f = true) ->
  _listen_loop_step rt (c, h) (Some reply) = (put c (Some reply), h).
Proof.
  intros Hrid Hcase. unfold _listen_loop_step, on_frame. cbn [fst snd].
  rewrite Hrid. cbn [bind truth pending_get].
  destruct (PyStr.truthy request_id); [|done].
  destruct Hcase as [->|(f & -> & ->)]; done.
Qed.

(** The clauses of [send] never touch the event queue. *)
Lemma send_cleanup_queue (c : connection) (h : heap) (request_id : pystr)
  (f : nat) (raised : option exn) :
  _message_queue (send_cleanup c h request_id f raised).1 = _message_queue c.
Proof.
  unfold send_cleanup.
  destruct raised as [[]|]; cbn [is_Exception andb];
    repeat match goal with
           | |- context [if ?b then _ else _] => destruct b
           | |- context [match ?o with Some _ => _ | None => _ end] => destruct o
           end; done.
Qed.

(** X3: a response that arrives within the window reaches the [send] that
    made the request: the reader completes the future registered under
    the request id echoed by the response (with an exception made of the
    server's message when the status is [error]), [send] returns that
    response or raises that exception, the request id leaves the table
    and nothing is put in the event queue. *)
Theorem response_reaches_its_sender (rt : runtime) (c : connection) (h : heap)
  (data : dict) (request_id : pystr) (reply : json) (t : Q) :
  websocket c = true ->
  PyStr.truthy request_id = true ->
  request_id_of reply = Ok (Some (JStr request_id)) ->
  Qle_bool t 0 = false ->
  Qle_bool (_request_timeout c) t = false ->
  let env := {| xmit := None;
                completed := Some (t, completion rt reply);
                others := fun w => _listen_loop_step rt w (Some reply) |} in
  (others env (register c h request_id)).2 !! length h = Some (completion rt reply) /\
  returned (send c h data true request_id env)
  = (if is_error reply then Raise (server_error rt reply) else Ok (Some reply)) /\
  pending_after (send c h data true request_id env) !! request_id = None /\
  _message_queue (connection_after (send c h data true request_id env))
  = _message_queue c.
Proof.
  intros Hws Hid Hrid Ht0 Ht env.
  assert (Hstep : others env (register c h request_id)
                  = ((register c h request_id).1,
                     <[length h := completion rt reply]> (h ++ [FPending]))).
  { unfold env. cbn [others]. rewrite register_fields.
    apply (reply_completes_pending rt _ _ request_id); auto.
    - apply lookup_insert_eq.
    - apply fresh_future_pending. }
  split; [|split; [|split]].
  - rewrite Hstep. cbn [snd]. apply list_lookup_insert_eq.
    rewrite length_app. simpl. lia.
  - unfold returned, send. rewrite Hws, Hstep. cbn [negb fst snd xmit completed env].
    rewrite register_fields. cbn [fst _request_timeout set_pending].
    unfold wait_for. rewrite Ht0, Ht. unfold completion.
    destruct (is_error reply).
    + match goal with |- context [send_cleanup ?a ?b ?c ?d ?e] =>
        destruct (send_cleanup a b c d e) end. by unfold server_error.
    + match goal with |- context [send_cleanup ?a ?b ?c ?d ?e] =>
        destruct (send_cleanup a b c d e) end. done.
  - by apply send_table_released.
  - unfold connection_after, send. rewrite Hws, Hstep. cbn [negb fst snd xmit completed env].
    rewrite register_fields. cbn [fst _request_timeout set_pending].
    unfold wait_for. rewrite Ht0, Ht. unfold completion.
    destruct (is_error reply);
      match goal with |- context [send_cleanup ?a ?b ?c ?d ?e] =>
        pose proof (send_cleanup_queue a b c d e) as Hq;
        destruct (send_cleanup a b c d e) end; exact Hq.
Qed.

(** A response of the server to the request [abc123], and the session in
    which the reader receives it two seconds into the wait. *)
Definition ok_reply : json :=
  JObj [(py "status", JStr (py "ok")); (py "retcode", JNum 0);
        (py "echo", JObj [(py "request_id", JStr (py "abc123"))])].

Definition reader_delivers (rt : runtime) (reply : json) (t : Q) : suspension :=
  {| xmit := None;
     completed := Some (t, completion rt reply);
     others := fun w => _listen_loop_step rt w (Some reply) |}.

Lemma response_reaches_its_sender_witness :
  returned (send one_pending [FPending] [] true (py "abc123")
              (reader_delivers sample_runtime ok_reply (2 # 1)))
  = Ok (Some ok_reply).
Proof.
  exact (proj1 (proj2 (response_reaches_its_sender sample_runtime one_pending
                         [FPending] [] (py "abc123") ok_reply (2 # 1)
                         eq_refl eq_refl eq_refl eq_refl eq_refl))).
Defined.

(** X4: a response is delivered once.  Of two copies of a response to a
    waiting request the first completes the future and the second is put
    in the event queue, leaving the future as the first made it. *)
Theorem duplicate_response_is_queued (rt : runtime) (c : connection) (h : heap)
  (request_id : pystr) (f : nat) (reply : json) :
  request_id_of reply = Ok (Some (JStr request_id)) ->
  PyStr.truthy request_id = true ->
  _pending_requests c !! request_id = Some f ->
  h !! f = Some FPending ->
  _listen_loop rt c h [Some reply; Some reply]
  = (put c (Some reply), <[f := completion rt reply]> h).
Proof.
  intros Hrid Hid Hf Hp. unfold _listen_loop. cbn [fold_left].
  rewrite (reply_completes_pending rt c h request_id f) by done.
  apply (reply_without_request_is_queued rt c _ request_id); [done|].
  right. exists f. split; [done|]. apply done_insert.
  unfold completion. by destruct (is_error reply).
Qed.

Lemma duplicate_response_is_queued_witness :
  _listen_loop sample_runtime one_pending [FPending]
    [Some (JObj [(py "echo", JObj [(py "request_id", JStr (py "r1"))])]);
     Some (JObj [(py "echo", JObj [(py "request_id", JStr (py "r1"))])])]
  = (put one_pending (Some (JObj [(py "echo", JObj [(py "request_id", JStr (py "r1"))])])),
     [FResult (JObj [(py "echo", JObj [(py "request_id", JStr (py "r1"))])])]).
Proof.
  exact (duplicate_response_is_queued sample_runtime one_pending [FPending]
           (py "r1") 0 (JObj [(py "echo", JObj [(py "request_id", JStr (py "r1"))])])
           eq_refl eq_refl eq_refl eq_refl).
Defined.

(** X5: once a [send] has ended (by timeout, failure or otherwise, short
    of being cancelled while transmitting), a frame that echoes its
    request id is no longer taken for a response: the reader puts it in
    the event queue, where [listen] yields it like an event. *)
Theorem late_response_becomes_event (rt : runtime) (c : connection) (h : heap)
  (data : dict) (request_id : pystr) (env : suspension) (reply : json) :
  websocket c = true ->
  PyStr.truthy request_id = true ->
  xmit env <> Some CancelledError ->
  request_id_of reply = Ok (Some (JStr request_id)) ->
  let o := send c h data true request_id env in
  _listen_loop_step rt (connection_after o, futures_after o) (Some reply)
  = (put (connection_after o) (Some reply), futures_after o).
Proof.
  intros Hws Hid Hx Hrid o.
  apply (reply_without_request_is_queued rt _ _ request_id); [done|].
  left. by apply send_table_released.
Qed.

Lemma late_response_becomes_event_witness :
  let o := send one_pending [FPending] [] true (py "abc123") unanswered in
  returned o = Raise TimeoutError /\
  listen (_message_queue
            (_listen_loop_step sample_runtime (connection_after o, futures_after o)
               (Some ok_reply)).1)
  = [ok_reply].
Proof.
  split; [reflexivity|].
  rewrite (late_response_becomes_event sample_runtime one_pending [FPending] []
             (py "abc123") unanswered ok_reply eq_refl eq_refl
             ltac:(discriminate) eq_refl).
  reflexivity.
Defined.


(** What one pass of the reader keeps. *)
Lemma listen_step_keeps (rt : runtime) (c : connection) (h : heap)
  (message : option json) :
  let s' := _listen_loop_step rt (c, h) message in
  _pending_requests s'.1 = _pending_requests c /\
  websocket s'.1 = websocket c /\
  _is_closing s'.1 = _is_closing c /\
  length s'.2 = length h /\
  (forall g s, h !! g = Some s -> s <> FPending -> s'.2 !! g = Some s) /\
  (_message_queue s'.1 = _message_queue c \/
   exists data, message = Some data /\
                _message_queue s'.1 = _message_queue c ++ [Some data]).
Proof.
  assert (Hput : forall data,
    let s' := (put c (Some data), h) in
    _pending_requests s'.1 = _pending_requests c /\
    websocket s'.1 = websocket c /\
    _is_closing s'.1 = _is_closing c /\
    length s'.2 = length h /\
    (forall g s, h !! g = Some s -> s <> FPending -> s'.2 !! g = Some s) /\
    (_message_queue s'.1 = _message_queue c \/
     exists data', Some data = Some data' /\
                   _message_queue s'.1 = _message_queue c ++ [Some data'])).
  { intros data. simpl. repeat split; auto. right. by exists data. }
  assert (Hset : forall f s0 (data : json), done h f = false -> s0 <> FPending ->
    let s' := (c, <[f := s0]> h) in
    _pending_requests s'.1 = _pending_requests c /\
    websocket s'.1 = websocket c /\
    _is_closing s'.1 = _is_closing c /\
    length s'.2 = length h /\
    (forall g s, h !! g = Some s -> s <> FPending -> s'.2 !! g = Some s) /\
    (_message_queue s'.1 = _message_queue c \/
     exists data', Some data = Some data' /\
                   _message_queue s'.1 = _message_queue c ++ [Some data'])).
  { intros f s0 data Hd Hs0. simpl. repeat split; auto.
    - apply length_insert.
    - intros g s Hg Hs. apply done_pending in Hd.
      rewrite list_lookup_insert_ne; [done|]. intros ->. congruence. }
  destruct message as [data|]; [|simpl; repeat split; auto].
  unfold _listen_loop_step, on_frame. cbn [fst snd].
  destruct (request_id_of data) as [[request_id|]|e]; cbn [bind];
    [|apply Hput|simpl; repeat split; auto].
  destruct (truth request_id); [|apply Hput].
  destruct (pending_get c request_id) as [[f|]|e]; cbn [bind];
    [|apply Hput|simpl; repeat split; auto].
  destruct (done h f) eqn:Hd; cbn [negb]; [apply Hput|].
  destruct (is_error data); by apply Hset.
Qed.

(** What the reader keeps over a sequence of frames. *)
Lemma listen_loop_keeps (rt : runtime) (messages : list (option json))
  (c : connection) (h : heap) :
  let s' := _listen_loop rt c h messages in
  _pending_requests s'.1 = _pending_requests c /\
  websocket s'.1 = websocket c /\
  _is_closing s'.1 = _is_closing c /\
  length s'.2 = length h /\
  (forall g s, h !! g = Some s -> s <> FPending -> s'.2 !! g = Some s) /\
  exists queued,
    _message_queue s'.1 = _message_queue c ++ (Some <$> queued) /\
    queued `sublist_of` omap id messages.
Proof.
  unfold _listen_loop. revert c h.
  induction messages as [|m ms IH]; intros c h.
  - simpl. repeat split; auto. exists []. by rewrite app_nil_r.
  - cbn [fold_left].
    pose proof (listen_step_keeps rt c h m) as (Hp & Hw & Hc & Hl & Hd & Hq).
    destruct (_listen_loop_step rt (c, h) m) as [c1 h1]. cbn [fst snd] in *.
    destruct (IH c1 h1) as (Hp' & Hw' & Hc' & Hl' & Hd' & queued & Hq' & Hsub).
    cbv zeta. rewrite Hp', Hw', Hc', Hl', Hq'. repeat split; auto.
    destruct Hq as [Hq|(data & -> & Hq)]; rewrite Hq.
    + exists queued. split; [done|].
      destruct m; csimpl; [by apply sublist_cons|done].
    + exists (data :: queued). split; [by rewrite <- app_assoc|].
      csimpl. by apply sublist_skip.
Qed.


(** X6: over any sequence of frames, decodable or not, the reader never
    adds or removes an entry of the pending-request table, never opens or
    closes the session, never creates a future and never changes a future
    that is done; the event queue only grows, by frames of the sequence in
    the order they arrived. *)
Theorem reader_invariants (rt : runtime) (messages : list (option json))
  (c : connection) (h : heap) :
  let s' := _listen_loop rt c h messages in
  _pending_requests s'.1 = _pending_requests c /\
  websocket s'.1 = websocket c /\
  _is_closing s'.1 = _is_closing c /\
  length s'.2 = length h /\
  (forall g s, h !! g = Some s -> s <> FPending -> s'.2 !! g = Some s) /\
  exists queued,
    _message_queue s'.1 = _message_queue c ++ (Some <$> queued) /\
    queued `sublist_of` omap id messages.
Proof. apply listen_loop_keeps. Qed.

Lemma listen_app (q : list (option json)) (frames : list json) :
  None ∉ q -> listen (q ++ (Some <$> frames)) = listen q ++ frames.
Proof.
  induction q as [|[m|] q IH]; intros Hq.
  - simpl. induction frames as [|d frames IHf]; csimpl; [done|by rewrite IHf].
  - simpl. rewrite IH; [done|]. intros H. apply Hq. by right.
  - exfalso. apply Hq. by left.
Qed.

(** X7: frames that carry no request id are events: the reader leaves the
    futures alone and queues every one of them, and [listen] yields them
    to the consumer in the order they arrived, after what was queued
    before. *)
Theorem events_are_delivered_in_order (rt : runtime) (frames : list json)
  (c : connection) (h : heap) :
  Forall (fun data => request_id_of data = Ok None) frames ->
  None ∉ _message_queue c ->
  _listen_loop rt c h (Some <$> frames)
  = (set_queue c (_message_queue c ++ (Some <$> frames)), h) /\
  listen (_message_queue (_listen_loop rt c h (Some <$> frames)).1)
  = listen (_message_queue c) ++ frames.
Proof.
  intros Hev Hq.
  assert (Hloop : _listen_loop rt c h (Some <$> frames)
                  = (set_queue c (_message_queue c ++ (Some <$> frames)), h)).
  { clear Hq. unfold _listen_loop. revert c.
    induction Hev as [|data frames Hd _ IH]; intros c.
    - simpl. rewrite app_nil_r. by destruct c.
    - csimpl. unfold on_frame. rewrite Hd. cbn [bind].
      rewrite IH. unfold put, set_queue. simpl. by rewrite <- app_assoc. }
  split; [done|]. rewrite Hloop. simpl. by apply listen_app.
Qed.

(** Two events of the protocol, neither with an [echo]. *)
Definition heartbeat : json :=
  JObj [(py "post_type", JStr (py "meta_event"));
        (py "meta_event_type", JStr (py "heartbeat"))].
Definition poke : json :=
  JObj [(py "post_type", JStr (py "notice")); (py "notice_type", JStr (py "notify"));
        (py "sub_type", JStr (py "poke"))].

Lemma events_are_delivered_in_order_witness :
  listen (_message_queue
            (_listen_loop sample_runtime one_pending [FPending]
               [Some heartbeat; Some poke]).1)
  = [heartbeat; poke].
Proof.
  refine (proj2 (events_are_delivered_in_order sample_runtime [heartbeat; poke]
                   one_pending [FPending] _ _)).
  - repeat constructor.
  - apply not_elem_of_nil.
Defined.

(** X8: [close] is final.  A second [close] changes nothing and cancels
    nothing; on the closed session [send] registers no request and hands
    nothing to the socket, raising [ConnectionError] when a response was
    asked for; [connect] returns failure without an attempt; a reconnect
    does nothing; and [listen] yields nothing, whatever a reader still
    running puts in the queue. *)
Theorem close_is_final (c : connection) (h : heap) :
  let c' := closed c h in
  (forall h', close c' h' = (c', h', [])) /\
  (forall h' data wait_for_response request_id env,
      send c' h' data wait_for_response request_id env
      = (if wait_for_response then Raise ConnectionError else Ok None,
         c', h', None, 0%Q)) /\
  (forall fuel net is_reconnect,
      connect (S fuel) net c' is_reconnect = (Some false, [], c')) /\
  (forall fuel net, _reconnect_loop fuel net c' = (Some c', [])) /\
  (forall rt h' messages,
      listen (_message_queue (_listen_loop rt c' h' messages).1) = []).
Proof.
  unfold closed, close.
  destruct (cancel_all (map_to_list (_pending_requests c)) h) as [h0 cancelled].
  cbn [fst]. split; [|split; [|split; [|split]]].
  - intros h'. reflexivity.
  - intros h' data w request_id env. reflexivity.
  - intros fuel net is_reconnect. by apply connect_stops_when_closing.
  - intros fuel net. reflexivity.
  - intros rt h' messages.
    match goal with |- context [_listen_loop rt ?c0 h' messages] =>
      destruct (listen_loop_keeps rt messages c0 h')
        as (_ & _ & _ & _ & _ & queued & -> & _) end.
    done.
Qed.


(** The pass of [connect] at which the server first answers otherwise
    than by refusing. *)
Lemma connect_loop_first_answer (net : network) (mode : bool) (c : connection)
  (k : nat) :
  _is_closing c = false ->
  forall fuel retries,
    (forall j, (retries <= j < retries + k)%nat -> outcome net j = Refused) ->
    (forall j, (retries <= j <= retries + k)%nat -> closing_set net j = false) ->
    (mode = false -> Z.of_nat (retries + k) < max_retries c) ->
    (k < fuel)%nat ->
    connect_loop fuel net mode retries c
    = match outcome net (retries + k) with
      | Accepted =>
          (Some true, schedule_from retries k ++ [Attempt (retries + k)],
           set_connected c)
      | Interrupted =>
          (Some false, schedule_from retries k ++ [Attempt (retries + k)],
           set_closing c)
      | Refused => connect_loop fuel net mode retries c
      end.
Proof.
  intros Hc. induction k as [|k IH]; intros fuel retries Href Hcl Hmax Hf;
    (destruct fuel as [|fuel]; [lia|]).
  - rewrite Nat.add_0_r in *. simpl.
    assert (mode || (Z.of_nat retries <? max_retries c) = true) as ->.
    { destruct mode; [done|]. simpl. apply Z.ltb_lt. by apply Hmax. }
    rewrite Hc, (Hcl retries) by lia. simpl.
    by destruct (outcome net retries) eqn:Ho; simpl; rewrite ?Ho.
  - destruct (outcome net (retries + S k)) eqn:Ho; [| done |].
    + simpl.
      assert (mode || (Z.of_nat retries <? max_retries c) = true) as ->.
      { destruct mode; [done|]. simpl. apply Z.ltb_lt. specialize (Hmax eq_refl). lia. }
      rewrite Hc, (Hcl retries), (Href retries) by lia. simpl.
      assert ((Z.of_nat (S retries) <? max_retries c) || mode = true) as ->.
      { destruct mode; [by rewrite orb_true_r|]. rewrite orb_false_r.
        apply Z.ltb_lt. specialize (Hmax eq_refl). lia. }
      rewrite (IH fuel (S retries)); try lia.
      * replace (S retries + k)%nat with (retries + S k)%nat by lia. by rewrite Ho.
      * intros j Hj. apply Href. lia.
      * intros j Hj. apply Hcl. lia.
      * intros Hm. specialize (Hmax Hm). lia.
    + simpl.
      assert (mode || (Z.of_nat retries <? max_retries c) = true) as ->.
      { destruct mode; [done|]. simpl. apply Z.ltb_lt. specialize (Hmax eq_refl). lia. }
      rewrite Hc, (Hcl retries), (Href retries) by lia. simpl.
      assert ((Z.of_nat (S retries) <? max_retries c) || mode = true) as ->.
      { destruct mode; [by rewrite orb_true_r|]. rewrite orb_false_r.
        apply Z.ltb_lt. specialize (Hmax eq_refl). lia. }
      rewrite (IH fuel (S retries)); try lia.
      * replace (S retries + k)%nat with (retries + S k)%nat by lia. by rewrite Ho.
      * intros j Hj. apply Href. lia.
      * intros j Hj. apply Hcl. lia.
      * intros Hm. specialize (Hmax Hm). lia.
Qed.

(** X9: [connect] ends at the first attempt the server does not refuse,
    provided no close comes first and, for an initial connect, the attempt
    is within [max_retries].  When the attempt is accepted it returns
    success with the socket set and a listener task running; when it is
    interrupted from the keyboard it returns failure and marks the session
    as closing.  Before it, every refused attempt was followed by its
    wait; the pending requests and the queue are as they were. *)
Theorem connect_ends_at_first_answer (fuel : nat) (net : network) (c : connection)
  (is_reconnect : bool) (k : nat) :
  _is_closing c = false ->
  (forall j, (j < k)%nat -> outcome net j = Refused) ->
  (forall j, (j <= k)%nat -> closing_set net j = false) ->
  (is_reconnect = false -> Z.of_nat k < max_retries c) ->
  (k < fuel)%nat ->
  outcome net k <> Refused ->
  connect fuel net c is_reconnect
  = (Some (match outcome net k with Accepted => true | _ => false end),
     schedule_from 0 k ++ [Attempt k],
     match outcome net k with Accepted => set_connected c | _ => set_closing c end).
Proof.
  intros Hc Href Hcl Hmax Hf Hans. unfold connect.
  rewrite (connect_loop_first_answer net is_reconnect c k Hc fuel 0); simpl; auto.
  - by destruct (outcome net k).
  - intros j Hj. apply Href. lia.
  - intros j Hj. apply Hcl. lia.
Qed.

(** A server that refuses twice and then accepts. *)
Definition third_time_lucky : network :=
  {| outcome := fun k => if (k <? 2)%nat then Refused else Accepted;
     closing_set := fun _ => false |}.

Lemma connect_ends_at_first_answer_witness :
  connect 5 third_time_lucky fresh_session false
  = (Some true, [Attempt 0; Sleep 2; Attempt 1; Sleep 4; Attempt 2],
     set_connected fresh_session).
Proof.
  refine (connect_ends_at_first_answer 5 third_time_lucky fresh_session false 2
            eq_refl _ (fun _ _ => eq_refl) (fun _ => eq_refl) _ _).
  - intros j Hj. simpl. by destruct j as [|[|j]]; [..|lia].
  - lia.
  - discriminate.
Defined.


(** How a [connect] that returns leaves the session. *)
Lemma connect_loop_returns (net : network) (mode : bool) (c : connection) :
  forall fuel retries r t c',
    connect_loop fuel net mode retries c = (Some r, t, c') ->
    if r then c' = set_connected c
    else (c' = c \/ c' = set_closing c) /\
         (mode = true ->
          _is_closing c' = true \/ exists k, closing_set net k = true).
Proof.
  induction fuel as [|fuel IH]; intros retries r t c' H; simpl in H; [done|].
  destruct (negb (mode || (Z.of_nat retries <? max_retries c))) eqn:Hw.
  { injection H as <- <- <-. split; [by left|]. intros ->. done. }
  destruct (_is_closing c) eqn:Hc; cbn [orb] in H.
  { injection H as <- <- <-. split; [by left|]. intros _. by left. }
  destruct (closing_set net retries) eqn:Hk.
  { injection H as <- <- <-. split; [by left|]. intros _. right. by exists retries. }
  destruct (outcome net retries).
  - by injection H as <- <- <-.
  - destruct ((Z.of_nat (S retries) <? max_retries c) || mode) eqn:Hm.
    + destruct (connect_loop fuel net mode (S retries) c) as [[r0 t0] c0] eqn:Hr.
      injection H as -> <- <-. by apply (IH _ _ _ _ Hr).
    + destruct mode; [by rewrite orb_true_r in Hm|]. cbn [negb] in H.
      injection H as <- <- <-. split; [by left|]. done.
  - injection H as <- <- <-. split; [by right|]. intros _. by left.
Qed.

(** X10: a reconnect after an unexpected disconnection is not bounded by
    [max_retries].  When it returns, either the session was already
    closing and nothing was done; or the connection is back, with the
    queue as it was; or it gave up and posted the sentinel that ends
    [listen], and then the session is closing (a close came meanwhile or
    an attempt was interrupted from the keyboard).  It never touches the
    pending requests. *)
Theorem reconnect_gives_up_only_when_closing (fuel : nat) (net : network)
  (c c' : connection) (t : list action) :
  _reconnect_loop fuel net c = (Some c', t) ->
  _pending_requests c' = _pending_requests c /\
  ((_is_closing c = true /\ c' = c /\ t = []) \/
   (websocket c' = true /\ _listener_task c' = Some Running /\
    _message_queue c' = _message_queue c) \/
   (websocket c' = false /\ _message_queue c' = _message_queue c ++ [None] /\
    (_is_closing c' = true \/ exists k, closing_set net k = true))).
Proof.
  unfold _reconnect_loop, connect. intros H.
  destruct (_is_closing c) eqn:Hc.
  { injection H as <- <-. split; [done|]. by left. }
  destruct (connect_loop fuel net true 0 (set_disconnected c)) as [[[r|] t0] c0] eqn:Hr;
    [|done].
  pose proof (connect_loop_returns net true _ _ _ _ _ _ Hr) as Hret.
  destruct r; injection H as <- <-.
  - subst c0. split; [done|]. right; left. done.
  - destruct Hret as [[-> | ->] Hwhy]; (split; [done|]); right; right;
      (split; [done|]); (split; [done|]); by apply Hwhy.
Qed.

(** A server that is back at the second attempt. *)
Definition back_soon : network :=
  {| outcome := fun k => if (k <? 1)%nat then Refused else Accepted;
     closing_set := fun _ => false |}.

Lemma reconnect_gives_up_only_when_closing_witness :
  _reconnect_loop 3 back_soon one_pending
  = (Some one_pending, [Attempt 0; Sleep 2; Attempt 1]) /\
  _pending_requests one_pending = _pending_requests one_pending /\
  ((_is_closing one_pending = true /\ one_pending = one_pending /\
    [Attempt 0; Sleep 2; Attempt 1] = []) \/
   (websocket one_pending = true /\ _listener_task one_pending = Some Running /\
    _message_queue one_pending = _message_queue one_pending) \/
   (websocket one_pending = false /\
    _message_queue one_pending = _message_queue one_pending ++ [None] /\
    (_is_closing one_pending = true \/ exists k, closing_set back_soon k = true))).
Proof.
  split; [reflexivity|].
  exact (reconnect_gives_up_only_when_closing 3 back_soon one_pending
           one_pending [Attempt 0; Sleep 2; Attempt 1] eq_refl).
Defined.


End ReaderFacts.

(* ===================================================================== *)
(** * core/message.py: encoding of segments, combination, forward nodes *)
(* ===================================================================== *)
Module Builder.

(** The [data] dict the constructor of each segment class stores. *)
Definition seg_data (s : segment) : dict :=
  match s with
  | TextSegment text => [(py "text", text)]
  | ImageSegment file cache proxy timeout =>
      [(py "file", JStr file); (py "cache", cache); (py "proxy", proxy);
       (py "timeout", timeout)]
  | AtSegment qq => [(py "qq", JStr qq)]
  | FaceSegment id => [(py "id", id)]
  | RecordSegment file magic cache proxy timeout =>
      [(py "file", JStr file); (py "magic", magic); (py "cache", cache);
       (py "proxy", proxy); (py "timeout", timeout)]
  | ReplySegment id => [(py "id", JStr id)]
  | ForwardNodeSegment data => data
  | ForwardSegment data => data
  | BaseSegment _ data => data
  end.

(** [BaseSegment.to_dict] *)
Definition to_dict (s : segment) : dict :=
  [(py "type", JStr (seg_type s)); (py "data", JObj (seg_data s))].

(** An argument of [combine] or an item of the content of a forward
    node: a string, a segment object, a dict, or something else. *)
Inductive piece :=
| PStr (s : pystr)
| PSeg (s : segment)
| PDict (d : dict)
| POther.

(** [MessageBuilder.combine] *)
Fixpoint combine (rt : runtime) (message_segments : list piece)
  : result (list segment) :=
  match message_segments with
  | [] => Ok []
  | PStr s :: rest =>
      try! tail := combine rt rest in Ok (TextSegment (JStr s) :: tail)
  | PSeg s :: rest =>
      try! tail := combine rt rest in Ok (s :: tail)
  | PDict d :: rest =>
      try! parsed := _parse_dict_to_segment rt d in
      try! tail := combine rt rest in
      Ok (match parsed with Some s => s :: tail | None => tail end)
  | POther :: rest => combine rt rest
  end.

(** The [content] argument of [forward_node]. *)
Inductive content :=
| CStr (s : pystr)
| CList (items : list piece)
| COther.

(** The loop of [forward_node] over a list: segments are kept, dicts are
    decoded, and a dict that cannot be decoded is kept as it is; strings
    and other items are skipped. *)
Fixpoint node_content (rt : runtime) (items : list piece)
  : result (list (segment + dict)) :=
  match items with
  | [] => Ok []
  | PSeg s :: rest =>
      try! tail := node_content rt rest in Ok (inl s :: tail)
  | PDict d :: rest =>
      try! parsed := _parse_dict_to_segment rt d in
      try! tail := node_content rt rest in
      Ok (match parsed with Some s => inl s | None => inr d end :: tail)
  | _ :: rest => node_content rt rest
  end.

(** [[seg.to_dict() for seg in content]]: a dict has no [to_dict]. *)
Fixpoint encode_content (message_content : list (segment + dict))
  : result (list json) :=
  match message_content with
  | [] => Ok []
  | inl s :: rest =>
      try! tail := encode_content rest in Ok (JObj (to_dict s) :: tail)
  | inr _ :: _ => Raise AttributeError
  end.

(** [ForwardNodeSegment(user_id, nickname, content)] *)
Definition new_ForwardNodeSegment (rt : runtime) (user_id nickname : json)
  (message_content : list (segment + dict)) : result segment :=
  try! encoded := encode_content message_content in
  Ok (ForwardNodeSegment [(py "user_id", JStr (py_str rt user_id));
                          (py "nickname", nickname);
                          (py "content", JArr encoded)]).

(** [MessageBuilder.forward_node] *)
Definition forward_node (rt : runtime) (user_id nickname : json) (c : content)
  : result segment :=
  match c with
  | CStr s => new_ForwardNodeSegment rt user_id nickname [inl (TextSegment (JStr s))]
  | CList items =>
      try! message_content := node_content rt items in
      new_ForwardNodeSegment rt user_id nickname message_content
  | COther => Raise ValueError
  end.

End Builder.

Section BuilderFacts.
Import Builder.

(** The six classes [_parse_dict_to_segment] builds. *)
Definition decodable (s : segment) : bool :=
  match s with
  | TextSegment _ | ImageSegment _ _ _ _ | AtSegment _ | FaceSegment _
  | RecordSegment _ _ _ _ _ | ReplySegment _ => true
  | _ => false
  end.

(** A segment as the decoder leaves it: of one of the six classes, with a
    file reference that [image] and [record] keep as it is. *)
Definition settled (rt : runtime) (s : segment) : Prop :=
  match s with
  | ImageSegment file _ _ _ | RecordSegment file _ _ _ _ =>
      resolve_file rt (JStr file) = Ok file
  | other => decodable other = true
  end.

Lemma parse_to_dict (rt : runtime) (s : segment) :
  (forall t, py_str rt (JStr t) = t) ->
  settled rt s ->
  _parse_dict_to_segment rt (to_dict s) = Ok (Some s).
Proof.
  intros Hstr Hs. destruct s; simpl in Hs; try discriminate;
    unfold _parse_dict_to_segment, to_dict; simpl;
    rewrite ?Hs, ?Hstr; try reflexivity.
Qed.

Lemma gen_segments_to_dict (rt : runtime) (segs : list segment) :
  (forall t, py_str rt (JStr t) = t) ->
  Forall (settled rt) segs ->
  gen_segments rt ((fun s => JObj (to_dict s)) <$> segs) = Ok segs.
Proof.
  intros Hstr Hs. induction Hs as [|s segs Hs _ IH]; [done|].
  csimpl. cbn [gen_segments]. rewrite parse_to_dict, IH by done. done.
Qed.

(** X11: decoding undoes encoding.  For segments of the six classes the
    decoder knows, with file references it keeps as they are (absolute
    paths and http, https or base64 references), [gen_message] applied to
    the list of their [to_dict] forms returns the segments themselves,
    and so does [combine] applied to the same dicts. *)
Theorem decoding_undoes_to_dict (rt : runtime) (segs : list segment) :
  (forall t, py_str rt (JStr t) = t) ->
  Forall (settled rt) segs ->
  gen_message rt (JArr ((fun s => JObj (to_dict s)) <$> segs)) = Ok segs /\
  combine rt ((fun s => PDict (to_dict s)) <$> segs) = Ok segs.
Proof.
  intros Hstr Hs. split; [by apply gen_segments_to_dict|].
  induction Hs as [|s segs Hs _ IH]; [done|].
  csimpl. cbn [combine]. rewrite parse_to_dict, IH by done. done.
Qed.

Lemma sample_runtime_str (t : pystr) : py_str sample_runtime (JStr t) = t.
Proof. reflexivity. Qed.

Lemma decoding_undoes_to_dict_witness :
  gen_message sample_runtime
    (JArr [JObj (to_dict (ReplySegment (py "42")));
           JObj (to_dict (AtSegment (py "10001")));
           JObj (to_dict (TextSegment (JStr (py "hi"))));
           JObj (to_dict (ImageSegment (py "https://example.org/a.png")
                            (JBool true) (JBool false) (JNum 30)))])
  = Ok [ReplySegment (py "42"); AtSegment (py "10001");
        TextSegment (JStr (py "hi"));
        ImageSegment (py "https://example.org/a.png")
          (JBool true) (JBool false) (JNum 30)].
Proof.
  refine (proj1 (decoding_undoes_to_dict sample_runtime
                   [ReplySegment (py "42"); AtSegment (py "10001");
                    TextSegment (JStr (py "hi"));
                    ImageSegment (py "https://example.org/a.png")
                      (JBool true) (JBool false) (JNum 30)]
                   sample_runtime_str _)).
  repeat constructor.
Defined.

Lemma resolve_file_settled (rt : runtime) (file : json) (f : pystr) :
  (forall p, isabs rt (abspath rt p) = true) ->
  resolve_file rt file = Ok f -> resolve_file rt (JStr f) = Ok f.
Proof.
  intros Habs. destruct file as [| | |f0| |]; simpl; try discriminate.
  destruct (negb (isabs rt f0) && _) eqn:Hc; intros [= <-].
  - by rewrite Habs.
  - by rewrite Hc.
Qed.

Lemma parse_settled (rt : runtime) (d : dict) (s : segment) :
  (forall p, isabs rt (abspath rt p) = true) ->
  _parse_dict_to_segment rt d = Ok (Some s) -> settled rt s.
Proof.
  intros Habs. unfold _parse_dict_to_segment.
  repeat match goal with
         | |- context [if ?b then _ else _] => destruct b
         end;
    try discriminate;
    (destruct (as_dict _) as [d0|]; cbn [bind]; [|discriminate]);
    try (destruct (resolve_file rt _) as [f|] eqn:Hf; cbn [bind]; [|discriminate]);
    intros [= <-]; simpl; try done;
    by apply (resolve_file_settled rt _ _ Habs Hf).
Qed.

Lemma gen_segments_settled (rt : runtime) (l : list json) :
  (forall p, isabs rt (abspath rt p) = true) ->
  forall segs, gen_segments rt l = Ok segs ->
               Forall (settled rt) segs /\ (length segs <= length l)%nat.
Proof.
  intros Habs. induction l as [|x l IH]; intros segs; simpl.
  - intros [= <-]. split; [constructor|done].
  - destruct x as [| | |s|items|d];
      try (intros H; destruct (IH _ H); split; [done|lia]).
    + destruct (gen_segments rt l) as [tail|]; cbn [bind]; [|discriminate].
      intros [= <-]. destruct (IH _ eq_refl). split; [by constructor|simpl; lia].
    + destruct (_parse_dict_to_segment rt d) as [[s|]|] eqn:Hp; cbn [bind];
        [| |discriminate];
        (destruct (gen_segments rt l) as [tail|]; cbn [bind]; [|discriminate]);
        intros [= <-]; destruct (IH _ eq_refl); (split; [|simpl; lia]); [|done].
      constructor; [|done]. by apply (parse_settled rt d).
Qed.

Lemma create_event_decoded (data : dict) (mb : option runtime) (ev : event) :
  create_event data mb = Ok ev ->
  message ev = [] \/
  exists rt, mb = Some rt /\
             gen_message rt (get data (py "message") (JArr [])) = Ok (message ev).
Proof.
  unfold create_event. intros H.
  repeat match type of H with
         | context [if ?b then _ else _] => destruct b
         | context [match ?o with Some _ => _ | None => _ end] => destruct o
         end;
    try (injection H as <-; by left);
    (destruct (gen_message _ _) as [m|] eqn:Hm; simpl in H; [|discriminate]);
    injection H as <-; right; by eexists.
Qed.

(** X12: what the factory decodes is in the decoder's normal form.  On a
    system where [os.path.abspath] returns absolute paths, every segment
    of the message of an event built by [create_event] is of one of the
    six classes (text, image, at, face, record, reply: items of any other
    type are dropped), with a file reference that decoding again would
    not change; and when [str()] is the identity on strings, encoding the
    decoded message with [to_dict] and decoding it again gives the same
    message. *)
Theorem decoded_message_is_settled (rt : runtime) (data : dict) (ev : event) :
  (forall p, isabs rt (abspath rt p) = true) ->
  create_event data (Some rt) = Ok ev ->
  Forall (fun s => decodable s = true /\ settled rt s) (message ev) /\
  (forall items, get data (py "message") (JArr []) = JArr items ->
                 (length (message ev) <= length items)%nat) /\
  ((forall t, py_str rt (JStr t) = t) ->
   gen_message rt (JArr ((fun s => JObj (to_dict s)) <$> message ev))
   = Ok (message ev)).
Proof.
  intros Habs Hev.
  assert (Hs : Forall (settled rt) (message ev) /\
               (forall items, get data (py "message") (JArr []) = JArr items ->
                              (length (message ev) <= length items)%nat)).
  { apply create_event_decoded in Hev as [->|(rt' & [= <-] & Hm)].
    - split; [constructor|simpl; lia].
    - unfold gen_message in Hm.
      destruct (get data (py "message") (JArr [])) as [| | | |l|d]; try discriminate.
      + apply (gen_segments_settled rt l Habs) in Hm as [? ?].
        split; [done|]. by intros items [= <-].
      + split; [|done]. destruct (contains d (py "message")).
        * destruct (iter _) as [md|]; cbn [bind] in Hm; [|discriminate].
          by apply (gen_segments_settled rt md Habs) in Hm as [? ?].
        * by apply (gen_segments_settled rt _ Habs) in Hm as [? ?]. }
  destruct Hs as [Hs Hlen]. split; [|split; [done|]].
  - eapply Forall_impl; [exact Hs|]. intros s H. split; [|done].
    by destruct s.
  - intros Hstr. by apply gen_segments_to_dict.
Qed.

Lemma sample_runtime_abspath (p : pystr) :
  isabs sample_runtime (abspath sample_runtime p) = true.
Proof. reflexivity. Qed.

(** A group message with a picture given by a relative path, a mention
    given by number and a segment of a type the decoder does not know. *)
Definition picture_frame : dict :=
  [(py "post_type", JStr (py "message"));
   (py "message_type", JStr (py "group"));
   (py "message",
    JArr [JObj [(py "type", JStr (py "image"));
                (py "data", JObj [(py "file", JStr (py "a.png"))])];
          JObj [(py "type", JStr (py "json")); (py "data", JObj [])];
          JObj [(py "type", JStr (py "at"));
                (py "data", JObj [(py "qq", JNum 10001)])]])].

Definition picture_event : event :=
  set_message (new GroupMessageEvent picture_frame)
    [ImageSegment (py "/bot/a.png") (JBool true) (JBool true) (JNum 30);
     AtSegment (py "10001")].

Lemma decoded_message_is_settled_witness :
  create_event picture_frame (Some sample_runtime) = Ok picture_event /\
  gen_message sample_runtime
    (JArr ((fun s => JObj (to_dict s)) <$> message picture_event))
  = Ok (message picture_event).
Proof.
  split; [reflexivity|].
  exact (proj2 (proj2 (decoded_message_is_settled sample_runtime picture_frame
                         picture_event sample_runtime_abspath eq_refl))
           sample_runtime_str).
Defined.

Lemma node_content_segments (rt : runtime) (segs : list segment) :
  node_content rt (PSeg <$> segs) = Ok (inl <$> segs).
Proof. induction segs as [|s segs IH]; csimpl; [done|]. by rewrite IH. Qed.

Lemma encode_content_segments (segs : list segment) :
  encode_content (inl <$> segs) = Ok ((fun s => JObj (to_dict s)) <$> segs).
Proof. induction segs as [|s segs IH]; csimpl; [done|]. by rewrite IH. Qed.

Lemma encode_content_raw (mc : list (segment + dict)) (d : dict) :
  inr d ∈ mc -> encode_content mc = Raise AttributeError.
Proof.
  induction mc as [|[s|d'] mc IH]; intros Hd.
  - by apply elem_of_nil in Hd.
  - apply elem_of_cons in Hd as [|Hd]; [done|]. simpl. by rewrite IH.
  - done.
Qed.

Lemma node_content_ok (rt : runtime) (items : list piece) :
  (forall d', PDict d' ∈ items -> exists r, _parse_dict_to_segment rt d' = Ok r) ->
  exists mc, node_content rt items = Ok mc.
Proof.
  induction items as [|y items IH]; intros Hall; [by eexists|].
  destruct IH as [mc Hmc].
  { intros d' Hd'. apply Hall. by right. }
  destruct y as [s|s|d'|]; simpl; rewrite ?Hmc; try by eexists.
  destruct (Hall d') as [r ->]; [by left|]. simpl. by eexists.
Qed.

Lemma node_content_raw (rt : runtime) (items : list piece) (d : dict) :
  (forall d', PDict d' ∈ items -> exists r, _parse_dict_to_segment rt d' = Ok r) ->
  PDict d ∈ items ->
  _parse_dict_to_segment rt d = Ok None ->
  exists mc, node_content rt items = Ok mc /\ inr d ∈ mc.
Proof.
  intros Hall Hd Hnone. induction items as [|x items IH].
  - by apply elem_of_nil in Hd.
  - assert (Hrest : forall d', PDict d' ∈ items ->
                               exists r, _parse_dict_to_segment rt d' = Ok r).
    { intros d' Hd'. apply Hall. by right. }
    destruct (node_content_ok rt items Hrest) as [mc0 Hmc0].
    apply elem_of_cons in Hd as [<-|Hd].
    + simpl. rewrite Hnone, Hmc0. simpl. eexists. split; [done|]. by left.
    + destruct (IH Hrest Hd) as (mc & Hmc & Hin).
      destruct x as [s|s|d'|]; simpl; rewrite ?Hmc; simpl.
      * by eexists.
      * eexists. split; [done|]. by right.
      * destruct (Hall d') as [r ->]; [by left|]. simpl.
        eexists. split; [done|]. by right.
      * by eexists.
Qed.

(** X13: a forward node built from segment objects carries their
    [to_dict] forms in order, with the user id as a string.  Built from a
    list that holds a dict the decoder does not know, [forward_node]
    raises [AttributeError]: the dict is kept as it is and has no
    [to_dict]. *)
Theorem forward_node_content (rt : runtime) (user_id nickname : json) :
  (forall segs,
      forward_node rt user_id nickname (CList (PSeg <$> segs))
      = Ok (ForwardNodeSegment
              [(py "user_id", JStr (py_str rt user_id));
               (py "nickname", nickname);
               (py "content", JArr ((fun s => JObj (to_dict s)) <$> segs))])) /\
  (forall items d,
      (forall d', PDict d' ∈ items -> exists r, _parse_dict_to_segment rt d' = Ok r) ->
      PDict d ∈ items ->
      _parse_dict_to_segment rt d = Ok None ->
      forward_node rt user_id nickname (CList items) = Raise AttributeError).
Proof.
  split.
  - intros segs. unfold forward_node, new_ForwardNodeSegment.
    rewrite node_content_segments. cbn [bind].
    by rewrite encode_content_segments.
  - intros items d Hall Hd Hnone.
    destruct (node_content_raw rt items d Hall Hd Hnone) as (mc & Hmc & Hin).
    unfold forward_node, new_ForwardNodeSegment. rewrite Hmc. cbn [bind].
    by rewrite (encode_content_raw mc d).
Qed.

Lemma forward_node_content_witness :
  forward_node sample_runtime (JNum 10001) (JStr (py "bot"))
    (CList [PSeg (TextSegment (JStr (py "hi")));
            PDict [(py "type", JStr (py "json")); (py "data", JObj [])]])
  = Raise AttributeError.
Proof.
  refine (proj2 (forward_node_content sample_runtime (JNum 10001) (JStr (py "bot")))
            _ [(py "type", JStr (py "json")); (py "data", JObj [])] _ _ eq_refl).
  - intros d' Hd. apply elem_of_cons in Hd as [[=]|Hd].
    apply list_elem_of_singleton in Hd as [= ->]. by eexists.
  - right. by left.
Defined.

End BuilderFacts.

(** ** What a load leaves in the registry *)
Section LoadFacts.
Import PluginManager.

(** A candidate whose import succeeds and defines the trigger. *)
Definition loadable (c : candidate) : bool :=
  match c_import c with
  | Imported m => bool_decide (is_Some (TRIGGHT_KEYWORD m))
  | _ => false
  end.

Lemma odict_set_elem {V} (d : ODict.t V) (k : pystr) (v : V) (x : pystr * V) :
  x ∈ ODict.set d k v -> x ∈ d \/ x = (k, v).
Proof.
  induction d as [|[k' v'] d IH]; simpl.
  - intros ->%list_elem_of_singleton. by right.
  - destruct (PyStr.eqb k' k) eqn:He.
    + apply eqb_eq in He as ->.
      intros [->|H]%elem_of_cons; [by right|left; by right].
    + intros [->|H]%elem_of_cons; [left; by left|].
      destruct (IH H) as [?|?]; [left; by right|by right].
Qed.

Lemma odict_set_key_elem {V} (d : ODict.t V) (k : pystr) (v : V) (n : pystr) :
  n ∈ (ODict.set d k v).*1 <-> n ∈ d.*1 \/ n = k.
Proof.
  rewrite odict_set_keys. destruct (ODict.mem d k) eqn:Hm.
  - apply odict_mem_keys in Hm. split; [by left|]. by intros [?| ->].
  - rewrite elem_of_app, list_elem_of_singleton. done.
Qed.

(** The registry after the candidates [seen] have been loaded. *)
Definition accounted (seen : list candidate) (s : manager) : Prop :=
  (forall c, c ∈ seen ->
             if loadable c then c_name c ∈ (plugins s).*1
             else is_Some (failed_plugins s !! c_name c)) /\
  (forall n, n ∈ (plugins s).*1 ->
             exists c, c ∈ seen /\ c_name c = n /\ loadable c = true) /\
  (forall n, is_Some (failed_plugins s !! n) ->
             exists c, c ∈ seen /\ c_name c = n /\ loadable c = false) /\
  (forall n, n ∈ enabled_plugins s <-> n ∈ (plugins s).*1) /\
  Forall (fun kv => enabled kv.2 = true) (plugins s).

Lemma load_one_accounted (seen : list candidate) (s : manager) (c : candidate) :
  accounted seen s -> accounted (seen ++ [c]) (load_one s c).
Proof.
  intros (Hin & Hp & Hf & He & Hen).
  assert (Hfail : forall why, loadable c = false ->
    accounted (seen ++ [c])
      (with_registry s (plugins s) (enabled_plugins s)
         (<[c_name c := why]> (failed_plugins s)))).
  { intros why Hl. repeat split; simpl.
    - intros c' [Hc'| ->%list_elem_of_singleton]%elem_of_app.
      + specialize (Hin c' Hc'). destruct (loadable c'); [done|].
        destruct (decide (c_name c = c_name c')) as [<-|Hne].
        * rewrite lookup_insert_eq. by eexists.
        * by rewrite lookup_insert_ne.
      + rewrite Hl, lookup_insert_eq. by eexists.
    - intros n Hn. destruct (Hp n Hn) as (c' & ? & ? & ?).
      exists c'. split; [apply elem_of_app; by left|done].
    - intros n Hn. destruct (decide (c_name c = n)) as [<-|Hne].
      + exists c. split; [apply elem_of_app; right; by apply list_elem_of_singleton|done].
      + rewrite lookup_insert_ne in Hn by done.
        destruct (Hf n Hn) as (c' & ? & ? & ?).
        exists c'. split; [apply elem_of_app; by left|done].
    - apply He.
    - apply He.
    - done. }
  unfold load_one. unfold loadable in Hfail.
  destruct (c_import c) as [| |m] eqn:Hi; try (by apply Hfail).
  destruct (TRIGGHT_KEYWORD m) as [trigger|] eqn:Ht; [|by apply Hfail].
  assert (Hl : loadable c = true) by (unfold loadable; by rewrite Hi, Ht).
  clear Hfail. repeat split; simpl.
  - intros c' [Hc'| ->%list_elem_of_singleton]%elem_of_app.
    + specialize (Hin c' Hc'). destruct (loadable c'); [|done].
      apply odict_set_key_elem. by left.
    + rewrite Hl. apply odict_set_key_elem. by right.
  - intros n [Hn| ->]%odict_set_key_elem.
    + destruct (Hp n Hn) as (c' & ? & ? & ?).
      exists c'. split; [apply elem_of_app; by left|done].
    + exists c. split; [apply elem_of_app; right; by apply list_elem_of_singleton|done].
  - intros n Hn. destruct (Hf n Hn) as (c' & ? & ? & ?).
    exists c'. split; [apply elem_of_app; by left|done].
  - intros [Hn| ->%list_elem_of_singleton]%elem_of_app; apply odict_set_key_elem.
    + left. by apply He.
    + by right.
  - intros [Hn| ->]%odict_set_key_elem; apply elem_of_app.
    + left. by apply He.
    + right. by apply list_elem_of_singleton.
  - apply Forall_forall. intros x [Hx| ->]%odict_set_elem; [|done].
    by apply (proj1 (Forall_forall _ _) Hen).
Qed.

Lemma load_fold_accounted (cs : list candidate) :
  forall seen s, accounted seen s -> accounted (seen ++ cs) (fold_left load_one cs s).
Proof.
  induction cs as [|c cs IH]; intros seen s H; simpl.
  - by rewrite app_nil_r.
  - replace (seen ++ c :: cs) with ((seen ++ [c]) ++ cs) by (by rewrite <- app_assoc).
    apply IH. by apply load_one_accounted.
Qed.

Lemma load_plugins_accounted (st : manager) (fs : directory) :
  accounted (candidates fs) (load_plugins st fs).
Proof.
  pose proof (load_fold_accounted (candidates fs) [] (with_registry st [] [] ∅)) as H.
  destruct H as (Hin & Hp & Hf & He & Hen).
  { repeat split; simpl; try done.
    - by intros c ?%elem_of_nil.
    - by intros n ?%elem_of_nil.
    - intros n [x Hx]. by rewrite lookup_empty in Hx. }
  fold (discover st fs) in *. simpl in *.
  assert (Hperm : Permutation (plugins (discover st fs)) (plugins (load_plugins st fs))).
  { rewrite load_plugins_sorted. apply sorted_by_priority_perm. }
  assert (Hk : forall n, n ∈ (plugins (load_plugins st fs)).*1
                         <-> n ∈ (plugins (discover st fs)).*1).
  { intros n. by rewrite <- Hperm. }
  repeat split.
  - intros c Hc. specialize (Hin c Hc). destruct (loadable c); [by apply Hk|done].
  - intros n Hn. by apply Hp, Hk.
  - done.
  - intros Hn. by apply Hk, He.
  - intros Hn. by apply He, Hk.
  - by rewrite <- Hperm.
Qed.

(** X14: after [load_plugins] every candidate of the directory is
    accounted for, whatever happened to the others: one whose import
    succeeds and defines [TRIGGHT_KEYWORD] is in the registry, any other
    has an entry in [failed_plugins]; the registry and the failures hold
    no name that is not a candidate's; [enabled_plugins] holds the
    names of the registry; and every plugin of the registry is marked
    enabled. *)
Theorem every_candidate_is_accounted_for (st : manager) (fs : directory) :
  let st' := load_plugins st fs in
  (forall c, c ∈ candidates fs ->
             if loadable c then ODict.mem (plugins st') (c_name c) = true
             else is_Some (failed_plugins st' !! c_name c)) /\
  (forall n, ODict.mem (plugins st') n = true ->
             exists c, c ∈ candidates fs /\ c_name c = n /\ loadable c = true) /\
  (forall n, is_Some (failed_plugins st' !! n) ->
             exists c, c ∈ candidates fs /\ c_name c = n /\ loadable c = false) /\
  (forall n, n ∈ enabled_plugins st' <-> ODict.mem (plugins st') n = true) /\
  Forall (fun kv => enabled kv.2 = true) (plugins st') /\
  NoDup (plugins st').*1.
Proof.
  destruct (load_plugins_accounted st fs) as (Hin & Hp & Hf & He & Hen).
  cbv zeta. repeat split.
  - intros c Hc. specialize (Hin c Hc). destruct (loadable c); [|done].
    by apply odict_mem_keys.
  - intros n Hn. by apply Hp, odict_mem_keys.
  - done.
  - intros Hn. by apply odict_mem_keys, He.
  - intros Hn. by apply He, odict_mem_keys.
  - done.
  - rewrite load_plugins_sorted, <- (sorted_by_priority_perm _).
    apply discover_NoDup.
Qed.

End LoadFacts.

(** ** Disabling and enabling by renaming *)
Section RenameFacts.
Import PluginManager.

Lemma endswith_suffix (s p : pystr) :
  endswith s p = true <-> exists front, s = front ++ p.
Proof.
  unfold endswith. rewrite startswith_prefix. split.
  - intros [rest H]. exists (rev rest).
    apply (f_equal (@rev N)) in H. rewrite rev_involutive in H.
    by rewrite H, rev_app_distr, rev_involutive.
  - intros [front ->]. exists (rev front). by rewrite rev_app_distr.
Qed.

Lemma slice_to_neg_app (front p : pystr) :
  slice_to_neg (length p) (front ++ p) = front.
Proof.
  unfold slice_to_neg. rewrite length_app.
  replace (length front + length p - length p)%nat with (length front) by lia.
  by rewrite take_app_length.
Qed.

Lemma in_listdir_elem (fs : directory) (item : pystr) :
  in_listdir fs item = true <-> exists e, e ∈ fs /\ name e = item.
Proof.
  unfold in_listdir. induction fs as [|e fs IH]; simpl.
  - split; [done|]. by intros (e & ?%elem_of_nil & _).
  - rewrite orb_true_iff, IH, eqb_eq. split.
    + intros [H|(e' & ? & ?)]; [exists e; split; [by left|done]|].
      exists e'. split; [by right|done].
    + intros (e' & [->|?]%elem_of_cons & ?); [by left|]. right. by exists e'.
Qed.

Lemma in_listdir_rename_old (fs : directory) (old new : pystr) :
  old <> new -> in_listdir (rename fs old new) old = false.
Proof.
  intros Hne. apply not_true_is_false. rewrite in_listdir_elem.
  intros (e & He & Hn). unfold rename in He.
  apply list_elem_of_fmap in He as (e0 & -> & _).
  destruct (PyStr.eqb (name e0) old) eqn:H0; simpl in Hn; [congruence|].
  apply eqb_eq in Hn. congruence.
Qed.

Lemma in_listdir_rename_new (fs : directory) (old new : pystr) :
  in_listdir fs old = true -> in_listdir (rename fs old new) new = true.
Proof.
  rewrite !in_listdir_elem. intros (e & He & Hn).
  exists (rename_entry e new). split; [|done].
  unfold rename. apply list_elem_of_fmap. exists e. split; [|done].
  by rewrite (proj2 (eqb_eq _ _) Hn).
Qed.

Lemma in_listdir_rename_other (fs : directory) (old new item : pystr) :
  item <> old -> item <> new ->
  in_listdir (rename fs old new) item = in_listdir fs item.
Proof.
  intros Ho Hn. unfold in_listdir, rename.
  induction fs as [|e fs IH]; simpl; [done|]. rewrite IH. f_equal.
  destruct (PyStr.eqb (name e) old) eqn:He; [|done]. simpl.
  apply eqb_eq in He. unfold PyStr.eqb.
  rewrite !bool_decide_eq_false_2; congruence.
Qed.

Lemma rename_back (fs : directory) (old new : pystr) :
  in_listdir fs new = false -> rename (rename fs old new) new old = fs.
Proof.
  unfold in_listdir, rename. induction fs as [|e fs IH]; simpl; [done|].
  intros [He Hfs]%orb_false_iff. rewrite IH by done. f_equal.
  destruct (PyStr.eqb (name e) old) eqn:Ho; simpl.
  - rewrite eqb_refl. apply eqb_eq in Ho. destruct e; simpl in *. by subst.
  - by rewrite He.
Qed.

(** A path that does not exist is not listed. *)
Lemma path_exists_listed (fs : directory) (item : pystr) :
  path_exists fs item = false -> in_listdir fs item = false.
Proof. unfold path_exists. by intros [_ ?]%orb_false_iff. Qed.

(** A path that exists in one directory and is listed in neither names
    the directory itself or the one above it, and exists in both. *)
Lemma path_exists_same (fs fs' : directory) (item : pystr) :
  in_listdir fs' item = in_listdir fs item ->
  path_exists fs' item = path_exists fs item.
Proof. unfold path_exists. by intros ->. Qed.

(** A name of three characters or more exists exactly when it is
    listed. *)
Lemma path_exists_long (fs : directory) (item : pystr) :
  (3 <= length item)%nat -> path_exists fs item = in_listdir fs item.
Proof.
  intros Hl. unfold path_exists, PyStr.eqb.
  rewrite !bool_decide_eq_false_2; [done| | |];
    intros ->; simpl in Hl; lia.
Qed.

Lemma path_exists_py (fs : directory) (n : pystr) :
  path_exists fs (n ++ py ".py") = in_listdir fs (n ++ py ".py").
Proof. apply path_exists_long. rewrite length_app. simpl. lia. Qed.

Lemma path_exists_d_py (fs : directory) (n : pystr) :
  path_exists fs (py "d_" ++ n ++ py ".py")
  = in_listdir fs (py "d_" ++ n ++ py ".py").
Proof. apply path_exists_long. rewrite !length_app. simpl. lia. Qed.

Lemma reload_plugins_monitoring (st : manager) (fs : directory) :
  monitoring_enabled (reload_plugins st fs) = monitoring_enabled st.
Proof.
  unfold reload_plugins, initialize_file_timestamps, load_plugins,
    _sort_plugins_by_priority, discover; simpl.
  by rewrite (proj2 (load_fold_fields _ _)).
Qed.

Lemma reload_plugins_registry (st : manager) (fs : directory) :
  plugins (reload_plugins st fs) = plugins (load_plugins st fs) /\
  enabled_plugins (reload_plugins st fs) = enabled_plugins (load_plugins st fs) /\
  failed_plugins (reload_plugins st fs) = failed_plugins (load_plugins st fs).
Proof.
  unfold reload_plugins, initialize_file_timestamps, load_plugins,
    _sort_plugins_by_priority, discover. simpl.
  destruct (load_fold_registry (candidates fs)
              (with_registry (with_registry st [] [] ∅) [] [] ∅)
              (with_registry st [] [] ∅)) as (-> & -> & ->); done.
Qed.

(** The name a candidate is loaded under, in terms of the entry it comes
    from. *)
Lemma candidate_name (fs : directory) (c : candidate) :
  c ∈ candidates fs ->
  in_listdir fs (c_name c ++ py ".py") = true \/ in_listdir fs (c_name c) = true.
Proof.
  unfold candidates. intros (e & He & Hc)%list_elem_of_omap.
  unfold candidate_of in Hc.
  destruct (endswith (name e) (py ".py") && negb (startswith (name e) (py "_")))
    eqn:Hpy.
  - destruct (startswith (name e) (py "d_")); [done|]. injection Hc as <-. simpl.
    left. apply andb_true_iff in Hpy as [[front Hf]%endswith_suffix _].
    apply in_listdir_elem. exists e. split; [done|].
    rewrite Hf. change 3%nat with (length (py ".py")).
    by rewrite slice_to_neg_app.
  - destruct (isdir e && negb (startswith (name e) (py "_"))); [|done].
    destruct (startswith (name e) (py "d_")); [done|].
    destruct (setup_py e); [|done]. injection Hc as <-. simpl.
    right. apply in_listdir_elem. by exists e.
Qed.

(** A name with neither a file nor a directory of its own is not
    loaded. *)
Lemma not_on_disk_not_loaded (st : manager) (fs : directory) (n : pystr) :
  in_listdir fs (n ++ py ".py") = false -> in_listdir fs n = false ->
  ODict.mem (plugins (reload_plugins st fs)) n = false.
Proof.
  intros Hpy Hdir. apply not_true_is_false. intros Hm.
  rewrite (proj1 (reload_plugins_registry st fs)) in Hm.
  apply odict_mem_keys in Hm.
  destruct (load_plugins_accounted st fs) as (_ & Hp & _).
  destruct (Hp n Hm) as (c & Hc & <- & _).
  destruct (candidate_name fs c Hc); congruence.
Qed.

Lemma length_ne (a b : pystr) : length a <> length b -> a <> b.
Proof. congruence. Qed.

(** X15: disabling and enabling again is a round trip.  For a plugin
    file [name.py], where [name] holds no path separator, no path [name]
    exists in the plugin directory (no entry of that name; and the name
    is not empty, [.] or [..], for which the path is a directory that
    always exists) and the directory holds no disabled unit of that name,
    [disable_plugin] renames the file to [d_name.py] and reloads, after
    which the plugin is not in the registry; [enable_plugin] then renames
    it back and reloads, which leaves the directory as it was and the
    manager as a reload of the original directory leaves it. *)
Theorem disable_then_enable_restores (st : manager) (fs : directory)
  (plugin_name : pystr) :
  plain_name plugin_name = true ->
  path_exists fs (plugin_name ++ py ".py") = true ->
  path_exists fs plugin_name = false ->
  path_exists fs (py "d_" ++ plugin_name ++ py ".py") = false ->
  path_exists fs (py "d_" ++ plugin_name) = false ->
  let fs1 := rename fs (plugin_name ++ py ".py") (py "d_" ++ plugin_name ++ py ".py") in
  disable_plugin st fs plugin_name true
  = (true, reload_plugins st fs1, fs1,
     [Renamed (plugin_name ++ py ".py") (py "d_" ++ plugin_name ++ py ".py");
      Reloaded]) /\
  ODict.mem (plugins (reload_plugins st fs1)) plugin_name = false /\
  enable_plugin (reload_plugins st fs1) fs1 plugin_name true
  = (true, reload_plugins st fs, fs,
     [Renamed (py "d_" ++ plugin_name ++ py ".py") (plugin_name ++ py ".py");
      Reloaded]).
Proof.
  intros _ Hpy Hdir Hdpy Hddir fs1.
  assert (Hne : plugin_name ++ py ".py" <> py "d_" ++ plugin_name ++ py ".py").
  { apply length_ne. rewrite !length_app. simpl. lia. }
  assert (Hother : in_listdir fs1 plugin_name = in_listdir fs plugin_name).
  { unfold fs1. apply in_listdir_rename_other;
      apply length_ne; rewrite !length_app; simpl; lia. }
  assert (H1 : path_exists fs1 (plugin_name ++ py ".py") = false)
    by (rewrite path_exists_py; by apply in_listdir_rename_old).
  assert (H2 : path_exists fs1 plugin_name = false)
    by (by rewrite (path_exists_same fs fs1)).
  assert (H3 : path_exists fs1 (py "d_" ++ plugin_name ++ py ".py") = true).
  { rewrite path_exists_d_py. apply in_listdir_rename_new.
    by rewrite <- path_exists_py. }
  split; [|split].
  - unfold disable_plugin. by rewrite Hdpy, Hddir, Hpy.
  - apply not_on_disk_not_loaded; [by rewrite <- path_exists_py|].
    by apply path_exists_listed.
  - unfold enable_plugin. rewrite H1, H2, H3. cbn [orb].
    fold fs1. unfold fs1 at 2 3.
    rewrite rename_back by (by rewrite <- path_exists_d_py).
    f_equal. f_equal. f_equal.
    apply reload_plugins_ext, reload_plugins_monitoring.
Qed.

Lemma disable_then_enable_restores_witness :
  let fs1 := rename two_plugins (py "a.py") (py "d_a.py") in
  disable_plugin (init two_plugins) two_plugins (py "a") true
  = (true, reload_plugins (init two_plugins) fs1, fs1,
     [Renamed (py "a.py") (py "d_a.py"); Reloaded]) /\
  ODict.mem (plugins (reload_plugins (init two_plugins) fs1)) (py "a") = false /\
  enable_plugin (reload_plugins (init two_plugins) fs1) fs1 (py "a") true
  = (true, reload_plugins (init two_plugins) two_plugins, two_plugins,
     [Renamed (py "d_a.py") (py "a.py"); Reloaded]).
Proof.
  exact (disable_then_enable_restores (init two_plugins) two_plugins (py "a")
           eq_refl eq_refl eq_refl eq_refl eq_refl).
Defined.

(** The empty name is where the round trip fails: with a file [.py] in
    the directory, [disable_plugin] of the empty name renames the file,
    and [enable_plugin] finds the plugin directory itself in place of an
    enabled unit, reloads without renaming anything and reports
    failure. *)
Example empty_name_is_not_restored :
  let fs := [file_entry ".py" plugin_a] in
  let fs1 := rename fs (py ".py") (py "d_.py") in
  path_exists fs [] = true /\
  disable_plugin (init fs) fs [] true
  = (true, reload_plugins (init fs) fs1, fs1,
     [Renamed (py ".py") (py "d_.py"); Reloaded]) /\
  enable_plugin (reload_plugins (init fs) fs1) fs1 [] true
  = (false, reload_plugins (reload_plugins (init fs) fs1) fs1, fs1, [Reloaded]).
Proof. repeat split. Qed.

End RenameFacts.

(** ** The file monitor *)
Section MonitorFacts.
Import PluginManager.

(** The step of the loop of [initialize_file_timestamps]. *)
Definition stamp_entry (ts : gmap pystr Z) (e : entry) : gmap pystr Z :=
  if watched e then
    match st_mtime e with
    | Some t => <[item_path (name e) := t]> ts
    | None => ts
    end
  else ts.

Lemma snapshot_fold (st : manager) (fs : directory) :
  file_timestamps (initialize_file_timestamps st fs) = fold_left stamp_entry fs ∅.
Proof. reflexivity. Qed.

Lemma item_path_inj (a b : pystr) : item_path a = item_path b -> a = b.
Proof. unfold item_path. apply app_inv_head. Qed.

Lemma stamp_fold_origin (fs : directory) :
  forall ts p t,
    fold_left stamp_entry fs ts !! p = Some t ->
    ts !! p = Some t \/
    exists e, e ∈ fs /\ p = item_path (name e) /\ watched e = true /\
              st_mtime e = Some t.
Proof.
  induction fs as [|x fs IH]; intros ts p t H; simpl in H; [by left|].
  destruct (IH _ _ _ H) as [H0|(e & He & ?)].
  - unfold stamp_entry in H0.
    destruct (watched x) eqn:Hw; [|by left].
    destruct (st_mtime x) as [tx|] eqn:Hx; [|by left].
    destruct (decide (item_path (name x) = p)) as [<-|Hne].
    + rewrite lookup_insert_eq in H0. injection H0 as ->.
      right. exists x. split; [by left|done].
    + rewrite lookup_insert_ne in H0 by done. by left.
  - right. exists e. split; [by right|done].
Qed.

Lemma stamp_fold_other (fs : directory) (n : pystr) :
  (forall x, x ∈ fs -> name x <> n) ->
  forall ts, fold_left stamp_entry fs ts !! item_path n = ts !! item_path n.
Proof.
  induction fs as [|x fs IH]; intros Hn ts; simpl; [done|].
  rewrite IH by (intros y Hy; apply Hn; by right).
  unfold stamp_entry. destruct (watched x); [|done].
  destruct (st_mtime x); [|done].
  apply lookup_insert_ne. intros ?%item_path_inj. by apply (Hn x); [left|].
Qed.

Lemma stamp_fold_kept (fs : directory) (e : entry) (t : Z) :
  NoDup (name <$> fs) -> e ∈ fs -> watched e = true -> st_mtime e = Some t ->
  forall ts, fold_left stamp_entry fs ts !! item_path (name e) = Some t.
Proof.
  intros Hnd He Hw Ht. induction fs as [|x fs IH]; intros ts.
  - by apply elem_of_nil in He.
  - csimpl in Hnd. apply NoDup_cons in Hnd as [Hx Hnd]. simpl.
    apply elem_of_cons in He as [->|He].
    + rewrite stamp_fold_other.
      * unfold stamp_entry. rewrite Hw, Ht. apply lookup_insert_eq.
      * intros y Hy Heq. apply Hx. apply list_elem_of_fmap. by exists y.
    + by apply IH.
Qed.

(** X16: the monitor asks for a reload exactly when a watched file of
    the snapshot has another modification time now.  With the time stamps
    taken on a directory [fs], a pass over the directory as it is now
    ([fs']) posts a reload if and only if some [.py] file that was in
    [fs] is in [fs'] under the same name with a different time; files
    that are new, gone or unchanged never cause one. *)
Theorem monitor_detects_modifications (st : manager) (fs fs' : directory) :
  NoDup (name <$> fs) ->
  (monitor_pass (initialize_file_timestamps st fs) fs' true).2 = true <->
  exists e e' t t',
    e ∈ fs /\ e' ∈ fs' /\ name e' = name e /\
    watched e = true /\ watched e' = true /\
    st_mtime e = Some t /\ st_mtime e' = Some t' /\ t <> t'.
Proof.
  intros Hnd. unfold monitor_pass.
  destruct (existsb (changed (initialize_file_timestamps st fs)) fs') eqn:Hex; simpl.
  - split; [intros _|done].
    apply existsb_exists in Hex as (e' & He' & Hch).
    unfold changed in Hch. rewrite snapshot_fold in Hch.
    apply andb_true_iff in Hch as [Hw' Hch].
    destruct (st_mtime e') as [t'|] eqn:Ht'; [|done].
    destruct (fold_left stamp_entry fs ∅ !! item_path (name e')) as [t|] eqn:Hl;
      [|done].
    apply stamp_fold_origin in Hl as [Hl|(e & He & Hp & Hw & Ht)].
    + by rewrite lookup_empty in Hl.
    + apply item_path_inj in Hp. exists e, e', t, t'.
      repeat split; try done.
      * by apply list_elem_of_In.
      * apply negb_true_iff, Z.eqb_neq in Hch. congruence.
  - split; [done|]. intros (e & e' & t & t' & He & He' & Hn & Hw & Hw' & Ht & Ht' & Hne).
    exfalso. apply not_true_iff_false in Hex. apply Hex.
    apply existsb_exists. exists e'. split; [by apply list_elem_of_In|].
    unfold changed. rewrite Hw', Ht', snapshot_fold, Hn.
    rewrite (stamp_fold_kept fs e t) by done. simpl.
    apply negb_true_iff, Z.eqb_neq. congruence.
Qed.

(** The directory [two_plugins] after [a.py] has been saved again and a
    new plugin file has appeared. *)
Definition touched_directory : directory :=
  [file_entry "b.py" plugin_b;
   {| name := py "a.py"; kind_of := File; st_mtime := Some 7;
      source := Imported plugin_a; setup_py := None |};
   file_entry "c.py" plugin_a].

Lemma monitor_detects_modifications_witness :
  (monitor_pass (initialize_file_timestamps (init two_plugins) two_plugins)
     touched_directory true).2 = true /\
  (monitor_pass (initialize_file_timestamps (init two_plugins) two_plugins)
     (two_plugins ++ [file_entry "c.py" plugin_a]) true).2 = false.
Proof.
  split; [|reflexivity].
  apply (monitor_detects_modifications (init two_plugins) two_plugins
           touched_directory).
  - repeat constructor; rewrite ?elem_of_cons; intros H;
      repeat (destruct H as [H|H]; [discriminate|]); by apply elem_of_nil in H.
  - exists (file_entry "a.py" plugin_a),
      {| name := py "a.py"; kind_of := File; st_mtime := Some 7;
         source := Imported plugin_a; setup_py := None |}, 0, 7.
    repeat split; try done.
    + right. by left.
    + right. by left.
Defined.

End MonitorFacts.

(** ** The listing against the registry *)
Section ListingFacts.
Import PluginManager.

Lemma odict_find_set {V} (d : ODict.t V) (k k' : pystr) (v : V) :
  ODict.find (ODict.set d k v) k'
  = if PyStr.eqb k k' then Some v else ODict.find d k'.
Proof.
  induction d as [|[k0 v0] d IH]; simpl.
  - done.
  - destruct (PyStr.eqb k0 k) eqn:H0; simpl.
    + apply eqb_eq in H0 as ->. by destruct (PyStr.eqb k k').
    + rewrite IH. destruct (PyStr.eqb k0 k') eqn:H1; [|done].
      apply eqb_eq in H1 as ->. apply bool_decide_eq_false in H0.
      unfold PyStr.eqb. by rewrite bool_decide_eq_false_2 by congruence.
Qed.

Lemma odict_find_keys {V} (d : ODict.t V) (k : pystr) :
  k ∈ d.*1 <-> is_Some (ODict.find d k).
Proof.
  induction d as [|[k0 v0] d IH]; csimpl.
  - split; [by intros ?%elem_of_nil|by intros [? ?]].
  - rewrite elem_of_cons, IH. destruct (PyStr.eqb k0 k) eqn:H0.
    + apply eqb_eq in H0 as ->. split; [by eexists|by left].
    + split; [intros [->|?]; [by rewrite eqb_refl in H0|done]|by right].
Qed.

(** What [get_plugin_list] reports for a name that is enabled on disk. *)
Definition status (st : manager) (n : pystr) : listing :=
  match ODict.find (plugins st) n with
  | Some p => Loaded (type p) (trigger p) (help p) (priority p)
  | None =>
      match failed_plugins st !! n with
      | Some why => LoadFailed why
      | None => NotLoaded
      end
  end.

Definition lists (n : pystr) (on : bool) (e : entry) : bool :=
  bool_decide (listed_name e = Some (n, on)).

Lemma listing_fold (st : manager) (fs : directory) (n : pystr) :
  forall acc,
    ODict.find (enabled_on_disk (fold_left (list_entry st) fs acc)) n
    = (if existsb (lists n true) fs then Some (status st n)
       else ODict.find (enabled_on_disk acc) n) /\
    ODict.find (disabled_on_disk (fold_left (list_entry st) fs acc)) n
    = (if existsb (lists n false) fs then Some Disabled
       else ODict.find (disabled_on_disk acc) n).
Proof.
  induction fs as [|e fs IH]; intros acc; simpl; [done|].
  destruct (IH (list_entry st acc e)) as [-> ->].
  assert (Hle : forall on, lists n on e = bool_decide (listed_name e = Some (n, on)))
    by done.
  rewrite !Hle. unfold list_entry.
  destruct (listed_name e) as [[n' [|]]|] eqn:Hl; simpl;
    rewrite ?odict_find_set.
  - split.
    + destruct (existsb (lists n true) fs); [by rewrite orb_true_r|].
      rewrite orb_false_r. case_bool_decide as Hn.
      * injection Hn as ->. by rewrite eqb_refl.
      * assert (PyStr.eqb n' n = false) as ->; [|done].
        apply bool_decide_eq_false. congruence.
    + by rewrite ?bool_decide_eq_false_2 by congruence.
  - split.
    + by rewrite ?bool_decide_eq_false_2 by congruence.
    + destruct (existsb (lists n false) fs); [by rewrite orb_true_r|].
      rewrite orb_false_r. case_bool_decide as Hn.
      * injection Hn as ->. by rewrite eqb_refl.
      * assert (PyStr.eqb n' n = false) as ->; [|done].
        apply bool_decide_eq_false. congruence.
  - by rewrite ?bool_decide_eq_false_2 by congruence.
Qed.

(** A name listed as enabled is the name of a load candidate, and a
    candidate with a name that is not empty is listed. *)
Lemma listed_candidate (e : entry) (n : pystr) :
  listed_name e = Some (n, true) <->
  n <> [] /\ exists c, candidate_of e = Some c /\ c_name c = n.
Proof.
  unfold listed_name, candidate_of.
  assert (Hnamed : forall m on, (if PyStr.truthy m then Some (m, on) else None)
                                = Some (n, true) <-> n <> [] /\ m = n /\ on = true).
  { intros m on. destruct m; simpl.
    - split; [done|]. by intros (? & <- & _).
    - split; [by intros [= <- <-]|by intros (_ & <- & ->)]. }
  destruct (endswith (name e) (py ".py") && negb (startswith (name e) (py "_"))).
  - destruct (startswith (name e) (py "d_")).
    + rewrite Hnamed. split; [by intros (_ & _ & ?)|by intros (_ & c & ? & _)].
    + rewrite Hnamed. split.
      * intros (? & <- & _). split; [done|]. by eexists.
      * intros (? & c & [= <-] & <-). done.
  - destruct (isdir e && negb (startswith (name e) (py "_"))).
    + destruct (setup_py e).
      * destruct (startswith (name e) (py "d_")).
        -- rewrite Hnamed. split; [by intros (_ & _ & ?)|by intros (_ & c & ? & _)].
        -- rewrite Hnamed. split.
           ++ intros (? & <- & _). split; [done|]. by eexists.
           ++ intros (? & c & [= <-] & <-). done.
      * destruct (startswith (name e) (py "d_"));
          (split; [done|by intros (_ & c & ? & _)]).
    + split; [done|by intros (_ & c & ? & _)].
Qed.

Lemma existsb_lists (fs : directory) (n : pystr) (on : bool) :
  existsb (lists n on) fs = true <-> exists e, e ∈ fs /\ listed_name e = Some (n, on).
Proof.
  rewrite existsb_exists. unfold lists. split.
  - intros (e & He & H). exists e. split; [by apply list_elem_of_In|].
    by apply bool_decide_eq_true in H.
  - intros (e & He & H). exists e. split; [by apply list_elem_of_In|].
    by apply bool_decide_eq_true.
Qed.

(** X17: the listing taken right after a load agrees with the registry.
    Every name it reports as enabled on disk is either loaded, with the
    type, trigger, help and priority of the registry, or failed, with the
    recorded error: none is reported as "not loaded".  Every loaded plugin
    whose name is not empty is reported as loaded, and everything under
    [disabled_on_disk] is reported as disabled. *)
Theorem listing_after_load (st : manager) (fs : directory) :
  let st' := load_plugins st fs in
  let report := get_plugin_list st' fs in
  (forall n l,
      ODict.find (enabled_on_disk report) n = Some l ->
      (exists p, ODict.find (plugins st') n = Some p /\
                 l = Loaded (type p) (trigger p) (help p) (priority p)) \/
      (exists why, ODict.find (plugins st') n = None /\
                   failed_plugins st' !! n = Some why /\ l = LoadFailed why)) /\
  (forall n p,
      n <> [] -> ODict.find (plugins st') n = Some p ->
      ODict.find (enabled_on_disk report) n
      = Some (Loaded (type p) (trigger p) (help p) (priority p))) /\
  (forall n l, ODict.find (disabled_on_disk report) n = Some l -> l = Disabled).
Proof.
  cbv zeta. unfold get_plugin_list.
  destruct (load_plugins_accounted st fs) as (Hin & Hp & _).
  split; [|split].
  - intros n l. rewrite (proj1 (listing_fold _ fs n _)).
    destruct (existsb (lists n true) fs) eqn:Hex; [|done].
    intros [= <-]. apply existsb_lists in Hex as (e & He & Hl).
    apply listed_candidate in Hl as (_ & c & Hc & <-).
    assert (Hcs : c ∈ candidates fs).
    { unfold candidates. apply list_elem_of_omap. by exists e. }
    specialize (Hin c Hcs). unfold status. destruct (loadable c).
    + apply odict_find_keys in Hin as [p Hfind]. rewrite Hfind. left. by exists p.
    + destruct (ODict.find _ (c_name c)) as [p|] eqn:Hfind.
      * left. by exists p.
      * destruct Hin as [why Hwhy]. rewrite Hwhy. right. by exists why.
  - intros n p Hn Hfind. rewrite (proj1 (listing_fold _ fs n _)).
    assert (Hk : n ∈ (plugins (load_plugins st fs)).*1).
    { apply odict_find_keys. by eexists. }
    destruct (Hp n Hk) as (c & Hc & Hname & _).
    unfold candidates in Hc. apply list_elem_of_omap in Hc as (e & He & Hce).
    rewrite (proj2 (existsb_lists fs n true)).
    + unfold status. by rewrite Hfind.
    + exists e. split; [done|]. apply listed_candidate. split; [done|]. by exists c.
  - intros n l. rewrite (proj2 (listing_fold _ fs n _)).
    destruct (existsb (lists n false) fs); [by intros [= <-]|done].
Qed.

End ListingFacts.

(** ** Which plugins an event reaches *)
Section RoutingFacts.
Import PluginManager.

(** The two events of the framework itself. *)
Definition is_lunar (ev : event) : bool :=
  isinstance ev LunarStartListen || isinstance ev LunarStopListen.

(** Handlers that leave the class of the event object alone. *)
Definition keeps_class (registry : ODict.t plugin_info) : Prop :=
  forall n p h ev,
    (n, p) ∈ registry ->
    on_message (module p) = Some h \/ on_lunar_event (module p) = Some h ->
    cls (h ev).2 = cls ev.

(** What a call made for an event of class [c] has to be. *)
Definition routed (c : event_class) (p : plugin_info) (i : invocation) : Prop :=
  if issubclass c LunarStartListen || issubclass c LunarStopListen then
    i_entry i = OnLunarEvent /\ is_Some (on_lunar_event (module p))
  else
    i_entry i = OnMessage /\ is_Some (on_message (module p)) /\
    (issubclass c MessageEvent = false -> trigger p = py "Any").

Lemma should_trigger_class (keyword trigger : pystr) (ev ev' : event) (b : bool) :
  should_trigger keyword trigger ev = Ok (b, ev') ->
  cls ev' = cls ev /\
  (b = true -> isinstance ev MessageEvent = false -> trigger = py "Any").
Proof.
  unfold should_trigger. destruct (isinstance ev MessageEvent).
  - destruct (PyStr.eqb trigger (py "Any")); [by intros [= <- <-]|].
    destruct (is_command ev && _); [by intros [= <- <-]|].
    destruct (get_text ev) as [text|]; cbn [bind]; [|done].
    destruct (PyStr.truthy text && _); by intros [= <- <-].
  - intros [= <- <-]. split; [done|]. by intros ?%eqb_eq.
Qed.

Lemma walk_routed (keyword : pystr) (registry : ODict.t plugin_info) :
  keeps_class registry ->
  forall ev i,
    i ∈ (walk keyword registry ev).1.2 ->
    exists p, (i_plugin i, p) ∈ registry /\ routed (cls ev) p i.
Proof.
  induction registry as [|[n p] rest IH]; intros Hk ev i; simpl.
  - by intros ?%elem_of_nil.
  - assert (Hrest : keeps_class rest).
    { intros n' p' h ev' Hin. apply (Hk n' p' h ev'). by right. }
    assert (Hlater : forall ev1, cls ev1 = cls ev ->
              i ∈ (walk keyword rest ev1).1.2 ->
              exists p0, (i_plugin i, p0) ∈ (n, p) :: rest /\ routed (cls ev) p0 i).
    { intros ev1 Hc Hi. destruct (IH Hrest ev1 i Hi) as (p0 & ? & Hr).
      exists p0. split; [by right|]. by rewrite <- Hc. }
    unfold selected, isinstance.
    destruct (issubclass (cls ev) LunarStartListen
              || issubclass (cls ev) LunarStopListen) eqn:Hl.
    + destruct (on_lunar_event (module p)) as [h|] eqn:Hh; simpl; [|by apply Hlater].
      pose proof (Hk n p h ev ltac:(by left) ltac:(by right)) as Hc.
      destruct (h ev) as [r ev2]. simpl in Hc.
      assert (Hthis : exists p0, (n, p0) ∈ (n, p) :: rest /\
                 routed (cls ev) p0 {| i_plugin := n; i_entry := OnLunarEvent;
                                       i_result := r |}).
      { exists p. split; [by left|]. unfold routed. rewrite Hl, Hh. by split. }
      specialize (Hlater ev2 Hc).
      destruct (walk keyword rest ev2) as [[b t] ev3]. simpl in Hlater.
      destruct r as [[|]|e]; [| |destruct (is_Exception e)]; simpl;
        intros [->|Hi]%elem_of_cons; try done; try (by apply Hlater);
        by apply elem_of_nil in Hi.
    + fold (isinstance ev MessageEvent).
      destruct (should_trigger keyword (trigger p) ev) as [[[|] ev1]|] eqn:Hs;
        [| |by apply Hlater].
      * apply should_trigger_class in Hs as [Hc1 Hany].
        destruct (on_message (module p)) as [h|] eqn:Hh; simpl; [|by apply Hlater].
        pose proof (Hk n p h ev1 ltac:(by left) ltac:(by left)) as Hc.
        destruct (h ev1) as [r ev2]. simpl in Hc.
        assert (Hthis : exists p0, (n, p0) ∈ (n, p) :: rest /\
                   routed (cls ev) p0 {| i_plugin := n; i_entry := OnMessage;
                                         i_result := r |}).
        { exists p. split; [by left|]. unfold routed. rewrite Hl, Hh.
          split; [done|]. split; [done|]. by apply Hany. }
        specialize (Hlater ev2 ltac:(congruence)).
        destruct (walk keyword rest ev2) as [[b t] ev3]. simpl in Hlater.
        destruct r as [[|]|e]; [| |destruct (is_Exception e)]; simpl;
          intros [->|Hi]%elem_of_cons; try done; try (by apply Hlater);
          by apply elem_of_nil in Hi.
      * apply should_trigger_class in Hs as [Hc1 _]. by apply Hlater.
Qed.

(** X18: which entry point an event reaches.  With handlers that do not
    change the class of the event object, a dispatch of one of the two
    framework events calls [on_lunar_event] only; a dispatch of any other
    event calls [on_message] only, and when the event is not a message
    (a notice, a request, a meta event or an unclassified frame) only on
    plugins whose trigger is the wildcard [Any]. *)
Theorem events_reach_their_entry_points (st : manager) (kw : option pystr)
  (ev : event) :
  keeps_class (plugins st) ->
  forall i,
    i ∈ (handle_event st kw ev).1.2 ->
    exists p, (i_plugin i, p) ∈ plugins st /\
      if is_lunar ev then
        i_entry i = OnLunarEvent /\ is_Some (on_lunar_event (module p))
      else
        i_entry i = OnMessage /\ is_Some (on_message (module p)) /\
        (isinstance ev MessageEvent = false -> trigger p = py "Any").
Proof.
  intros Hk i Hi.
  assert (Hw : i ∈ (walk (keyword_of kw) (plugins st) ev).1.2).
  { unfold handle_event in Hi.
    destruct (isinstance ev MessageEvent);
      [destruct (get_text ev); [|by apply elem_of_nil in Hi]|];
      by destruct (walk _ _ ev) as [[b t] e]. }
  destruct (walk_routed _ _ Hk ev i Hw) as (p & Hin & Hr).
  exists p. split; [done|]. exact Hr.
Qed.

Lemma two_plugins_keep_class :
  keeps_class (plugins (load_plugins (init two_plugins) two_plugins)).
Proof.
  intros n p h ev Hin Hh.
  apply elem_of_cons in Hin as [[= -> ->]|Hin];
    [|apply elem_of_cons in Hin as [[= -> ->]|Hin]; [|by apply elem_of_nil in Hin]];
    simpl in Hh; destruct Hh as [[= <-]|[=]]; done.
Qed.

Lemma events_reach_their_entry_points_witness :
  (handle_event (load_plugins (init two_plugins) two_plugins) None
     (new GroupPokeNoticeEvent [])).1.2
  = [call "b" OnMessage (Returned true)] /\
  exists p, (py "b", p) ∈ plugins (load_plugins (init two_plugins) two_plugins) /\
            trigger p = py "Any".
Proof.
  split; [reflexivity|].
  destruct (events_reach_their_entry_points
              (load_plugins (init two_plugins) two_plugins) None
              (new GroupPokeNoticeEvent []) two_plugins_keep_class
              (call "b" OnMessage (Returned true)) ltac:(by left))
    as (p & Hin & _ & _ & Hany).
  exists p. split; [done|]. by apply Hany.
Defined.

(** X19: a reload rebuilds everything from the directory.  Two managers
    that differ in registry, failures and time stamps are the same
    manager after a reload on the same directory; a second reload changes
    nothing; and a name with neither [name.py] nor a directory [name] in
    the directory is not in the registry afterwards, loaded before or
    not. *)
Theorem reload_rebuilds_from_directory (s1 s2 : manager) (fs : directory) :
  monitoring_enabled s1 = monitoring_enabled s2 ->
  reload_plugins s1 fs = reload_plugins s2 fs /\
  reload_plugins (reload_plugins s1 fs) fs = reload_plugins s1 fs /\
  (forall n, in_listdir fs (n ++ py ".py") = false ->
             in_listdir fs n = false ->
             ODict.mem (plugins (reload_plugins s1 fs)) n = false).
Proof.
  intros Hm. split; [by apply reload_plugins_ext|].
  split; [apply reload_plugins_idempotent|].
  intros n. apply not_on_disk_not_loaded.
Qed.

Lemma reload_rebuilds_from_directory_witness :
  reload_plugins (load_plugins (init two_plugins) two_plugins)
    [file_entry "b.py" plugin_b]
  = reload_plugins (init []) [file_entry "b.py" plugin_b] /\
  ODict.mem
    (plugins (reload_plugins (load_plugins (init two_plugins) two_plugins)
                [file_entry "b.py" plugin_b])) (py "a") = false.
Proof.
  destruct (reload_rebuilds_from_directory
              (load_plugins (init two_plugins) two_plugins) (init [])
              [file_entry "b.py" plugin_b] eq_refl) as (H1 & _ & H3).
  split; [exact H1|exact (H3 (py "a") eq_refl eq_refl)].
Defined.

End RoutingFacts.

(* ===================================================================== *)
(** * core/bot.py: permissions, event handling, the listening loop *)
(* ===================================================================== *)
Module Session.
Import PluginManager Bot Reader.

(** [a == b] for two decoded values: [True] and [False] compare equal to
    1 and 0, lists compare element by element, dicts by their keys and
    values. *)
Fixpoint py_eq (a b : json) {struct a} : bool :=
  match a, b with
  | JNull, JNull => true
  | JBool x, JBool y => Bool.eqb x y
  | JBool x, JNum n => (if x then 1 else 0) =? n
  | JNum n, JBool y => n =? (if y then 1 else 0)
  | JNum n, JNum m => n =? m
  | JStr s, JStr t => PyStr.eqb s t
  | JArr l, JArr m =>
      (fix items (l m : list json) : bool :=
         match l, m with
         | [], [] => true
         | x :: l', y :: m' => py_eq x y && items l' m'
         | _, _ => false
         end) l m
  | JObj d, JObj e =>
      (length d =? length e)%nat
      && (fix fields (d : list (pystr * json)) : bool :=
            match d with
            | [] => true
            | (k, v) :: d' =>
                (if contains e k then py_eq v (get e k JNull) else false)
                && fields d'
            end) d
  | _, _ => false
  end.

(** Lists and dicts are not hashable. *)
Definition hashable (v : json) : bool :=
  match v with
  | JArr _ | JObj _ => false
  | _ => true
  end.

(** [x in container]: an element of a list, a substring of a string, a
    key of a dict; other values are not containers. *)
Definition py_in (x container : json) : result bool :=
  match container with
  | JArr l => Ok (existsb (fun y => py_eq y x) l)
  | JStr s =>
      match x with
      | JStr sub => Ok (contains_str s sub)
      | _ => Raise TypeError
      end
  | JObj d =>
      if hashable x then Ok (existsb (fun kv => py_eq (JStr (fst kv)) x) d)
      else Raise TypeError
  | _ => Raise TypeError
  end.

(** [LunarBot._check_permission] *)
Definition _check_permission (config : dict) (user_id : json)
  (required_level : pystr) : result bool :=
  let root_user := get config (py "root_user") JNull in
  if py_eq user_id root_user then Ok true
  else if PyStr.eqb required_level (py "super") then
    py_in user_id (get config (py "super_users") (JArr []))
  else
    try! manager := py_in user_id (get config (py "manager_users") (JArr [])) in
    if manager then Ok true
    else py_in user_id (get config (py "super_users") (JArr [])).

(** An attribute of the event object set by [__init__]. *)
Definition attr (ev : event) (name : string) : json :=
  get (attrs ev) (py name) JNull.

(** [v.get(...)] needs a dict. *)
Definition dict_method (v : json) : result unit :=
  match v with
  | JObj _ => Ok tt
  | _ => Raise AttributeError
  end.

(** [Event.log_event], which the generic classes inherit: what it
    evaluates before it logs. *)
Definition log_event_base (ev : event) : result unit :=
  let raw := raw_data ev in
  if contains raw (py "status") && is_str (get raw (py "status") JNull) (py "ok") then
    try! confirmed := py_in (JStr (py "message_id")) (get raw (py "data") (JObj [])) in
    if confirmed then
      (* self.raw_data['data']['message_id'] *)
      match get raw (py "data") (JObj []) with
      | JObj _ => Ok tt
      | _ => Raise TypeError
      end
    else Ok tt
  else Ok tt.

(** [event.log_event()] for each class: what the method evaluates to
    build its line; the line itself goes to the logger. *)
Definition log_event (ev : event) : result unit :=
  match cls ev with
  | Event | MessageEvent | NoticeEvent | RequestEvent | MetaEvent =>
      log_event_base ev
  | PrivateMessageEvent =>
      try! _ := dict_method (attr ev "sender") in
      try! _ := get_text ev in
      Ok tt
  | GroupMessageEvent =>
      try! _ := (if truth (attr ev "anonymous")
                 then dict_method (attr ev "anonymous")
                 else dict_method (attr ev "sender")) in
      try! _ := get_text ev in
      Ok tt
  | GroupUploadNoticeEvent => dict_method (attr ev "file")
  | GroupHonorNoticeEvent =>
      if hashable (attr ev "honor_type") then Ok tt else Raise TypeError
  | _ => Ok tt
  end.

(** The count [message_count['received']] after a message event. *)
Definition count_received (ev : event) (received : nat) : nat :=
  if isinstance ev GroupMessageEvent || isinstance ev PrivateMessageEvent
  then S received else received.

(** [LunarBot._handle_event] on one frame taken from the queue, with the
    [log_event] call that opens each of the handlers it dispatches to.
    Returns how the event was handled, or what the method raises, and the
    count of received messages, which [_handle_message_event] updates
    before it reads the text and dispatches. *)
Definition _handle_event (rt : runtime) (st : manager)
  (trigger_keyword : option pystr)
  (native_commands : pystr -> option (pystr -> event -> bool))
  (received : nat) (event_data : json) : result handled_by * nat :=
  match create_event_of_frame event_data (Some rt) with
  | Raise e => (Raise e, received)
  | Ok event =>
      match log_event event with
      | Raise e => (Raise e, received)
      | Ok _ =>
          if isinstance event MessageEvent then
            (try! r := _handle_message_event st trigger_keyword
                         native_commands event in
             Ok (fst r),
             count_received event received)
          else
            let '(r, calls, _) := handle_event st trigger_keyword event in
            (try! _ := except_Exception r in Ok (Plugins r calls), received)
      end
  end.

(** What a run of [_listen_events] did: how each handled frame was
    handled, the count of received messages, what ended the loop if
    something raised did, the calls made for [LunarStopListen], and what
    the method itself lets out. *)
Record listened := {
  handled : list handled_by;
  received_count : nat;
  ended_by : option exn;
  stop_calls : list invocation;
  raised : option exn
}.

(** The loop of [_listen_events] over the frames [listen] yields. *)
Fixpoint handle_frames (rt : runtime) (st : manager)
  (trigger_keyword : option pystr)
  (native_commands : pystr -> option (pystr -> event -> bool))
  (received : nat) (frames : list json)
  : list handled_by * nat * option exn :=
  match frames with
  | [] => ([], received, None)
  | event_data :: rest =>
      match _handle_event rt st trigger_keyword native_commands received event_data with
      | (Ok r, received') =>
          let '(t, n, e) :=
            handle_frames rt st trigger_keyword native_commands received' rest in
          (r :: t, n, e)
      | (Raise e, received') => ([], received', Some e)
      end
  end.

(** What leaves [try: ... except Exception: ... finally: stop] when the
    [try] block ended by [e] and the [finally] clause as [stop]: what the
    [finally] clause raises, or else what the [except] clause did not
    catch. *)
Definition let_out (e : option exn) (stop : result unit) : option exn :=
  match stop with
  | Raise e' => Some e'
  | Ok _ =>
      match e with
      | Some e => if is_Exception e then None else Some e
      | None => None
      end
  end.

(** [LunarBot._listen_events]: an [Exception] out of the loop is logged,
    and the [finally] clause dispatches [LunarStopListen]. *)
Definition _listen_events (rt : runtime) (st : manager)
  (trigger_keyword : option pystr)
  (native_commands : pystr -> option (pystr -> event -> bool))
  (received : nat) (frames : list json) : listened :=
  let '(t, n, e) :=
    handle_frames rt st trigger_keyword native_commands received frames in
  let '(stop, calls, _) :=
    _handle_plugin_event st trigger_keyword new_LunarStopListen in
  {| handled := t; received_count := n; ended_by := e;
     stop_calls := calls; raised := let_out e stop |}.

End Session.

(** ** Permissions and the listening loop *)
Section SessionFacts.
Import PluginManager Bot Reader Session.

(** X20: the permission levels.  The configured root user passes every
    check, and so does an event without a user id when no root user is
    configured (both are [None]); every level other than [super] is the
    manager level; and with [manager_users] a list, whoever passes the
    [super] check passes every check. *)
Theorem permission_levels (config : dict) (user_id : json) :
  (py_eq user_id (get config (py "root_user") JNull) = true ->
   forall level, _check_permission config user_id level = Ok true) /\
  (contains config (py "root_user") = false ->
   forall level, _check_permission config JNull level = Ok true) /\
  (forall level,
      level <> py "super" ->
      _check_permission config user_id level
      = _check_permission config user_id (py "manager")) /\
  (forall managers level,
      get config (py "manager_users") (JArr []) = JArr managers ->
      _check_permission config user_id (py "super") = Ok true ->
      _check_permission config user_id level = Ok true).
Proof.
  split; [|split; [|split]].
  - intros H level. unfold _check_permission. by rewrite H.
  - intros H level. unfold _check_permission. by rewrite (get_missing _ _ _ H).
  - intros level Hl. unfold _check_permission.
    destruct (py_eq user_id _); [done|].
    assert (PyStr.eqb level (py "super") = false) as ->; [|done].
    apply bool_decide_eq_false. done.
  - intros managers level Hm. unfold _check_permission.
    destruct (py_eq user_id _); [done|]. cbn [PyStr.eqb]. rewrite eqb_refl.
    intros Hs. destruct (PyStr.eqb level (py "super")); [done|].
    rewrite Hm. cbn [py_in bind]. by destruct (existsb _ managers).
Qed.

(** A configuration in the shape of the shipped default. *)
Definition sample_config : dict :=
  [(py "root_user", JNum 1348472639);
   (py "super_users", JArr [JNum 987654321]);
   (py "manager_users", JArr [JNum 123456789; JNum 987654321])].

Lemma permission_levels_witness :
  _check_permission sample_config (JNum 1348472639) (py "super") = Ok true /\
  _check_permission [] JNull (py "super") = Ok true /\
  _check_permission sample_config (JNum 123456789) (py "root")
  = _check_permission sample_config (JNum 123456789) (py "manager") /\
  _check_permission sample_config (JNum 987654321) (py "manager") = Ok true.
Proof.
  split; [|split; [|split]].
  - exact (proj1 (permission_levels sample_config (JNum 1348472639)) eq_refl _).
  - exact (proj1 (proj2 (permission_levels [] JNull)) eq_refl _).
  - apply (proj1 (proj2 (proj2 (permission_levels sample_config (JNum 123456789))))).
    discriminate.
  - exact (proj2 (proj2 (proj2 (permission_levels sample_config (JNum 987654321))))
             _ _ eq_refl eq_refl).
Defined.

Section Loop.
Variables (rt : runtime) (st : manager) (kw : option pystr)
  (native : pystr -> option (pystr -> event -> bool)).

Lemma handle_frames_app (before rest : list json) :
  forall received,
    handle_frames rt st kw native received (before ++ rest)
    = let '(t, n, e) := handle_frames rt st kw native received before in
      match e with
      | Some _ => (t, n, e)
      | None =>
          let '(t', n', e') := handle_frames rt st kw native n rest in
          (t ++ t', n', e')
      end.
Proof.
  induction before as [|f before IH]; intros received; simpl.
  - by destruct (handle_frames rt st kw native received rest) as [[t n] e].
  - destruct (_handle_event rt st kw native received f) as [[r|e] received'];
      [|done].
    rewrite IH.
    destruct (handle_frames rt st kw native received' before) as [[t n] [e|]]; [done|].
    by destruct (handle_frames rt st kw native n rest) as [[t' n'] e'].
Qed.

(** A frame whose handling raises an [Exception] leaves the count of
    received messages as it was: the only thing [_handle_message_event]
    evaluates between the update of the count and the dispatch is the
    text, which [log_event] has derived before for the counted classes. *)
Lemma raise_keeps_count (received : nat) (frame : json) (e : exn) :
  fst (_handle_event rt st kw native received frame) = Raise e ->
  is_Exception e = true ->
  snd (_handle_event rt st kw native received frame) = received.
Proof.
  unfold _handle_event.
  destruct (create_event_of_frame frame (Some rt)) as [ev|]; [|done].
  destruct (log_event ev) as [[]|] eqn:Hlog; [|done].
  destruct (isinstance ev MessageEvent) eqn:Hm.
  - cbn [fst snd]. unfold _handle_message_event, count_received.
    destruct (get_text ev) as [text|e'] eqn:Ht.
    + intros Hr He. exfalso. cbn [bind] in Hr.
      set (ev1 := extract_command (keyword_of kw) text ev) in Hr.
      assert (Hp : forall (r : result bool) calls (ev2 : event),
                 (try! r0 := (try! _ := except_Exception r in
                              Ok (Plugins r calls, ev2)) in Ok (fst r0))
                 <> Raise e).
      { intros [b|e0] calls ev2; simpl; [done|].
        destruct (is_Exception e0) eqn:He0; simpl; [done|]. congruence. }
      destruct (handle_event st kw ev1) as [[r calls] ev2].
      destruct (PyStr.truthy text && startswith text (keyword_of kw));
        [destruct (native (default [] (command ev1))) as [f|];
         [destruct (f (default [] (args ev1)) ev1); [done|]|]|];
        by apply (Hp r calls ev2).
    + intros _ _. unfold isinstance.
      destruct (issubclass (cls ev) GroupMessageEvent
                || issubclass (cls ev) PrivateMessageEvent) eqn:Hc; [|done].
      exfalso. unfold log_event in Hlog.
      destruct (cls ev); try done; rewrite Ht in Hlog;
        match type of Hlog with bind ?x _ = _ => destruct x end;
        simpl in Hlog; done.
  - by destruct (handle_event st kw ev) as [[r calls] ev'].
Qed.

(** X21: the first frame whose handling raises ends the listening loop.
    The frames before it are handled in order, the frames after it are
    never handled, and [LunarStopListen] is dispatched.  The count of
    received messages is the count the frame left, which is the count
    before it when what was raised is an [Exception].  A frame that is
    not a JSON object raises, and so does a message frame whose [message]
    field is neither a list nor an object. *)
Theorem bad_frame_ends_listening (received : nat) (before after : list json)
  (bad : json) (e : exn) :
  ended_by (_listen_events rt st kw native received before) = None ->
  fst (_handle_event rt st kw native
         (received_count (_listen_events rt st kw native received before)) bad)
  = Raise e ->
  let good := _listen_events rt st kw native received before in
  let stop := _handle_plugin_event st kw new_LunarStopListen in
  _listen_events rt st kw native received (before ++ bad :: after)
  = {| handled := handled good;
       received_count :=
         snd (_handle_event rt st kw native (received_count good) bad);
       ended_by := Some e;
       stop_calls := stop.1.2;
       raised := let_out (Some e) stop.1.1 |} /\
  (is_Exception e = true ->
   snd (_handle_event rt st kw native (received_count good) bad)
   = received_count good) /\
  (forall n v, match v with JObj _ => False | _ => True end ->
               _handle_event rt st kw native n v = (Raise AttributeError, n)) /\
  (forall n data,
      is_str (get data (py "post_type") JNull) (py "message") = true ->
      match get data (py "message") (JArr []) with
      | JArr _ | JObj _ => False
      | _ => True
      end ->
      _handle_event rt st kw native n (JObj data) = (Raise ValueError, n)).
Proof.
  intros Hgood Hbad good stop.
  split; [|split; [by apply raise_keeps_count|split]].
  - subst good stop. revert Hgood Hbad. unfold _listen_events.
    rewrite handle_frames_app.
    destruct (handle_frames rt st kw native received before) as [[t n] e0].
    destruct (_handle_plugin_event st kw new_LunarStopListen) as [[s calls] ev'].
    simpl. intros -> Hbad.
    destruct (_handle_event rt st kw native n bad) as [r n'].
    simpl in Hbad. subst r. simpl. by rewrite app_nil_r.
  - intros n0 v Hv. by destruct v.
  - intros n0 data Hpt Hm.
    unfold _handle_event, create_event_of_frame, create_event. rewrite Hpt.
    assert (Hgm : gen_message rt (get data (py "message") (JArr [])) = Raise ValueError).
    { by destruct (get data (py "message") (JArr [])). }
    rewrite Hgm.
    destruct (is_str (get data (py "message_type") JNull) (py "private"));
      [|destruct (is_str (get data (py "message_type") JNull) (py "group"))];
      reflexivity.
Qed.

End Loop.

(** A message in the string format of the protocol, between two
    heartbeats. *)
Definition string_message : json :=
  JObj [(py "post_type", JStr (py "message"));
        (py "message_type", JStr (py "private"));
        (py "message", JStr (py "hello"))].

Lemma bad_frame_ends_listening_witness :
  _listen_events sample_runtime (load_plugins (init two_plugins) two_plugins) None
    (fun _ => None) 0 ([heartbeat] ++ string_message :: [heartbeat; poke])
  = {| handled := [Plugins (Ok true) [call "b" OnMessage (Returned true)]];
       received_count := 0;
       ended_by := Some ValueError;
       stop_calls := [];
       raised := None |}.
Proof.
  exact (proj1 (bad_frame_ends_listening sample_runtime
                  (load_plugins (init two_plugins) two_plugins) None
                  (fun _ => None) 0 [heartbeat] [heartbeat; poke]
                  string_message ValueError eq_refl eq_refl)).
Defined.

End SessionFacts.

Section QuietFrames.
Import PluginManager Bot Reader Session.

(** The classes whose [log_event] only formats attributes: the notices
    other than file uploads and honors, the requests and the meta events
    with a class of their own. *)
Definition formats_only (c : event_class) : bool :=
  match c with
  | GroupAdminNoticeEvent | GroupIncreaseNoticeEvent | GroupDecreaseNoticeEvent
  | GroupBanNoticeEvent | FriendAddNoticeEvent | GroupRecallNoticeEvent
  | FriendRecallNoticeEvent | GroupPokeNoticeEvent
  | FriendRequestEvent | GroupAddRequestEvent | GroupInviteRequestEvent
  | HeartbeatMetaEvent | LifecycleMetaEvent => true
  | _ => false
  end.

(** A frame the factory turns into an event of such a class. *)
Definition plain_frame (rt : runtime) (frame : json) : Prop :=
  exists data ev,
    frame = JObj data /\ create_event data (Some rt) = Ok ev /\
    formats_only (cls ev) = true.

(** No entry point of a loaded plugin lets out what is not an
    [Exception]: none is cancelled or interrupted while it runs. *)
Definition raises_exceptions_only (registry : ODict.t plugin_info) : Prop :=
  forall n p h ev e,
    (n, p) ∈ registry ->
    on_message (module p) = Some h \/ on_lunar_event (module p) = Some h ->
    (h ev).1 = Raised e -> is_Exception e = true.

Lemma selected_entry_point (keyword : pystr) (p : plugin_info) (ev ev1 : event)
  (ep : entry_point) (h : handler) :
  selected keyword p ev = (Some (ep, h), ev1) ->
  on_message (module p) = Some h \/ on_lunar_event (module p) = Some h.
Proof.
  unfold selected.
  destruct (isinstance ev LunarStartListen || isinstance ev LunarStopListen).
  - destruct (on_lunar_event (module p)); simpl; [|done].
    intros [= _ <- _]. by right.
  - destruct (should_trigger keyword (trigger p) ev) as [[[|] ev']|]; try done.
    destruct (on_message (module p)); simpl; [|done].
    intros [= _ <- _]. by left.
Qed.

Lemma walk_returns (keyword : pystr) (registry : ODict.t plugin_info) :
  raises_exceptions_only registry ->
  forall ev, exists b, (walk keyword registry ev).1.1 = Ok b.
Proof.
  induction registry as [|[n p] rest IH]; intros Hr ev; simpl; [by eexists|].
  assert (Hrest : raises_exceptions_only rest).
  { intros n' p' h ev' e Hin. apply (Hr n' p' h ev' e). by right. }
  destruct (selected keyword p ev) as [[[ep h]|] ev1] eqn:Hsel; [|by apply IH].
  pose proof (Hr n p h ev1) as Hh.
  destruct (h ev1) as [r ev2]. destruct (IH Hrest ev2) as [b Hb].
  destruct (walk keyword rest ev2) as [[b' t] ev3]. simpl in Hb. subst b'.
  destruct r as [[|]|e]; [by eexists..|].
  rewrite (Hh e); [by eexists|by left| |done].
  by eapply selected_entry_point.
Qed.

(** What deriving the text raises is a [TypeError]. *)
Lemma get_text_raises (ev : event) (e : exn) :
  get_text ev = Raise e -> e = TypeError.
Proof.
  unfold get_text, get_text_of.
  assert (H : forall parts, str_parts parts = Raise e -> e = TypeError).
  { induction parts as [|v parts IH]; simpl; [done|].
    destruct v; try by intros [= <-].
    destruct (str_parts parts); simpl; [done|]. intros [= <-]. by apply IH. }
  destruct (str_parts _) eqn:Hs; simpl; [done|]. intros [= <-]. by eapply H.
Qed.

Lemma handle_event_caught (st : manager) (kw : option pystr) (ev : event) :
  raises_exceptions_only (plugins st) ->
  except_Exception (handle_event st kw ev).1.1 = Ok tt.
Proof.
  intros Hr. unfold handle_event.
  destruct (walk_returns (keyword_of kw) (plugins st) Hr ev) as [b Hb].
  destruct (walk _ _ ev) as [[b' t] ev']. simpl in Hb. subst b'.
  destruct (isinstance ev MessageEvent); [|done].
  destruct (get_text ev) as [text|e] eqn:Ht; [done|].
  by rewrite (get_text_raises _ _ Ht).
Qed.

Lemma plain_frame_handled (rt : runtime) (st : manager) (kw : option pystr)
  (native : pystr -> option (pystr -> event -> bool)) (n : nat) (frame : json) :
  raises_exceptions_only (plugins st) ->
  plain_frame rt frame ->
  exists r, _handle_event rt st kw native n frame = (Ok r, n).
Proof.
  intros Hr (data & ev & -> & Hev & Hc).
  unfold _handle_event, create_event_of_frame. rewrite Hev.
  assert (log_event ev = Ok tt) as -> by (unfold log_event; by destruct (cls ev)).
  assert (isinstance ev MessageEvent = false) as ->
    by (unfold isinstance; by destruct (cls ev)).
  pose proof (handle_event_caught st kw ev Hr) as Hh.
  destruct (handle_event st kw ev) as [[r calls] ev']. simpl in Hh.
  rewrite Hh. by eexists.
Qed.

(** X22: no notice of the kinds other than [group_upload] and [honor],
    no friend or group request and no heartbeat or lifecycle event ends
    the listening loop, whatever its fields hold and whatever the plugins
    return or raise, as long as what they raise is an [Exception]: every
    such frame is handled, the count of received messages is left alone,
    and [_listen_events] itself returns. *)
Theorem plain_frames_keep_listening (rt : runtime) (st : manager)
  (kw : option pystr) (native : pystr -> option (pystr -> event -> bool))
  (received : nat) (frames : list json) :
  raises_exceptions_only (plugins st) ->
  Forall (plain_frame rt) frames ->
  let r := _listen_events rt st kw native received frames in
  ended_by r = None /\ length (handled r) = length frames /\
  received_count r = received /\ raised r = None.
Proof.
  intros Hr Hf. unfold _listen_events.
  assert (H : let '(t, n, e) := handle_frames rt st kw native received frames in
              e = None /\ length t = length frames /\ n = received).
  { induction Hf as [|f frames Hp _ IH]; simpl; [done|].
    destruct (plain_frame_handled rt st kw native received f Hr Hp) as [r ->].
    destruct (handle_frames rt st kw native received frames) as [[t n] e].
    destruct IH as (-> & <- & ->). done. }
  destruct (handle_frames rt st kw native received frames) as [[t n] e].
  destruct H as (-> & <- & ->).
  pose proof (handle_event_caught st kw new_LunarStopListen Hr) as Hs.
  unfold _handle_plugin_event.
  destruct (handle_event st kw new_LunarStopListen) as [[s calls] ev'].
  simpl in Hs. simpl. by rewrite Hs.
Qed.

Lemma plain_frames_keep_listening_witness :
  raises_exceptions_only
    (plugins (load_plugins (init three_plugins) three_plugins)) /\
  Forall (plain_frame sample_runtime) [heartbeat; poke] /\
  let r := _listen_events sample_runtime
             (load_plugins (init three_plugins) three_plugins) None
             (fun _ => None) 0 [heartbeat; poke] in
  ended_by r = None /\ length (handled r) = 2%nat /\
  received_count r = 0%nat /\ raised r = None.
Proof.
  assert (Hr : raises_exceptions_only
                 (plugins (load_plugins (init three_plugins) three_plugins))).
  { intros n p h ev e Hin Hh He.
    repeat (apply elem_of_cons in Hin as [[= -> ->]|Hin]);
      [| | |by apply elem_of_nil in Hin];
      simpl in Hh; destruct Hh as [[= <-]|Hh]; simplify_eq; simpl in He;
        by simplify_eq. }
  assert (Hf : Forall (plain_frame sample_runtime) [heartbeat; poke]).
  { repeat constructor; eexists _, _; (split; [reflexivity|]);
      split; reflexivity. }
  split; [exact Hr|]. split; [exact Hf|].
  exact (plain_frames_keep_listening sample_runtime
           (load_plugins (init three_plugins) three_plugins) None
           (fun _ => None) 0 [heartbeat; poke] Hr Hf).
Defined.

End QuietFrames.

(** ** Handlers that raise, in the listening loop (C5) *)
Section RaisingHandlers.
Import PluginManager Bot Reader Session.











End RaisingHandlers.

(* ===================================================================== *)
(** * core/bot.py: API calls and sending messages *)
(* ===================================================================== *)
Module Api.
Import Connection Reader Builder.

(** The dicts [_diy_call] returns. *)
Definition diy_ok (response : dict) : dict :=
  [(py "status", JStr (py "ok")); (py "data", get response (py "data") JNull);
   (py "raw_response", JObj response)].

Definition diy_failed (response : dict) : dict :=
  [(py "status", JStr (py "failed"));
   (py "msg", get response (py "message") (JStr [26410; 30693; 38169; 35823]%N));
   (py "raw_response", JObj response)].

Definition diy_no_response : dict :=
  [(py "status", JStr (py "failed"));
   (py "msg", JStr [26410; 25910; 21040; 26381; 21153; 22120; 21709; 24212]%N)].

Definition diy_timeout : dict :=
  [(py "status", JStr (py "timeout"));
   (py "msg", JStr [31561; 24453; 26381; 21153; 22120; 21709; 24212; 36229; 26102]%N)].

Definition diy_error (str_exn : exn -> pystr) (e : exn) : dict :=
  [(py "status", JStr (py "error")); (py "msg", JStr (str_exn e))].

(** What [_diy_call] makes of the outcome of its [send]; [str_exn] is
    [str()] on exceptions. *)
Definition diy_answer (str_exn : exn -> pystr) (sent : result (option json))
  : result dict :=
  match sent with
  | Ok (Some response_data) =>
      if truth response_data then
        match response_data with
        | JObj d =>
            if is_str (get d (py "status") JNull) (py "ok")
            then Ok (diy_ok d) else Ok (diy_failed d)
        | _ => Ok (diy_error str_exn AttributeError)
        end
      else Ok diy_no_response
  | Ok None => Ok diy_no_response
  | Raise TimeoutError => Ok diy_timeout
  | Raise e => if is_Exception e then Ok (diy_error str_exn e) else Raise e
  end.

(** A value passed to an API call: decoded data, a segment object, or a
    list or a dict that may hold segment objects. *)
Inductive param :=
| PJson (v : json)
| PSegment (s : segment)
| PList (items : list param)
| PDictOf (fields : list (pystr * param)).

(** [LunarBot._convert_segments_to_dicts] *)
Fixpoint _convert_segments_to_dicts (data : param) : json :=
  match data with
  | PJson v => v
  | PSegment s => JObj (to_dict s)
  | PList items => JArr (List.map _convert_segments_to_dicts items)
  | PDictOf fields =>
      JObj (List.map (fun kv => (fst kv, _convert_segments_to_dicts (snd kv))) fields)
  end.

(** [LunarBot._diy_call], which the API calls made through [bot.diy]
    reach: the dict returned or the exception raised, and the connection
    and the futures afterwards. *)
Definition _diy_call (str_exn : exn -> pystr) (c : connection) (h : heap)
  (action : pystr) (params : list (pystr * param)) (request_id : pystr)
  (env : suspension) : result dict * connection * heap :=
  let processed_params := _convert_segments_to_dicts (PDictOf params) in
  let request_data := [(py "action", JStr action); (py "params", processed_params)] in
  let o := send c h request_data true request_id env in
  (diy_answer str_exn (returned o), o.1.1.1.2, o.1.1.2).

(** One pass of the first loop of [send_message_segments]: the dict
    appended to [api_message_segments], if any.  An [at] dict with an
    integer [qq] is changed in place to hold it as a string. *)
Definition api_segment (rt : runtime) (segment : piece) : result (option dict) :=
  match segment with
  | PSeg s => Ok (Some (to_dict s))
  | PDict d =>
      if is_str (get d (py "type") JNull) (py "at") then
        try! data := as_dict (get d (py "data") (JObj [])) in
        match get data (py "qq") JNull with
        | JNum _ | JBool _ =>
            Ok (Some (set_key d (py "data")
                        (JObj (set_key data (py "qq")
                                 (JStr (py_str rt (get data (py "qq") JNull)))))))
        | _ => Ok (Some d)
        end
      else Ok (Some d)
  | _ => Ok None
  end.

Fixpoint api_segments (rt : runtime) (message_segments : list piece)
  : result (list dict) :=
  match message_segments with
  | [] => Ok []
  | segment :: rest =>
      try! this := api_segment rt segment in
      try! tail := api_segments rt rest in
      Ok (match this with Some d => d :: tail | None => tail end)
  end.

(** One pass of the loop of [_format_message_for_log] on a segment of
    the given type and data: the part appended to [log_parts], if any. *)
Definition log_part (rt : runtime) (segment_type segment_data : json)
  : result (option pystr) :=
  if is_str segment_type (py "text") then
    try! d := as_dict segment_data in
    match get d (py "text") (JStr []) with
    | JStr text => Ok (if PyStr.truthy (strip text) then Some text else None)
    | _ => Raise AttributeError
    end
  else if is_str segment_type (py "image") then
    Ok (Some [91; 22270; 29255; 93]%N)
  else if is_str segment_type (py "face") then
    try! d := as_dict segment_data in
    Ok (Some ([91; 34920; 24773; 58]%N
              ++ py_str rt (get d (py "id") (JStr [])) ++ [93]%N))
  else if is_str segment_type (py "at") then
    try! d := as_dict segment_data in
    Ok (Some ([91; 64]%N ++ py_str rt (get d (py "qq") (JStr [])) ++ [93]%N))
  else if is_str segment_type (py "record") then
    Ok (Some [91; 35821; 38899; 93]%N)
  else if is_str segment_type (py "reply") then
    Ok (Some [91; 22238; 22797; 93]%N)
  else Ok (Some ([91]%N ++ py_str rt segment_type ++ [93]%N)).

(** The loop of [_format_message_for_log] over the segments as the first
    loop of [send_message_segments] left them. *)
Fixpoint log_parts (rt : runtime) (message_segments : list piece)
  : result (list pystr) :=
  match message_segments with
  | [] => Ok []
  | PSeg s :: rest =>
      try! part := log_part rt (JStr (seg_type s)) (JObj (seg_data s)) in
      try! tail := log_parts rt rest in
      Ok (match part with Some p => p :: tail | None => tail end)
  | PDict d :: rest =>
      try! changed := api_segment rt (PDict d) in
      let d' := default d changed in
      try! part := log_part rt (get d' (py "type") JNull)
                     (get d' (py "data") (JObj [])) in
      try! tail := log_parts rt rest in
      Ok (match part with Some p => p :: tail | None => tail end)
  | _ :: rest => log_parts rt rest
  end.

(** [LunarBot._format_message_for_log] *)
Definition _format_message_for_log (rt : runtime) (message_segments : list piece)
  : result pystr :=
  try! parts := log_parts rt message_segments in
  Ok (match parts with
      | [] => [91; 31354; 28040; 24687; 93]%N
      | _ => join (py " ") parts
      end).

(** The request for a group or for a user; an id that is [None] or 0
    counts as absent. *)
Definition request_payload (api_message_segments : list dict)
  (user_id group_id : option Z) : option dict :=
  let present (id : option Z) :=
    match id with Some n => negb (n =? 0) | None => false end in
  let message := JArr (JObj <$> api_message_segments) in
  if present group_id then
    Some [(py "action", JStr (py "send_group_msg"));
          (py "params", JObj [(py "group_id", JNum (default 0 group_id));
                              (py "message", message)])]
  else if present user_id then
    Some [(py "action", JStr (py "send_private_msg"));
          (py "params", JObj [(py "user_id", JNum (default 0 user_id));
                              (py "message", message)])]
  else None.

(** Whether a value returned by [send] is a confirmation:
    [response_data and response_data.get('status') == 'ok']; [.get] on a
    value that is not a dict raises. *)
Definition confirmed (response_data : option json) : result bool :=
  match response_data with
  | Some r =>
      if truth r then
        match r with
        | JObj d => Ok (is_str (get d (py "status") JNull) (py "ok"))
        | _ => Raise AttributeError
        end
      else Ok false
  | None => Ok false
  end.

(** [LunarBot.send_message_segments]: the value returned ([False] or the
    response) or the exception raised, the connection and the futures
    afterwards, and the count [message_count['sent']]. *)
Definition send_message_segments (rt : runtime) (c : connection) (h : heap)
  (sent : nat) (message_segments : list piece) (user_id group_id : option Z)
  (request_id : pystr) (env : suspension)
  : result json * connection * heap * nat :=
  match message_segments with
  | [] => (Ok (JBool false), c, h, sent)
  | _ :: _ =>
      match api_segments rt message_segments with
      | Raise e => (Raise e, c, h, sent)
      | Ok api_message_segments =>
          match _format_message_for_log rt message_segments with
          | Raise _ => (Ok (JBool false), c, h, sent)
          | Ok _ =>
              match request_payload api_message_segments user_id group_id with
              | None => (Ok (JBool false), c, h, sent)
              | Some payload =>
                  let o := send c h payload true request_id env in
                  let c' := o.1.1.1.2 in
                  let h' := o.1.1.2 in
                  match returned o with
                  | Ok response_data =>
                      match confirmed response_data with
                      | Ok true => (Ok (default JNull response_data), c', h', S sent)
                      | _ => (Ok (JBool false), c', h', sent)
                      end
                  | Raise e =>
                      if is_Exception e then (Ok (JBool false), c', h', sent)
                      else (Raise e, c', h', sent)
                  end
              end
          end
      end
  end.

End Api.

(** ** API calls against the connection *)
Section ApiFacts.
Import Connection Reader Builder Api.

(** What the wait of a [send] that transmitted its frame ends with. *)
Definition awaited (c : connection) (h : heap) (request_id : pystr)
  (env : suspension) : result json :=
  let w := others env (register c h request_id) in
  (wait_for w.2 (length h) (_request_timeout w.1) (completed env)).1.1.

Lemma send_returned (c : connection) (h : heap) (data : dict)
  (request_id : pystr) (env : suspension) :
  websocket c = true ->
  returned (send c h data true request_id env)
  = match xmit env with
    | Some KeyboardInterrupt => Ok None
    | Some e => Raise e
    | None =>
        match awaited c h request_id env with
        | Ok d => Ok (Some d)
        | Raise KeyboardInterrupt => Ok None
        | Raise e => Raise e
        end
    end.
Proof.
  intros Hws. unfold returned, send, awaited. rewrite Hws. cbn [negb].
  destruct (others env (register c h request_id)) as [c1 h1]. cbn [fst snd].
  destruct (xmit env) as [e|].
  - destruct (send_cleanup c1 h1 request_id (length h) (Some e)) as [c2 h2].
    by destruct e.
  - destruct (wait_for h1 (length h) (_request_timeout c1) (completed env))
      as [[r h2] waited]. cbn [fst].
    destruct r as [d|e].
    + by destruct (send_cleanup c1 h2 request_id (length h) None).
    + destruct (send_cleanup c1 h2 request_id (length h) (Some e)). by destruct e.
Qed.

Lemma send_disconnected (c : connection) (h : heap) (data : dict)
  (request_id : pystr) (env : suspension) :
  websocket c = false ->
  send c h data true request_id env = (Raise ConnectionError, c, h, None, 0%Q).
Proof. intros Hws. unfold send. by rewrite Hws. Qed.

Lemma awaited_timeout (c : connection) (h : heap) (request_id : pystr)
  (env : suspension) :
  no_response_within (_request_timeout (others env (register c h request_id)).1)
    (completed env) ->
  awaited c h request_id env = Raise TimeoutError.
Proof.
  unfold awaited, wait_for, no_response_within.
  destruct (completed env) as [[t s]|]; [|done]. by intros [-> ->].
Qed.

(** The wait of a [send] whose response the reader receives in time. *)
Lemma awaited_reply (rt : runtime) (c : connection) (h : heap)
  (request_id : pystr) (reply : json) (t : Q) :
  PyStr.truthy request_id = true ->
  request_id_of reply = Ok (Some (JStr request_id)) ->
  Qle_bool t 0 = false ->
  Qle_bool (_request_timeout c) t = false ->
  awaited c h request_id (reader_delivers rt reply t)
  = if is_error reply then Raise (server_error rt reply) else Ok reply.
Proof.
  intros Hid Hrid Ht0 Ht. unfold awaited, reader_delivers. cbn [others completed].
  rewrite register_fields.
  rewrite (reply_completes_pending rt _ _ request_id (length h)); try done.
  - cbn [fst snd _request_timeout set_pending]. unfold wait_for.
    rewrite Ht0, Ht. unfold completion. by destruct (is_error reply).
  - apply lookup_insert_eq.
  - apply fresh_future_pending.
Qed.

(** X23: what an API call made through [bot.diy] reports.  On a
    connection that is not open it reports [error] without touching
    anything; when no response comes within the window it reports
    [timeout]; when the reader receives the response in time it reports
    [ok] with the response's data for status [ok], [error] with the
    server's message for status [error], and [failed] with the response's
    message for any other status.  It raises nothing that is an
    [Exception]. *)
Theorem diy_reports_the_outcome (str_exn : exn -> pystr) (c : connection)
  (h : heap) (action : pystr) (params : list (pystr * param))
  (request_id : pystr) :
  (forall env,
      websocket c = false ->
      _diy_call str_exn c h action params request_id env
      = (Ok (diy_error str_exn ConnectionError), c, h)) /\
  (forall env,
      websocket c = true -> xmit env = None ->
      no_response_within (_request_timeout (others env (register c h request_id)).1)
        (completed env) ->
      (_diy_call str_exn c h action params request_id env).1.1 = Ok diy_timeout) /\
  (forall rt d t,
      websocket c = true ->
      PyStr.truthy request_id = true ->
      request_id_of (JObj d) = Ok (Some (JStr request_id)) ->
      Qle_bool t 0 = false ->
      Qle_bool (_request_timeout c) t = false ->
      (_diy_call str_exn c h action params request_id
         (reader_delivers rt (JObj d) t)).1.1
      = Ok (if is_str (get d (py "status") JNull) (py "error")
            then diy_error str_exn (server_error rt (JObj d))
            else if is_str (get d (py "status") JNull) (py "ok")
                 then diy_ok d else diy_failed d)) /\
  (forall env e,
      (_diy_call str_exn c h action params request_id env).1.1 = Raise e ->
      is_Exception e = false).
Proof.
  split; [|split; [|split]].
  - intros env Hws. unfold _diy_call. by rewrite send_disconnected.
  - intros env Hws Hx Hno. unfold _diy_call. cbn [fst].
    by rewrite send_returned, Hx, awaited_timeout.
  - intros rt d t Hws Hid Hrid Ht0 Ht. unfold _diy_call. cbn [fst].
    rewrite send_returned by done. cbn [xmit reader_delivers].
    fold (reader_delivers rt (JObj d) t). rewrite (awaited_reply rt) by done.
    cbn [is_error]. destruct (is_str (get d (py "status") JNull) (py "error")).
    + reflexivity.
    + cbn [diy_answer]. 
      assert (truth (JObj d) = true) as ->.
      { destruct d; [|done]. discriminate Hrid. }
      by destruct (is_str (get d (py "status") JNull) (py "ok")).
  - intros env e. unfold _diy_call. cbn [fst]. unfold diy_answer.
    destruct (returned _) as [[r|]|e0]; try done.
    + destruct (truth r); [|done]. destruct r; try done.
      by destruct (is_str _ _).
    + destruct e0; try done; by intros [= <-].
Qed.

Lemma diy_reports_the_outcome_witness :
  (_diy_call (fun _ => []) one_pending [FPending] (py "get_status") []
     (py "abc123") unanswered).1.1 = Ok diy_timeout /\
  (_diy_call (fun _ => []) one_pending [FPending] (py "get_status") []
     (py "abc123")
     (reader_delivers sample_runtime
        (JObj [(py "status", JStr (py "ok")); (py "retcode", JNum 0);
               (py "echo", JObj [(py "request_id", JStr (py "abc123"))])])
        (2 # 1))).1.1
  = Ok (diy_ok [(py "status", JStr (py "ok")); (py "retcode", JNum 0);
                (py "echo", JObj [(py "request_id", JStr (py "abc123"))])]).
Proof.
  pose proof (diy_reports_the_outcome (fun _ => []) one_pending [FPending]
                (py "get_status") [] (py "abc123"))
    as (_ & H2 & H3 & _).
  split.
  - exact (H2 unanswered eq_refl eq_refl I).
  - exact (H3 sample_runtime
             [(py "status", JStr (py "ok")); (py "retcode", JNum 0);
              (py "echo", JObj [(py "request_id", JStr (py "abc123"))])]
             (2 # 1) eq_refl eq_refl eq_refl eq_refl eq_refl).
Defined.

End ApiFacts.

(** ** Sending messages *)
Section SendFacts.
Import Connection Reader Builder Api.

(** A segment object whose log line can be built: not a text segment
    with something else than a string in it, and of a class of its
    own. *)
Definition plain_segment (s : segment) : Prop :=
  match s with
  | TextSegment (JStr _) => True
  | TextSegment _ | BaseSegment _ _ => False
  | _ => True
  end.

Lemma plain_segments_prepared (rt : runtime) (segments : list segment) :
  Forall plain_segment segments ->
  api_segments rt (PSeg <$> segments) = Ok (to_dict <$> segments) /\
  exists line, _format_message_for_log rt (PSeg <$> segments) = Ok line.
Proof.
  intros H.
  assert (Hparts : exists parts, log_parts rt (PSeg <$> segments) = Ok parts).
  { induction H as [|s segments Hs _ [parts IH]]; [by eexists|].
    csimpl. rewrite IH.
    destruct s as [[]| | | | | | | |]; try done; simpl; by eexists. }
  split.
  - clear Hparts. induction H as [|s segments Hs _ IH]; [done|].
    csimpl. by rewrite IH.
  - destruct Hparts as [parts Hparts]. unfold _format_message_for_log.
    rewrite Hparts. by eexists.
Qed.

Lemma confirmed_true (response_data : option json) :
  confirmed response_data = Ok true <->
  exists d, response_data = Some (JObj d) /\
            is_str (get d (py "status") JNull) (py "ok") = true.
Proof.
  unfold confirmed. split.
  - destruct response_data as [r|]; [|done]. destruct (truth r); [|done].
    destruct r; try done. intros [= H]. by eexists.
  - intros (d & -> & H). destruct d as [|kv d]; [done|]. simpl truth. cbv iota.
    by rewrite H.
Qed.

(** X24: a message counts as sent exactly when the server confirmed it.
    [send_message_segments] either returns the server's response, which
    then has status [ok], and adds one to the count of sent messages, or
    returns [False] (or raises) and leaves the count alone.  Without
    segments or without a target it sends nothing.  For segment objects
    sent to a group on an open connection, when the reader receives the
    response in time, the call returns the response if its status is [ok]
    and [False] otherwise. *)
Theorem sent_count_tracks_confirmations (rt : runtime) (c : connection)
  (h : heap) (sent : nat) (request_id : pystr) :
  (forall message_segments user_id group_id env,
      let out := send_message_segments rt c h sent message_segments
                   user_id group_id request_id env in
      (out.2 = S sent /\
       exists d, out.1.1.1 = Ok (JObj d) /\
                 is_str (get d (py "status") JNull) (py "ok") = true) \/
      (out.2 = sent /\
       (out.1.1.1 = Ok (JBool false) \/ exists e, out.1.1.1 = Raise e))) /\
  (forall message_segments env,
      let out := send_message_segments rt c h sent message_segments
                   None None request_id env in
      out.1.1.2 = c /\ out.1.2 = h /\ out.2 = sent) /\
  (forall user_id group_id env,
      send_message_segments rt c h sent [] user_id group_id request_id env
      = (Ok (JBool false), c, h, sent)) /\
  (forall segments user_id group d t,
      segments <> [] -> Forall plain_segment segments -> group <> 0 ->
      websocket c = true ->
      PyStr.truthy request_id = true ->
      request_id_of (JObj d) = Ok (Some (JStr request_id)) ->
      Qle_bool t 0 = false ->
      Qle_bool (_request_timeout c) t = false ->
      let out := send_message_segments rt c h sent (PSeg <$> segments)
                   user_id (Some group) request_id
                   (reader_delivers rt (JObj d) t) in
      if is_str (get d (py "status") JNull) (py "ok")
      then out.1.1.1 = Ok (JObj d) /\ out.2 = S sent
      else out.1.1.1 = Ok (JBool false) /\ out.2 = sent).
Proof.
  split; [|split; [|split]].
  - intros segs uid gid env. cbv zeta. unfold send_message_segments.
    destruct segs as [|p segs]; [right; split; [done|by left]|].
    destruct (api_segments rt (p :: segs)) as [api|e];
      [|right; split; [done|right; by eexists]].
    destruct (_format_message_for_log rt (p :: segs));
      [|right; split; [done|by left]].
    destruct (request_payload api uid gid) as [payload|];
      [|right; split; [done|by left]].
    destruct (returned (send c h payload true request_id env)) as [r|e].
    + destruct (confirmed r) as [[|]|] eqn:Hc;
        try (right; split; [done|by left]).
      apply confirmed_true in Hc as (d & -> & Hok). left. split; [done|].
      exists d. done.
    + destruct (is_Exception e); right; (split; [done|]); [by left|right; by eexists].
  - intros segs env. cbv zeta. unfold send_message_segments.
    destruct segs as [|p segs]; [done|].
    destruct (api_segments rt (p :: segs)) as [api|e]; [|done].
    by destruct (_format_message_for_log rt (p :: segs)).
  - done.
  - intros segments uid group d t Hne Hplain Hg Hws Hid Hrid Ht0 Ht. cbv zeta.
    destruct (plain_segments_prepared rt segments Hplain) as [Hapi [line Hlog]].
    unfold send_message_segments. rewrite Hapi, Hlog.
    destruct segments as [|s segments]; [done|]. csimpl.
    unfold request_payload. cbn [negb].
    assert ((group =? 0) = false) as -> by (by apply Z.eqb_neq). cbn [negb].
    rewrite send_returned by done. cbn [xmit reader_delivers].
    fold (reader_delivers rt (JObj d) t). rewrite (awaited_reply rt) by done.
    cbn [is_error].
    destruct (is_str (get d (py "status") JNull) (py "ok")) eqn:Hok.
    + assert (is_str (get d (py "status") JNull) (py "error") = false) as ->.
      { destruct (get d (py "status") JNull); try done. simpl in *.
        apply eqb_eq in Hok as ->. done. }
      rewrite (proj2 (confirmed_true (Some (JObj d)))) by (by exists d). done.
    + destruct (is_str (get d (py "status") JNull) (py "error")).
      * done.
      * assert (confirmed (Some (JObj d)) = Ok false) as ->; [|done].
        unfold confirmed. destruct d; [done|]. simpl truth. cbv iota.
        by rewrite Hok.
Qed.

Lemma sent_count_tracks_confirmations_witness :
  let out := send_message_segments sample_runtime one_pending [FPending] 0
               [PSeg (AtSegment (py "10001")); PSeg (TextSegment (JStr (py "hi")))]
               None (Some 42) (py "abc123")
               (reader_delivers sample_runtime ok_reply (2 # 1)) in
  out.1.1.1 = Ok ok_reply /\ out.2 = 1%nat.
Proof.
  refine (proj2 (proj2 (proj2 (sent_count_tracks_confirmations sample_runtime
                                 one_pending [FPending] 0 (py "abc123"))))
            [AtSegment (py "10001"); TextSegment (JStr (py "hi"))] None 42
            [(py "status", JStr (py "ok")); (py "retcode", JNum 0);
             (py "echo", JObj [(py "request_id", JStr (py "abc123"))])]
            (2 # 1) _ _ _ eq_refl eq_refl eq_refl eq_refl eq_refl).
  - discriminate.
  - repeat constructor.
  - discriminate.
Defined.

End SendFacts.

(** ** Instances *)
Section Instances.
Import Connection Reader PluginManager.

Lemma stamped_request_id_is_read_back_witness :
  request_id_of
    (JObj (stamp [(py "action", JStr (py "get_status"));
                  (py "echo", JObj [(py "tag", JNum 7)])] (py "abc123")))
  = Ok (Some (JStr (py "abc123"))) /\
  get (stamp [(py "action", JStr (py "get_status"));
              (py "echo", JObj [(py "tag", JNum 7)])] (py "abc123"))
    (py "action") JNull
  = JStr (py "get_status") /\
  exists e', get (stamp [(py "action", JStr (py "get_status"));
                         (py "echo", JObj [(py "tag", JNum 7)])] (py "abc123"))
               (py "echo") JNull = JObj e' /\
             get e' (py "tag") JNull = JNum 7.
Proof.
  destruct (stamped_request_id_is_read_back
              [(py "action", JStr (py "get_status"));
               (py "echo", JObj [(py "tag", JNum 7)])] (py "abc123"))
    as (H1 & H2 & H3).
  split; [exact H1|]. split.
  - exact (H2 (py "action") JNull ltac:(discriminate)).
  - exact (H3 [(py "tag", JNum 7)] (py "tag") JNull eq_refl eq_refl
             ltac:(discriminate)).
Defined.

Lemma reader_invariants_witness :
  (_listen_loop sample_runtime one_pending [FResult JNull]
     [Some (JObj [(py "echo", JObj [(py "request_id", JStr (py "r1"))])]);
      None; Some heartbeat]).2 !! 0%nat
  = Some (FResult JNull).
Proof.
  destruct (reader_invariants sample_runtime
              [Some (JObj [(py "echo", JObj [(py "request_id", JStr (py "r1"))])]);
               None; Some heartbeat] one_pending [FResult JNull])
    as (_ & _ & _ & _ & H & _).
  exact (H 0%nat (FResult JNull) eq_refl ltac:(discriminate)).
Defined.

(** The candidates of [grown_directory]. *)
Definition candidate_b : candidate :=
  {| c_name := py "b"; c_path := py "plugins/b.py"; c_type := TFile;
     c_import := Imported plugin_b |}.
Definition candidate_bad : candidate :=
  {| c_name := py "bad"; c_path := py "plugins/bad.py"; c_type := TFile;
     c_import := ImportError (py "SyntaxError") |}.

Lemma every_candidate_is_accounted_for_witness :
  ODict.mem (plugins (load_plugins (init grown_directory) grown_directory)) (py "b")
  = true /\
  is_Some (failed_plugins (load_plugins (init grown_directory) grown_directory)
             !! py "bad").
Proof.
  destruct (every_candidate_is_accounted_for (init grown_directory) grown_directory)
    as (H & _).
  assert (Hb : candidate_b ∈ candidates grown_directory).
  { change (candidates grown_directory)
      with [{| c_name := py "a"; c_path := py "plugins/a.py"; c_type := TFile;
               c_import := Imported plugin_a |}; candidate_b; candidate_bad].
    right. left. }
  assert (Hbad : candidate_bad ∈ candidates grown_directory).
  { change (candidates grown_directory)
      with [{| c_name := py "a"; c_path := py "plugins/a.py"; c_type := TFile;
               c_import := Imported plugin_a |}; candidate_b; candidate_bad].
    right. right. left. }
  split; [exact (H candidate_b Hb)|exact (H candidate_bad Hbad)].
Defined.

Lemma listing_after_load_witness :
  ODict.find
    (enabled_on_disk
       (get_plugin_list (load_plugins (init grown_directory) grown_directory)
          grown_directory)) (py "b")
  = Some (Loaded TFile (py "Any") [] 2).
Proof.
  destruct (listing_after_load (init grown_directory) grown_directory)
    as (_ & H & _).
  exact (H (py "b")
           {| module := plugin_b; type := TFile; path := py "plugins/b.py";
              trigger := py "Any"; help := []; enabled := true; priority := 2 |}
           ltac:(discriminate) eq_refl).
Defined.

End Instances.

(** ** From the text of a message to the plugins it reaches *)
Section Selection.
Import PluginManager Bot.







(** The text [/ping  now], with two spaces, is the command [ping]: the
    plugin sees the arguments as the split left them, one space kept. *)
Example command_arguments_are_kept :
  let ev := set_message (new GroupMessageEvent [])
              [TextSegment (JStr (py "/ping  now"))] in
  let ev1 := extract_command (py "/") (py "/ping  now") ev in
  processed_text ev1 = Some (py " now") /\
  should_trigger (py "/") (py "ping") ev1 = Ok (true, ev1).
Proof. split; reflexivity. Qed.

Lemma calls_on_registry (st : manager) (kw : option pystr) (ev : event)
  (i : invocation) :
  i ∈ (handle_event st kw ev).1.2 -> i_plugin i ∈ (plugins st).*1.
Proof.
  intros Hi.
  assert (Hw : i ∈ (walk (keyword_of kw) (plugins st) ev).1.2).
  { unfold handle_event in Hi.
    destruct (isinstance ev MessageEvent);
      [destruct (get_text ev); [|by apply elem_of_nil in Hi]|];
      by destruct (walk _ _ ev) as [[b t] e]. }
  destruct (walk_called (keyword_of kw) (plugins st) ev) as (called & Hsub & Hn).
  assert (Hin : i_plugin i ∈ called.*1).
  { rewrite Hn. apply list_elem_of_fmap. by exists i. }
  apply list_elem_of_fmap in Hin as ([n p] & -> & Hin).
  apply list_elem_of_fmap. exists (n, p). split; [done|].
  by eapply elem_of_sublist.
Qed.

(** X26: a disabled plugin receives no event.  After [disable_plugin]
    has renamed [name.py] (with no directory [name] beside it), no
    dispatch calls an entry point of the plugin, whatever the event and
    whatever was loaded before. *)
Theorem disabled_plugin_receives_nothing (st : manager) (fs : directory)
  (plugin_name : pystr) (kw : option pystr) (ev : event) :
  path_exists fs (plugin_name ++ py ".py") = true ->
  in_listdir fs plugin_name = false ->
  path_exists fs (py "d_" ++ plugin_name ++ py ".py") = false ->
  path_exists fs (py "d_" ++ plugin_name) = false ->
  let st' := (disable_plugin st fs plugin_name true).1.1.2 in
  (disable_plugin st fs plugin_name true).1.1.1 = true /\
  forall i, i ∈ (handle_event st' kw ev).1.2 -> i_plugin i <> plugin_name.
Proof.
  intros Hpy Hdir Hdpy Hddir. cbv zeta.
  unfold disable_plugin. rewrite Hdpy, Hddir, Hpy. cbn [orb fst snd].
  split; [done|]. intros i Hi Heq.
  apply calls_on_registry in Hi. rewrite Heq in Hi.
  apply odict_mem_keys in Hi.
  rewrite not_on_disk_not_loaded in Hi; [done| |].
  - apply in_listdir_rename_old. apply length_ne. rewrite !length_app. simpl. lia.
  - rewrite in_listdir_rename_other; [done| |];
      apply length_ne; rewrite !length_app; simpl; lia.
Qed.

Lemma disabled_plugin_receives_nothing_witness :
  (handle_event (disable_plugin (init two_plugins) two_plugins (py "b") true).1.1.2
     None (message_with_text "hello")).1.2 = [] /\
  forall i,
    i ∈ (handle_event
           (disable_plugin (init two_plugins) two_plugins (py "b") true).1.1.2
           None (message_with_text "/ping")).1.2 ->
    i_plugin i <> py "b".
Proof.
  split; [reflexivity|].
  exact (proj2 (disabled_plugin_receives_nothing (init two_plugins) two_plugins
                  (py "b") None (message_with_text "/ping")
                  eq_refl eq_refl eq_refl eq_refl)).
Defined.

End Selection.

(* ===================================================================== *)
(** * core/bot.py: forwarded messages *)
(* ===================================================================== *)
Module Forward.
Import Connection Reader Builder Session.

(** [v.copy()]: dicts and lists have the method. *)
Definition copy (v : json) : result json :=
  match v with
  | JObj _ | JArr _ => Ok v
  | _ => Raise AttributeError
  end.

(** [data[key]] for a string key: the value of a dict; a list or a string
    takes no string index. *)
Definition item (v : json) (key : pystr) : result json :=
  match v with
  | JObj d => if contains d key then Ok (get d key JNull) else Raise OtherError
  | _ => Raise TypeError
  end.

(** [data['user_id'] = value] on the copy. *)
Definition set_item (v : json) (key : pystr) (value : json) : result json :=
  match v with
  | JObj d => Ok (JObj (set_key d key value))
  | _ => Raise TypeError
  end.

(** One pass of the loop of [send_forward_msg]: the node appended to
    [formatted_messages], if any. *)
Definition formatted_node (rt : runtime) (msg : piece) : result (option json) :=
  match msg with
  | PSeg (ForwardNodeSegment data) =>
      Ok (Some (JObj (to_dict (ForwardNodeSegment data))))
  | PDict d =>
      if is_str (get d (py "type") JNull) (py "node") && contains d (py "data") then
        try! data := copy (get d (py "data") JNull) in
        try! has_id := py_in (JStr (py "user_id")) data in
        try! data' :=
          (if has_id then
             try! user_id := item data (py "user_id") in
             match user_id with
             | JNum _ | JBool _ =>
                 set_item data (py "user_id") (JStr (py_str rt user_id))
             | _ => Ok data
             end
           else Ok data) in
        Ok (Some (JObj [(py "type", JStr (py "node")); (py "data", data')]))
      else Ok (Some (JObj d))
  | _ => Ok None
  end.

Fixpoint formatted_messages (rt : runtime) (messages : list piece)
  : result (list json) :=
  match messages with
  | [] => Ok []
  | msg :: rest =>
      try! this := formatted_node rt msg in
      try! tail := formatted_messages rt rest in
      Ok (match this with Some n => n :: tail | None => tail end)
  end.

(** The request [send_forward_msg] makes for a group or for a user; an id
    that is [None] or 0 counts as absent. *)
Definition forward_payload (formatted : list json) (group_id user_id : option Z)
  : option dict :=
  let present (id : option Z) :=
    match id with Some n => negb (n =? 0) | None => false end in
  if present group_id then
    Some [(py "action", JStr (py "send_group_forward_msg"));
          (py "params", JObj [(py "messages", JArr formatted);
                              (py "group_id", JNum (default 0 group_id))])]
  else if present user_id then
    Some [(py "action", JStr (py "send_private_forward_msg"));
          (py "params", JObj [(py "messages", JArr formatted);
                              (py "user_id", JNum (default 0 user_id))])]
  else None.

(** [LunarBot.send_forward_msg]: the value returned or the exception
    raised, the connection and the futures afterwards, the frame handed
    to the socket and the count [message_count['sent']]. *)
Definition send_forward_msg (rt : runtime) (c : connection) (h : heap)
  (sent : nat) (messages : list piece) (group_id user_id : option Z)
  (request_id : pystr) (env : suspension)
  : result bool * connection * heap * option dict * nat :=
  match messages with
  | [] => (Ok false, c, h, None, sent)
  | _ :: _ =>
      match formatted_messages rt messages with
      | Raise _ => (Ok false, c, h, None, sent)
      | Ok formatted =>
          match forward_payload formatted group_id user_id with
          | None => (Ok false, c, h, None, sent)
          | Some payload =>
              let o := send c h payload false request_id env in
              let c' := o.1.1.1.2 in
              let h' := o.1.1.2 in
              match returned o with
              | Ok _ => (Ok true, c', h', o.1.2, S sent)
              | Raise e =>
                  if is_Exception e then (Ok false, c', h', o.1.2, sent)
                  else (Raise e, c', h', o.1.2, sent)
              end
          end
      end
  end.

End Forward.

Section ForwardFacts.
Import Connection Reader Builder Session Forward.

(** A forward node object. *)
Definition is_node (p : piece) : Prop :=
  match p with
  | PSeg (ForwardNodeSegment _) => True
  | _ => False
  end.

Lemma nodes_formatted (rt : runtime) (messages : list piece) :
  Forall is_node messages ->
  exists formatted, formatted_messages rt messages = Ok formatted.
Proof.
  induction 1 as [|p messages Hp _ [formatted IH]]; [by eexists|].
  simpl. rewrite IH. destruct p as [|[]| |]; try done. by eexists.
Qed.

(** X27: a forwarded message is counted as sent without any
    confirmation.  [send_forward_msg] does not wait for a response: with
    forward nodes and a target it returns [True] and adds one to the count
    of sent messages even when the connection is not open and nothing was
    handed to the socket; on an open connection it does so exactly when
    transmitting raised nothing (a keyboard interrupt apart, which also
    counts), and it registers no request. *)
Theorem forward_is_counted_unconfirmed (rt : runtime) (c : connection) (h : heap)
  (sent : nat) (messages : list piece) (group : Z) (user_id : option Z)
  (request_id : pystr) (env : suspension) :
  messages <> [] -> Forall is_node messages -> group <> 0 ->
  let out := send_forward_msg rt c h sent messages (Some group) user_id
               request_id env in
  (websocket c = false ->
   out = (Ok true, c, h, None, S sent)) /\
  (websocket c = true ->
   match xmit env with
   | None | Some KeyboardInterrupt => out.1.1.1.1 = Ok true /\ out.2 = S sent
   | Some e =>
       out.2 = sent /\
       out.1.1.1.1 = if is_Exception e then Ok false else Raise e
   end) /\
  (websocket c = true ->
   _pending_requests out.1.1.1.2 = _pending_requests (others env (c, h)).1).
Proof.
  intros Hne Hnodes Hg. cbv zeta.
  destruct (nodes_formatted rt messages Hnodes) as [formatted Hf].
  unfold send_forward_msg. rewrite Hf.
  destruct messages as [|m messages]; [done|].
  unfold forward_payload. assert ((group =? 0) = false) as -> by (by apply Z.eqb_neq).
  cbn [negb]. unfold returned, send.
  split; [|split]; intros Hws; rewrite Hws; cbn [negb].
  - done.
  - destruct (others env (c, h)) as [c1 h1].
    by destruct (xmit env) as [[]|].
  - destruct (others env (c, h)) as [c1 h1].
    by destruct (xmit env) as [[]|].
Qed.

Lemma forward_is_counted_unconfirmed_witness :
  send_forward_msg sample_runtime fresh_session [] 0
    [PSeg (ForwardNodeSegment [(py "user_id", JStr (py "10001"));
                               (py "nickname", JStr (py "bot"));
                               (py "content", JArr [])])]
    (Some 42) None (py "abc123") unanswered
  = (Ok true, fresh_session, [], None, 1%nat).
Proof.
  refine (proj1 (forward_is_counted_unconfirmed sample_runtime fresh_session [] 0
                   [PSeg (ForwardNodeSegment [(py "user_id", JStr (py "10001"));
                                              (py "nickname", JStr (py "bot"));
                                              (py "content", JArr [])])]
                   42 None (py "abc123") unanswered _ _ _) eq_refl).
  - discriminate.
  - repeat constructor.
  - discriminate.
Defined.

End ForwardFacts.
